(** * The process-API demos: a shell loop and an output redirection

    The programs of [topic_2_process_api] are embedded here:

    - the minimal shell ([main] with the [fgets] loop): prompt, read a
      line, [fork], [execvp] in the child, [wait] in the parent, repeat;
    - the redirection demo ([main] that closes descriptor 1, opens
      [wc_output.txt] and execs [wc]);
    - the three smaller demos: [fork.c], [fork_wait.c], and the demo
      that forks, execs [wc] and waits.

    Each [main] is written as a resumption machine: a control point of
    the C text is mapped to the library call made there together with
    the continuation that consumes the call's result.  A small model of
    the kernel (descriptor tables, files, a process table and a
    scheduler that interleaves processes) runs these machines. *)

From Stdlib Require Import ZArith Ascii String List Lia.
From stdpp Require Import base option list gmap strings fin_maps pretty.

(** ** C strings and the line buffer *)

Abbreviation cstr := (list ascii).

Definition NUL : ascii := "000"%char.
Definition NL : ascii := "010"%char.

(** A string literal of the C text, without its terminator. *)
Definition cs (s : string) : cstr := list_ascii_of_string s.

(** [#define MAXLINE 100] *)
Definition MAXLINE : nat := 100.

(** [char buf[MAXLINE]]: the bytes of the array, in order. *)
Abbreviation buffer := (list ascii).

(** [strlen]: the number of bytes before the first NUL. *)
Fixpoint strlen (m : list ascii) : nat :=
  match m with
  | [] => 0
  | c :: m' => if decide (c = NUL) then 0 else S (strlen m')
  end.

(** The C string that starts at the beginning of an array. *)
Definition c_str (m : list ascii) : cstr := take (strlen m) m.

(** [size_t] is an unsigned 64-bit integer (LP64); subtraction wraps. *)
Definition size_bits : Z := 64.
Definition size_wrap (z : Z) : Z := (z mod 2 ^ size_bits)%Z.

(** The same bits read as a signed offset, which is what indexing a
    pointer with them amounts to. *)
Definition size_signed (z : Z) : Z :=
  (if z <? 2 ^ (size_bits - 1) then z else z - 2 ^ size_bits)%Z.

(** A subscript is defined only inside the array. *)
Definition in_bounds (buf : buffer) (i : Z) : bool :=
  ((0 <=? i) && (i <? Z.of_nat (length buf)))%Z.

Definition load (buf : buffer) (i : Z) : option ascii :=
  if in_bounds buf i then buf !! Z.to_nat i else None.

Definition store (buf : buffer) (i : Z) (c : ascii) : option buffer :=
  if in_bounds buf i then Some (<[Z.to_nat i := c]> buf) else None.

(** [strlen(buf) - 1], computed in [size_t]. *)
Definition strip_index (buf : buffer) : Z :=
  size_wrap (Z.of_nat (strlen buf) - 1).

(** [if (buf[strlen(buf) - 1] == '\n') buf[strlen(buf) - 1] = '\0';]
    [None] stands for an access outside the array, whose behaviour C
    leaves undefined. *)
Definition strip_newline (buf : buffer) : option buffer :=
  match load buf (strip_index buf) with
  | None => None
  | Some c =>
      if decide (c = NL) then store buf (strip_index buf) NUL
      else Some buf
  end.

(** Removing one trailing newline from a string, if there is one. *)
Definition chomp (s : cstr) : cstr :=
  match last s with
  | Some c => if decide (c = NL) then removelast s else s
  | None => s
  end.

(** The bytes [fgets] consumes: at most [n], ending after the first
    newline. Returns them with the rest of the stream. *)
Fixpoint read_line (n : nat) (input : list ascii) : list ascii * list ascii :=
  match n, input with
  | S n', c :: rest =>
      if decide (c = NL) then ([c], rest)
      else let '(l, r) := read_line n' rest in (c :: l, r)
  | _, _ => ([], input)
  end.

(** The array after [data] was copied to its beginning. *)
Definition write_at (buf : buffer) (data : list ascii) : buffer :=
  data ++ drop (length data) buf.

(** [fgets(buf, size, stream)]: at most [size - 1] bytes and a NUL are
    stored; [None] is the NULL returned when nothing could be read. *)
Definition fgets (buf : buffer) (size : nat) (input : list ascii)
  : option (buffer * list ascii) :=
  let '(l, rest) := read_line (size - 1) input in
  match l with
  | [] => None
  | _ => Some (write_at buf (l ++ [NUL]), rest)
  end.

(** ** Library calls and programs as resumption machines *)

(** The call a process makes next, with the continuation for its
    result.  [PC] is the type of control points of the program.
    [printf] and [fprintf(stderr, ...)] are taken at the call: output
    is not held back in a stdio buffer. *)
Inductive action (PC : Type) : Type :=
  | APrintf (data : cstr) (k : PC)
  | AEprintf (data : cstr) (k : PC)
  | AFgets (buf : buffer) (size : nat) (k : option buffer → PC)
  | AGetpid (k : Z → PC)
  | AFork (k : Z → PC)
  | AExecvp (file : cstr) (argv : list cstr) (k : PC)
  | AWait (k : Z → PC)
  | AClose (fd : nat) (k : Z → PC)
  | AOpen (path : cstr) (flags : Z) (mode : option Z) (k : Z → PC)
  | AExit (code : Z)
  | AUndefined.

Arguments APrintf {PC} data k.
Arguments AEprintf {PC} data k.
Arguments AFgets {PC} buf size k.
Arguments AGetpid {PC} k.
Arguments AFork {PC} k.
Arguments AExecvp {PC} file argv k.
Arguments AWait {PC} k.
Arguments AClose {PC} fd k.
Arguments AOpen {PC} path flags mode k.
Arguments AExit {PC} code.
Arguments AUndefined {PC}.

(** *** The shell *)

Definition prompt : cstr := cs "% ".

(** Control points of the shell's [main]; [buf] is carried where it is
    live. *)
Inductive spc : Type :=
  | SPrompt0 (buf : buffer)     (* printf("%% ") before the loop *)
  | SRead (buf : buffer)        (* while (fgets(buf, MAXLINE, stdin) != NULL) *)
  | SFork (buf : buffer)        (* rc = fork() *)
  | SForkErr                    (* fprintf(stderr, "Fork error\n") *)
  | SForkExit                   (* exit(1) *)
  | SChildExec (buf : buffer)   (* execvp(buf, argv) *)
  | SChildErr                   (* fprintf(stderr, "exec error\n") *)
  | SChildExit                  (* exit(1) *)
  | SWait (buf : buffer)        (* wait(NULL) *)
  | SPrompt (buf : buffer)      (* printf("%% ") *)
  | SExit0                      (* exit(0) *)
  | SUndefined.                 (* after an access outside buf *)

(** After [fgets]: NULL leaves the loop; otherwise the newline is
    stripped and the line dispatched. *)
Definition after_fgets (r : option buffer) : spc :=
  match r with
  | None => SExit0
  | Some buf' =>
      match strip_newline buf' with
      | Some b => SFork b
      | None => SUndefined
      end
  end.

(** [if (rc < 0) ... else if (rc == 0) ... else ...] *)
Definition after_fork (buf : buffer) (rc : Z) : spc :=
  if (rc <? 0)%Z then SForkErr
  else if (rc =? 0)%Z then SChildExec buf
  else SWait buf.

Definition shell (p : spc) : action spc :=
  match p with
  | SPrompt0 buf => APrintf prompt (SRead buf)
  | SRead buf => AFgets buf MAXLINE after_fgets
  | SFork buf => AFork (after_fork buf)
  | SForkErr => AEprintf (cs "Fork error" ++ [NL]) SForkExit
  | SForkExit => AExit 1
  | SChildExec buf => AExecvp (c_str buf) [c_str buf] SChildErr
  | SChildErr => AEprintf (cs "exec error" ++ [NL]) SChildExit
  | SChildExit => AExit 1
  | SWait buf => AWait (λ _, SPrompt buf)
  | SPrompt buf => APrintf prompt (SRead buf)
  | SExit0 => AExit 0
  | SUndefined => AUndefined
  end.

(** *** The redirection demo *)

(** Values of [<unistd.h>], [<fcntl.h>] and [<sys/stat.h>] on Linux
    (the generic ABI); the C text names them, the headers define them. *)
Definition STDOUT_FILENO : nat := 1.
Definition STDERR_FILENO : nat := 2.
Definition O_RDONLY : Z := 0.
Definition O_WRONLY : Z := 1.
Definition O_RDWR : Z := 2.
Definition O_ACCMODE : Z := 3.
Definition O_CREAT : Z := 0x40.      (* 0100 *)
Definition O_EXCL : Z := 0x80.       (* 0200 *)
Definition O_NOCTTY : Z := 0x100.    (* 0400 *)
Definition O_TRUNC : Z := 0x200.     (* 01000 *)
Definition S_IRWXU : Z := 0x1C0.     (* 0700 *)
Definition S_IRUSR : Z := 0x100.     (* 0400 *)
Definition S_IWUSR : Z := 0x80.      (* 0200 *)
Definition S_IXUSR : Z := 0x40.      (* 0100 *)

(** [%ld] *)
Definition dec (z : Z) : cstr := cs (pretty z).

Definition hello_line (pid : Z) : cstr :=
  cs "hello (pid:" ++ dec pid ++ cs ")" ++ [NL].

Definition parent_line (rc rc_wait pid : Z) : cstr :=
  cs "parent of " ++ dec rc ++ cs " (rc_wait: " ++ dec rc_wait
    ++ cs ") (pid: " ++ dec pid ++ cs ")" ++ [NL].

Definition redirect_path : cstr := cs "wc_output.txt".

(** The second argument of the [open] call, as written. *)
Definition redirect_flags : Z :=
  Z.lor (Z.lor (Z.lor O_RDWR O_CREAT) O_TRUNC) S_IRWXU.

Definition wc_argv : list cstr := [cs "wc"; cs "fork_wait_exec_redirect.c"].

(** Control points of the redirection demo's [main]. *)
Inductive rpc : Type :=
  | RHelloPid                       (* getpid(), argument of the printf *)
  | RHello (pid : Z)                (* printf("hello (pid:%ld)\n", ...) *)
  | RFork                           (* rc = fork() *)
  | RForkErr                        (* fprintf(stderr, "fork failed\n") *)
  | RForkExit                       (* exit(1) *)
  | RChildClose                     (* close(STDOUT_FILENO) *)
  | RChildOpen                      (* open("wc_output.txt", ...) *)
  | RChildExec                      (* execvp("wc", argv) *)
  | RChildErr                       (* fprintf(stderr, "exec failed\n") *)
  | RChildExit                      (* exit(1) *)
  | RWait (rc : Z)                  (* rc_wait = wait(&status) *)
  | RReportPid (rc rc_wait : Z)     (* getpid(), argument of the printf *)
  | RReport (rc rc_wait pid : Z)    (* printf("parent of ...") *)
  | RExit0.                         (* exit(0) *)

(** [if (rc < 0) ... else if (rc == 0) ... else ...] *)
Definition redirect_after_fork (rc : Z) : rpc :=
  if (rc <? 0)%Z then RForkErr
  else if (rc =? 0)%Z then RChildClose
  else RWait rc.

Definition redirect (p : rpc) : action rpc :=
  match p with
  | RHelloPid => AGetpid RHello
  | RHello pid => APrintf (hello_line pid) RFork
  | RFork => AFork redirect_after_fork
  | RForkErr => AEprintf (cs "fork failed" ++ [NL]) RForkExit
  | RForkExit => AExit 1
  | RChildClose => AClose STDOUT_FILENO (λ _, RChildOpen)
  | RChildOpen => AOpen redirect_path redirect_flags None (λ _, RChildExec)
  | RChildExec => AExecvp (cs "wc") wc_argv RChildErr
  | RChildErr => AEprintf (cs "exec failed" ++ [NL]) RChildExit
  | RChildExit => AExit 1
  | RWait rc => AWait (λ rc_wait, RReportPid rc rc_wait)
  | RReportPid rc rc_wait => AGetpid (RReport rc rc_wait)
  | RReport rc rc_wait pid => APrintf (parent_line rc rc_wait pid) RExit0
  | RExit0 => AExit 0
  end.

(** ** The kernel: descriptors and files *)

Inductive errno : Type := EBADF | EEXIST | EACCES | ENOENT | EMFILE | ECHILD.

Inductive sysret : Type :=
  | Ok (v : Z)
  | Err (e : errno).

(** What the C caller sees. *)
Definition ret_val (r : sysret) : Z :=
  match r with
  | Ok v => v
  | Err _ => (-1)%Z
  end.

(** What a descriptor is bound to: the terminal, or a file opened with
    some access and positioned at an offset. *)
Inductive ofile : Type :=
  | Tty
  | OFile (path : cstr) (rd wr : bool) (off : nat).

(** A descriptor table; its length is the process's descriptor limit. *)
Abbreviation fdtable := (list (option ofile)).

Record file : Type := File { content : list ascii; perm : Z }.

(** What the kernel model leaves open: which names [execvp] can load,
    the creation mask, and the value found where a missing third
    argument of [open] would have been. *)
Record world : Type := World {
  loadable : cstr → bool;
  umask : Z;
  stale_mode : Z
}.

(** The lowest free descriptor, if the table has one. *)
Fixpoint lowest_free (t : fdtable) : option nat :=
  match t with
  | [] => None
  | None :: _ => Some 0
  | Some _ :: t' => S <$> lowest_free t'
  end.

Definition sys_close (t : fdtable) (fd : nat) : sysret * fdtable :=
  match t !! fd with
  | Some (Some _) => (Ok 0, <[fd := None]> t)
  | _ => (Err EBADF, t)
  end.

Definition has_flag (flags bit : Z) : bool := negb (Z.land flags bit =? 0)%Z.

Definition opens_read (flags : Z) : bool :=
  let acc := Z.land flags O_ACCMODE in
  ((acc =? O_RDONLY) || (acc =? O_RDWR))%Z.

Definition opens_write (flags : Z) : bool :=
  let acc := Z.land flags O_ACCMODE in
  ((acc =? O_WRONLY) || (acc =? O_RDWR))%Z.

(** The caller owns the file and is not privileged. *)
Definition may_access (f : file) (flags : Z) : bool :=
  (negb (opens_read flags) || has_flag (perm f) S_IRUSR)
  && (negb (opens_write flags) || has_flag (perm f) S_IWUSR).

(** Permission bits of a file created by [open]: the mode argument
    without the bits of the mask; without a mode argument, whatever
    was in its place. *)
Definition creation_perm (w : world) (mode : option Z) : Z :=
  Z.land (Z.land (default (stale_mode w) mode) (Z.lnot (umask w))) 0xFFF.

(** [open(path, flags [, mode])] *)
Definition sys_open (w : world) (fs : gmap cstr file) (t : fdtable)
    (path : cstr) (flags : Z) (mode : option Z)
  : sysret * gmap cstr file * fdtable :=
  match lowest_free t with
  | None => (Err EMFILE, fs, t)
  | Some fd =>
      let entry := Some (OFile path (opens_read flags) (opens_write flags) 0) in
      match fs !! path with
      | Some f =>
          if has_flag flags O_CREAT && has_flag flags O_EXCL then
            (Err EEXIST, fs, t)
          else if may_access f flags then
            (Ok (Z.of_nat fd),
             (if has_flag flags O_TRUNC && opens_write flags
              then <[path := File [] (perm f)]> fs else fs),
             <[fd := entry]> t)
          else (Err EACCES, fs, t)
      | None =>
          if has_flag flags O_CREAT then
            (Ok (Z.of_nat fd),
             <[path := File [] (creation_perm w mode)]> fs,
             <[fd := entry]> t)
          else (Err ENOENT, fs, t)
      end
  end.

(** The bytes of a file after [data] was written at offset [off]. *)
Definition write_file (old : list ascii) (off : nat) (data : list ascii)
  : list ascii :=
  take off old ++ replicate (off - length old) NUL ++ data
    ++ drop (off + length data) old.

(** [write(fd, data, n)] *)
Definition sys_write (fs : gmap cstr file) (t : fdtable) (fd : nat)
    (data : list ascii) : sysret * gmap cstr file * fdtable :=
  match t !! fd with
  | Some (Some Tty) => (Ok (Z.of_nat (length data)), fs, t)
  | Some (Some (OFile path rd true off)) =>
      match fs !! path with
      | Some f =>
          (Ok (Z.of_nat (length data)),
           <[path := File (write_file (content f) off data) (perm f)]> fs,
           <[fd := Some (OFile path rd true (off + length data))]> t)
      | None => (Ok (Z.of_nat (length data)), fs, t)
      end
  | _ => (Err EBADF, fs, t)
  end.

(** [fgets] on descriptor 0: from the terminal's pending input, or from
    a file at the descriptor's offset. *)
Definition sys_fgets (fs : gmap cstr file) (input : list ascii) (t : fdtable)
    (buf : buffer) (size : nat) : option buffer * list ascii * fdtable :=
  match t !! 0 with
  | Some (Some Tty) =>
      match fgets buf size input with
      | Some (b, rest) => (Some b, rest, t)
      | None => (None, input, t)
      end
  | Some (Some (OFile path true wr off)) =>
      match fs !! path with
      | Some f =>
          match fgets buf size (drop off (content f)) with
          | Some (b, rest) =>
              (Some b, input,
               <[0 := Some (OFile path true wr (length (content f) - length rest))]> t)
          | None => (None, input, t)
          end
      | None => (None, input, t)
      end
  | _ => (None, input, t)
  end.

(** [execvp] fails on the empty name, and otherwise when no program of
    that name can be loaded. *)
Definition exec_ok (w : world) (file : cstr) : bool :=
  match file with
  | [] => false
  | _ => loadable w file
  end.

(** ** The kernel: processes and the scheduler *)

Inductive status : Type :=
  | Exited (code : Z)
  | Signaled (sig : Z).

(** A process runs the program text at a control point, or the image
    that replaced it, or has terminated and awaits its parent's wait. *)
Inductive run_state (PC : Type) : Type :=
  | Run (p : PC)
  | Image (file : cstr) (argv : list cstr)
  | Zombie (st : status).

Arguments Run {PC} p.
Arguments Image {PC} file argv.
Arguments Zombie {PC} st.

Record process (PC : Type) : Type := Process {
  ppid : Z;
  code : run_state PC;
  fds : fdtable
}.

Arguments Process {PC} ppid code fds.
Arguments ppid {PC} p.
Arguments code {PC} p.
Arguments fds {PC} p.

Record sys (PC : Type) : Type := Sys {
  procs : gmap Z (process PC);
  files : gmap cstr file;
  tty_in : list ascii
}.

Arguments Sys {PC} procs files tty_in.
Arguments procs {PC} s.
Arguments files {PC} s.
Arguments tty_in {PC} s.

(** One event per call. *)
Inductive event : Type :=
  | EvWrite (p : Z) (fd : nat) (data : cstr) (r : sysret)
  | EvRead (p : Z) (r : option buffer)
  | EvGetpid (p : Z)
  | EvFork (p : Z) (child : option Z)
  | EvExec (p : Z) (file : cstr) (argv : list cstr) (ok : bool)
  | EvClose (p : Z) (fd : nat) (r : sysret)
  | EvOpen (p : Z) (path : cstr) (flags : Z) (mode : option Z) (r : sysret)
  | EvExit (p : Z) (st : status)
  | EvWait (p : Z) (r : sysret)
  | EvInput (p : Z) (n : nat).

(** What the scheduler and the environment decide at each step. *)
Inductive decision : Type :=
  | Step (p : Z)                        (* p makes its next call *)
  | StepFork (p : Z) (child : option Z) (* p's fork: the new pid, or refusal *)
  | StepWait (p c : Z)                  (* p's wait returns with zombie c *)
  | ImgWrite (p : Z) (fd : nat) (data : cstr)  (* a replaced image writes *)
  | ImgRead (p : Z) (n : nat)           (* ... consumes terminal input *)
  | ImgExit (p : Z) (st : status).      (* ... terminates *)

Definition no_child {PC} (ps : gmap Z (process PC)) (p : Z) : bool :=
  bool_decide (map_Forall (λ _ q, ppid q ≠ p) ps).

(** A call other than [fork], and [wait] only when it fails at once. *)
Definition do_call {PC} (w : world) (s : sys PC) (p : Z) (pr : process PC)
    (a : action PC) : option (event * sys PC) :=
  match a with
  | APrintf data k =>
      let '(r, fs', t') := sys_write (files s) (fds pr) STDOUT_FILENO data in
      Some (EvWrite p STDOUT_FILENO data r,
            Sys (<[p := Process (ppid pr) (Run k) t']> (procs s)) fs' (tty_in s))
  | AEprintf data k =>
      let '(r, fs', t') := sys_write (files s) (fds pr) STDERR_FILENO data in
      Some (EvWrite p STDERR_FILENO data r,
            Sys (<[p := Process (ppid pr) (Run k) t']> (procs s)) fs' (tty_in s))
  | AFgets buf size k =>
      let '(r, input', t') := sys_fgets (files s) (tty_in s) (fds pr) buf size in
      Some (EvRead p r,
            Sys (<[p := Process (ppid pr) (Run (k r)) t']> (procs s)) (files s) input')
  | AGetpid k =>
      Some (EvGetpid p,
            Sys (<[p := Process (ppid pr) (Run (k p)) (fds pr)]> (procs s))
                (files s) (tty_in s))
  | AExecvp file argv k =>
      Some (EvExec p file argv (exec_ok w file),
            Sys (<[p := Process (ppid pr)
                          (if exec_ok w file then Image file argv else Run k)
                          (fds pr)]> (procs s))
                (files s) (tty_in s))
  | AClose fd k =>
      let '(r, t') := sys_close (fds pr) fd in
      Some (EvClose p fd r,
            Sys (<[p := Process (ppid pr) (Run (k (ret_val r))) t']> (procs s))
                (files s) (tty_in s))
  | AOpen path flags mode k =>
      let '(r, fs', t') := sys_open w (files s) (fds pr) path flags mode in
      Some (EvOpen p path flags mode r,
            Sys (<[p := Process (ppid pr) (Run (k (ret_val r))) t']> (procs s))
                fs' (tty_in s))
  | AExit c =>
      Some (EvExit p (Exited (Z.land c 255)),
            Sys (<[p := Process (ppid pr) (Zombie (Exited (Z.land c 255))) []]> (procs s))
                (files s) (tty_in s))
  | AWait k =>
      if no_child (procs s) p then
        Some (EvWait p (Err ECHILD),
              Sys (<[p := Process (ppid pr) (Run (k (-1)%Z)) (fds pr)]> (procs s))
                  (files s) (tty_in s))
      else None
  | AFork _ => None
  | AUndefined => None
  end.

(** One step of the system running program [prog]. [None]: the decision
    is not possible in this state. *)
Definition step {PC} (prog : PC → action PC) (w : world) (d : decision)
    (s : sys PC) : option (event * sys PC) :=
  match d with
  | Step p =>
      pr ← procs s !! p;
      match code pr with
      | Run pc => do_call w s p pr (prog pc)
      | _ => None
      end
  | StepFork p r =>
      pr ← procs s !! p;
      match code pr with
      | Run pc =>
          match prog pc, r with
          | AFork k, None =>
              Some (EvFork p None,
                    Sys (<[p := Process (ppid pr) (Run (k (-1)%Z)) (fds pr)]> (procs s))
                        (files s) (tty_in s))
          | AFork k, Some c =>
              match procs s !! c with
              | None =>
                  if (0 <? c)%Z then
                    Some (EvFork p (Some c),
                          Sys (<[c := Process p (Run (k 0%Z)) (fds pr)]>
                                 (<[p := Process (ppid pr) (Run (k c)) (fds pr)]> (procs s)))
                              (files s) (tty_in s))
                  else None
              | Some _ => None
              end
          | _, _ => None
          end
      | _ => None
      end
  | StepWait p c =>
      pr ← procs s !! p;
      ch ← procs s !! c;
      match code pr, code ch with
      | Run pc, Zombie st =>
          match prog pc with
          | AWait k =>
              if bool_decide (ppid ch = p ∧ c ≠ p) then
                Some (EvWait p (Ok c),
                      Sys (<[p := Process (ppid pr) (Run (k c)) (fds pr)]>
                             (delete c (procs s)))
                          (files s) (tty_in s))
              else None
          | _ => None
          end
      | _, _ => None
      end
  | ImgWrite p fd data =>
      pr ← procs s !! p;
      match code pr with
      | Image file argv =>
          let '(r, fs', t') := sys_write (files s) (fds pr) fd data in
          Some (EvWrite p fd data r,
                Sys (<[p := Process (ppid pr) (Image file argv) t']> (procs s))
                    fs' (tty_in s))
      | _ => None
      end
  | ImgRead p n =>
      pr ← procs s !! p;
      match code pr, fds pr !! 0 with
      | Image _ _, Some (Some Tty) =>
          Some (EvInput p n, Sys (procs s) (files s) (drop n (tty_in s)))
      | _, _ => None
      end
  | ImgExit p st =>
      pr ← procs s !! p;
      match code pr with
      | Image _ _ =>
          Some (EvExit p st,
                Sys (<[p := Process (ppid pr) (Zombie st) []]> (procs s))
                    (files s) (tty_in s))
      | _ => None
      end
  end.

(** A schedule run from a state: the events in order, and the state
    reached. *)
Fixpoint run {PC} (prog : PC → action PC) (w : world) (ds : list decision)
    (s : sys PC) : option (list event * sys PC) :=
  match ds with
  | [] => Some ([], s)
  | d :: ds' =>
      '(e, s1) ← step prog w d s;
      '(tr, s2) ← run prog w ds' s1;
      Some (e :: tr, s2)
  end.

(** The state in which a program starts as process [p], child of
    [parent], with no children of its own. *)
Definition boot {PC} (start : PC) (p parent : Z) (t : fdtable)
    (fs : gmap cstr file) (input : list ascii) : sys PC :=
  Sys {[ p := Process parent (Run start) t ]} fs input.

(** The three standard channels on the terminal, and some free slots. *)
Definition std_fds : fdtable :=
  [Some Tty; Some Tty; Some Tty; None; None; None; None; None].

(** ** Notions used by the statements *)

(** The state [s] and the events [tr] that some schedule produces from
    [s0]. *)
Definition reachable {PC} (prog : PC → action PC) (w : world)
    (s0 : sys PC) (tr : list event) (s : sys PC) : Prop :=
  ∃ ds, run prog w ds s0 = Some (tr, s).

(** The process an event belongs to. *)
Definition actor (e : event) : Z :=
  match e with
  | EvWrite p _ _ _ => p
  | EvRead p _ => p
  | EvGetpid p => p
  | EvFork p _ => p
  | EvExec p _ _ _ => p
  | EvClose p _ _ => p
  | EvOpen p _ _ _ _ => p
  | EvExit p _ => p
  | EvWait p _ => p
  | EvInput p _ => p
  end.

(** The shell [sh] printing its prompt. *)
Definition is_prompt (sh : Z) (e : event) : Prop :=
  ∃ r, e = EvWrite sh STDOUT_FILENO prompt r.

(** The events [t1] before a prompt end with a complete iteration:
    the shell forked [c]; then only [c] acted, up to its termination;
    then the shell's wait returned [c]. *)
Definition iteration_done (sh : Z) (t1 : list event) : Prop :=
  ∃ t0 c mid st,
    t1 = t0 ++ EvFork sh (Some c) :: mid ++ [EvExit c st; EvWait sh (Ok c)]
    ∧ Forall (λ e, actor e = c) mid.

(** The schedule of a command whose [execvp] fails, after the fork:
    the child's three calls, then the shell's wait and prompt. *)
Definition failed_command (sh c : Z) : list decision :=
  [Step c; Step c; Step c; StepWait sh c; Step sh].

(** The schedule after a refused fork. *)
Definition after_fork_failure (sh : Z) : list decision := [Step sh; Step sh].

(** [isspace] in the C locale. *)
Definition is_space (c : ascii) : bool :=
  bool_decide (c ∈ [" "; "009"; "010"; "011"; "012"; "013"]%char).

Fixpoint skip_spaces (l : cstr) : cstr :=
  match l with
  | [] => []
  | c :: l' => if is_space c then skip_spaces l' else l
  end.

Fixpoint until_space (l : cstr) : cstr :=
  match l with
  | [] => []
  | c :: l' => if is_space c then [] else c :: until_space l'
  end.

(** The first whitespace-free token of a line, in the words of the
    specification; the C text has no such function. *)
Definition first_token (line : cstr) : cstr := until_space (skip_spaces line).

(** What the child of an iteration passes to [execvp], when the shell
    reads a line, forks [c], and [c] makes its first call. *)
Definition dispatched (w : world) (s : sys spc) (sh c : Z)
  : option (cstr * list cstr) :=
  match run shell w [Step sh; StepFork sh (Some c); Step c] s with
  | Some ([_; _; EvExec _ file argv _], _) => Some (file, argv)
  | _ => None
  end.

(** The bytes descriptor 0 has yet to deliver: the terminal's pending
    input, or the rest of the file the descriptor is positioned in. *)
Definition pending (fs : gmap cstr file) (input : list ascii) (t : fdtable)
  : list ascii :=
  match t !! 0 with
  | Some (Some Tty) => input
  | Some (Some (OFile path true _ off)) =>
      match fs !! path with
      | Some f => drop off (content f)
      | None => []
      end
  | _ => []
  end.

(** The bytes one [fgets(buf, MAXLINE, stdin)] takes from the input: up
    to and including the first newline, [MAXLINE - 1] at most. *)
Definition taken (input : list ascii) : list ascii :=
  (read_line (MAXLINE - 1) input).1.

(** The C string that [fgets] leaves in the array: the bytes taken, cut
    at the first NUL among them. *)
Definition stored (input : list ascii) : cstr := c_str (taken input ++ [NUL]).

(** One complete run of the redirection demo as process [p] with child
    [c], in which [wc] is loaded, writes [out] to descriptor 1 and
    exits. *)
Definition redirect_once (p c : Z) (out : cstr) : list decision :=
  [Step p; Step p; StepFork p (Some c);
   Step c; Step c; Step c; ImgWrite c STDOUT_FILENO out; ImgExit c (Exited 0);
   StepWait p c; Step p; Step p; Step p].

(** Every prompt in a trace is its first event or follows a complete
    iteration. *)
Definition prompts_ok (sh : Z) (tr : list event) : Prop :=
  ∀ t1 e t3, tr = t1 ++ e :: t3 → is_prompt sh e →
    t1 = [] ∨ iteration_done sh t1.

(** Where the shell process can be while it has no child (other than
    at its two prompts). *)
Definition idle_state (rs : run_state spc) : Prop :=
  match rs with
  | Run (SRead _) | Run (SFork _) | Run SForkErr | Run SForkExit
  | Run SExit0 | Run SUndefined | Zombie _ => True
  | _ => False
  end.

(** Where a live child can be. *)
Definition child_state (rs : run_state spc) : Prop :=
  match rs with
  | Run (SChildExec _) | Run SChildErr | Run SChildExit | Image _ _ => True
  | _ => False
  end.

(** The phases of the shell system: the process table and the shape of
    the trace so far. *)
Inductive shell_phase (sh par : Z) (tr : list event) (s : sys spc) : Prop :=
  | ph_start buf t :
      tr = [] →
      procs s = {[sh := Process par (Run (SPrompt0 buf)) t]} →
      shell_phase sh par tr s
  | ph_idle rs t :
      idle_state rs →
      procs s = {[sh := Process par rs t]} →
      prompts_ok sh tr →
      shell_phase sh par tr s
  | ph_live c chs buf t tc t0 mid :
      c ≠ sh → child_state chs →
      procs s = <[c := Process sh chs tc]>
                  {[sh := Process par (Run (SWait buf)) t]} →
      prompts_ok sh tr →
      tr = t0 ++ EvFork sh (Some c) :: mid →
      Forall (λ e, actor e = c) mid →
      shell_phase sh par tr s
  | ph_zombie c st buf t tc t0 mid :
      c ≠ sh →
      procs s = <[c := Process sh (Zombie st) tc]>
                  {[sh := Process par (Run (SWait buf)) t]} →
      prompts_ok sh tr →
      tr = t0 ++ EvFork sh (Some c) :: mid ++ [EvExit c st] →
      Forall (λ e, actor e = c) mid →
      shell_phase sh par tr s
  | ph_reaped buf t :
      procs s = {[sh := Process par (Run (SPrompt buf)) t]} →
      prompts_ok sh tr →
      iteration_done sh tr →
      shell_phase sh par tr s.

(** From [s], the scheduler has no choice but to follow [canon], one
    decision after the other. *)
Fixpoint forced {PC} (prog : PC → action PC) (w : world)
    (canon : list decision) (s : sys PC) : Prop :=
  match canon with
  | [] => True
  | d0 :: canon' =>
      ∀ d e s1, step prog w d s = Some (e, s1) →
        d = d0 ∧ forced prog w canon' s1
  end.

(** No decision is possible in [s]. *)
Definition halted {PC} (prog : PC → action PC) (w : world) (s : sys PC) : Prop :=
  ∀ d, step prog w d s = None.

(** The reading of the specification in which the program that is run
    is the first token of the line. *)
Definition dispatches_first_token (w : world) (s : sys spc) (sh c : Z)
    (line : cstr) : Prop :=
  dispatched w s sh c = Some (first_token line, [first_token line]).

(** ** A concrete system for examples *)

(** [ls] and [wc] can be loaded; the mask is 022. *)
Definition demo_world : world :=
  World (λ f, bool_decide (f = cs "ls" ∨ f = cs "wc")) 0x12 0.

(** The array before anything was stored in it. *)
Definition demo_buf : buffer := replicate MAXLINE "x"%char.

(** The shell started as process 10 on a terminal. *)
Definition demo_shell (input : list ascii) : sys spc :=
  boot (SPrompt0 demo_buf) 10 1 std_fds ∅ input.

(** The redirection demo started as process 10 on a terminal. *)
Definition demo_redirect (fs : gmap cstr file) : sys rpc :=
  boot RHelloPid 10 1 std_fds fs [].

(** ** The other demos: fork, fork and wait, fork, exec and wait *)

Definition child_line (pid : Z) : cstr :=
  cs "child (pid:" ++ dec pid ++ cs ")" ++ [NL].

(** ["parent of %ld (pid: %ld)\n"] *)
Definition parent_of_line (rc pid : Z) : cstr :=
  cs "parent of " ++ dec rc ++ cs " (pid: " ++ dec pid ++ cs ")" ++ [NL].

(** Control points of [main] in [fork.c]. *)
Inductive fpc : Type :=
  | FHelloPid                 (* getpid(), argument of the printf *)
  | FHello (pid : Z)          (* printf("hello (pid:%ld)\n", ...) *)
  | FFork                     (* rc = fork() *)
  | FForkErr                  (* fprintf(stderr, "fork failed\n") *)
  | FForkExit                 (* exit(1) *)
  | FChildPid                 (* getpid(), argument of the printf *)
  | FChild (pid : Z)          (* printf("child (pid:%ld)\n", ...) *)
  | FParentPid (rc : Z)       (* getpid(), argument of the printf *)
  | FParent (rc pid : Z)      (* printf("parent of %ld (pid: %ld)\n", ...) *)
  | FExit0.                   (* exit(0), reached by both processes *)

Definition fork_after_fork (rc : Z) : fpc :=
  if (rc <? 0)%Z then FForkErr
  else if (rc =? 0)%Z then FChildPid
  else FParentPid rc.

Definition fork_main (p : fpc) : action fpc :=
  match p with
  | FHelloPid => AGetpid FHello
  | FHello pid => APrintf (hello_line pid) FFork
  | FFork => AFork fork_after_fork
  | FForkErr => AEprintf (cs "fork failed" ++ [NL]) FForkExit
  | FForkExit => AExit 1
  | FChildPid => AGetpid FChild
  | FChild pid => APrintf (child_line pid) FExit0
  | FParentPid rc => AGetpid (FParent rc)
  | FParent rc pid => APrintf (parent_of_line rc pid) FExit0
  | FExit0 => AExit 0
  end.

(** Control points of [main] in [fork_wait.c]. *)
Inductive wpc : Type :=
  | WHelloPid
  | WHello (pid : Z)
  | WFork
  | WForkErr
  | WForkExit
  | WChildPid                       (* getpid(), argument of the printf *)
  | WChild (pid : Z)                (* printf("child (pid:%ld)\n", ...) *)
  | WChildExit                      (* exit(0) in the child *)
  | WWait (rc : Z)                  (* rc_wait = wait(&status) *)
  | WReportPid (rc rc_wait : Z)
  | WReport (rc rc_wait pid : Z)    (* printf("parent of ...") *)
  | WExit0.                         (* exit(0) *)

Definition fork_wait_after_fork (rc : Z) : wpc :=
  if (rc <? 0)%Z then WForkErr
  else if (rc =? 0)%Z then WChildPid
  else WWait rc.

Definition fork_wait_main (p : wpc) : action wpc :=
  match p with
  | WHelloPid => AGetpid WHello
  | WHello pid => APrintf (hello_line pid) WFork
  | WFork => AFork fork_wait_after_fork
  | WForkErr => AEprintf (cs "fork failed" ++ [NL]) WForkExit
  | WForkExit => AExit 1
  | WChildPid => AGetpid WChild
  | WChild pid => APrintf (child_line pid) WChildExit
  | WChildExit => AExit 0
  | WWait rc => AWait (λ rc_wait, WReportPid rc rc_wait)
  | WReportPid rc rc_wait => AGetpid (WReport rc rc_wait)
  | WReport rc rc_wait pid => APrintf (parent_line rc rc_wait pid) WExit0
  | WExit0 => AExit 0
  end.

(** The argument vector of the demo that forks, execs [wc] and waits. *)
Definition exec_wait_argv : list cstr := [cs "wc"; cs "fork_wait_exec.c"].

(** Control points of [main] in the demo that forks, execs [wc] without
    redirection, and waits. *)
Inductive epc : Type :=
  | EHelloPid
  | EHello (pid : Z)
  | EFork
  | EForkErr
  | EForkExit
  | EChildPid                       (* getpid(), argument of the printf *)
  | EChild (pid : Z)                (* printf("child (pid:%ld)\n", ...) *)
  | EChildExec                      (* execvp("wc", argv) *)
  | EChildErr                       (* fprintf(stderr, "exec failed\n") *)
  | EChildExit                      (* exit(1) *)
  | EWait (rc : Z)                  (* rc_wait = wait(&status) *)
  | EReportPid (rc rc_wait : Z)
  | EReport (rc rc_wait pid : Z)    (* printf("parent of ...") *)
  | EExit0.                         (* exit(0) *)

Definition exec_wait_after_fork (rc : Z) : epc :=
  if (rc <? 0)%Z then EForkErr
  else if (rc =? 0)%Z then EChildPid
  else EWait rc.

Definition exec_wait_main (p : epc) : action epc :=
  match p with
  | EHelloPid => AGetpid EHello
  | EHello pid => APrintf (hello_line pid) EFork
  | EFork => AFork exec_wait_after_fork
  | EForkErr => AEprintf (cs "fork failed" ++ [NL]) EForkExit
  | EForkExit => AExit 1
  | EChildPid => AGetpid EChild
  | EChild pid => APrintf (child_line pid) EChildExec
  | EChildExec => AExecvp (cs "wc") exec_wait_argv EChildErr
  | EChildErr => AEprintf (cs "exec failed" ++ [NL]) EChildExit
  | EChildExit => AExit 1
  | EWait rc => AWait (λ rc_wait, EReportPid rc rc_wait)
  | EReportPid rc rc_wait => AGetpid (EReport rc rc_wait)
  | EReport rc rc_wait pid => APrintf (parent_line rc rc_wait pid) EExit0
  | EExit0 => AExit 0
  end.

(** ** Notions used by the statements about the other demos *)

(** A property of control points that no call leads out of.  The
    result of a call is whatever the kernel returns; the continuation
    of [execvp] is entered only when the call fails. *)
Definition stable {PC} (prog : PC → action PC) (w : world)
    (good : PC → Prop) : Prop :=
  ∀ pc, good pc →
    match prog pc with
    | APrintf _ k | AEprintf _ k => good k
    | AFgets buf size k =>
        ∀ fs inp t, good (k (sys_fgets fs inp t buf size).1.1)
    | AGetpid k | AFork k | AWait k | AClose _ k | AOpen _ _ _ k =>
        ∀ z, good (k z)
    | AExecvp file _ k => exec_ok w file = false → good k
    | AExit _ | AUndefined => True
    end.

(** Every process that runs the program text is at a control point
    with the property. *)
Definition all_at {PC} (good : PC → Prop) (s : sys PC) : Prop :=
  map_Forall (λ _ pr, ∀ pc, code pr = Run pc → good pc) (procs s).

(** The states a child passes through while its parent waits: the
    child neither forks nor waits, and ends as a zombie. *)
Definition child_closed {PC} (prog : PC → action PC)
    (live : run_state PC → Prop) : Prop :=
  (∀ st, ¬ live (Zombie st)) ∧
  ∀ cpc, live (Run cpc) →
    match prog cpc with
    | APrintf _ k | AEprintf _ k => live (Run k)
    | AFgets _ _ k => ∀ r, live (Run (k r))
    | AGetpid k | AClose _ k | AOpen _ _ _ k => ∀ z, live (Run (k z))
    | AExecvp f a k => live (Run k) ∧ live (Image f a)
    | AExit _ => True
    | AFork _ | AWait _ => False
    | AUndefined => True
    end.

(** The events of a demo that stops after a refused fork. *)
Definition fork_refused (p : Z) (r0 r1 : sysret) : list event :=
  [EvGetpid p; EvWrite p STDOUT_FILENO (hello_line p) r0; EvFork p None;
   EvWrite p STDERR_FILENO (cs "fork failed" ++ [NL]) r1;
   EvExit p (Exited 1)].

(** The parent's events up to a fork that returns the child [c]. *)
Definition fork_granted (p c : Z) (r0 : sysret) : list event :=
  [EvGetpid p; EvWrite p STDOUT_FILENO (hello_line p) r0; EvFork p (Some c)].

(** The parent's report after its wait, in the demos that wait. *)
Definition report (p c : Z) (r : sysret) : list event :=
  [EvGetpid p; EvWrite p STDOUT_FILENO (parent_line c c p) r;
   EvExit p (Exited 0)].

(** The traces of a demo whose parent waits for its child: the fork is
    refused; or the child [c] is alive and nobody else acts; or the
    child has terminated, the wait has returned [c] at once, and the
    parent reports. *)
Definition waits_for_child (p : Z) (tr : list event) : Prop :=
  (∃ r0 r1, tr `prefix_of` fork_refused p r0 r1)
  ∨ (∃ r0 c mid,
       tr = fork_granted p c r0 ++ mid
       ∧ c ≠ p ∧ Forall (λ e, actor e = c) mid)
  ∨ (∃ r0 c mid st rest r2,
       tr = fork_granted p c r0 ++ mid
            ++ [EvExit c st; EvWait p (Ok c)] ++ rest
       ∧ c ≠ p ∧ Forall (λ e, actor e = c) mid
       ∧ rest `prefix_of` report p c r2).

(** The whole course of [fork_wait.c] when the fork returns [c]. *)
Definition fork_wait_course (p c : Z) (r0 r1 r2 : sysret) : list event :=
  fork_granted p c r0
  ++ [EvGetpid c; EvWrite c STDOUT_FILENO (child_line c) r1;
      EvExit c (Exited 0); EvWait p (Ok c)]
  ++ report p c r2.

(** The course of the fork, exec and wait demo when [wc] cannot be
    loaded. *)
Definition exec_wait_failure_course (p c : Z) (r0 r1 r2 r3 : sysret)
  : list event :=
  fork_granted p c r0
  ++ [EvGetpid c; EvWrite c STDOUT_FILENO (child_line c) r1;
      EvExec c (cs "wc") exec_wait_argv false;
      EvWrite c STDERR_FILENO (cs "exec failed" ++ [NL]) r2;
      EvExit c (Exited 1); EvWait p (Ok c)]
  ++ report p c r3.

(** The course of the redirection demo when [wc] cannot be loaded. *)
Definition redirect_failure_course (p c : Z) (r0 r1 r2 r3 r4 : sysret)
  : list event :=
  fork_granted p c r0
  ++ [EvClose c STDOUT_FILENO r1;
      EvOpen c redirect_path redirect_flags None r2;
      EvExec c (cs "wc") wc_argv false;
      EvWrite c STDERR_FILENO (cs "exec failed" ++ [NL]) r3;
      EvExit c (Exited 1); EvWait p (Ok c)]
  ++ report p c r4.

(** Where the child of the redirection demo can be. *)
Definition redirect_live (rs : run_state rpc) : Prop :=
  match rs with
  | Run RChildClose | Run RChildOpen | Run RChildExec | Run RChildErr
  | Run RChildExit | Image _ _ => True
  | _ => False
  end.

(** Where the child of the fork, exec and wait demo can be. *)
Definition exec_wait_live (rs : run_state epc) : Prop :=
  match rs with
  | Run EChildPid | Run (EChild _) | Run EChildExec | Run EChildErr
  | Run EChildExit | Image _ _ => True
  | _ => False
  end.

(** The parent's events in [fork.c] after a fork that returned [c]. *)
Definition fork_parent_course (p c : Z) (r : sysret) : list event :=
  [EvGetpid p; EvWrite p STDOUT_FILENO (parent_of_line c p) r;
   EvExit p (Exited 0)].

(** The child's events in [fork.c]. *)
Definition fork_child_course (c : Z) (r : sysret) : list event :=
  [EvGetpid c; EvWrite c STDOUT_FILENO (child_line c) r; EvExit c (Exited 0)].

(** What the parent of [fork.c] has left to do at a control point
    after the fork of [c]; [r] is the result of its [printf]. *)
Definition fork_parent_rest (p c : Z) (rs : run_state fpc) (r : sysret)
  : option (list event) :=
  match rs with
  | Run (FParentPid rc) =>
      if decide (rc = c) then Some (fork_parent_course p c r) else None
  | Run (FParent rc pid) =>
      if decide (rc = c ∧ pid = p) then
        Some [EvWrite p STDOUT_FILENO (parent_of_line c p) r; EvExit p (Exited 0)]
      else None
  | Run FExit0 => Some [EvExit p (Exited 0)]
  | Zombie _ => Some []
  | _ => None
  end.

(** What the child of [fork.c] has left to do. *)
Definition fork_child_rest (c : Z) (rs : run_state fpc) (r : sysret)
  : option (list event) :=
  match rs with
  | Run FChildPid => Some (fork_child_course c r)
  | Run (FChild pid) =>
      if decide (pid = c) then
        Some [EvWrite c STDOUT_FILENO (child_line c) r; EvExit c (Exited 0)]
      else None
  | Run FExit0 => Some [EvExit c (Exited 0)]
  | Zombie _ => Some []
  | _ => None
  end.

(** The array a control point of the shell carries. *)
Definition pc_buf (pc : spc) : option buffer :=
  match pc with
  | SPrompt0 buf | SRead buf | SFork buf | SChildExec buf | SWait buf
  | SPrompt buf => Some buf
  | _ => None
  end.

(** The array has the size of its declaration. *)
Definition buf_sized (pc : spc) : Prop :=
  ∀ buf, pc_buf pc = Some buf → length buf = MAXLINE.

(** What must come right before the shell's exit with status [st]:
    the end of the input for 0, a refused fork and its message
    for 1. *)
Definition exit_cause (sh : Z) (before : list event) (st : status) : Prop :=
  (st = Exited 0 ∧ ∃ t0, before = t0 ++ [EvRead sh None])
  ∨ (st = Exited 1
     ∧ ∃ t0 r, before = t0 ++ [EvFork sh None;
                               EvWrite sh STDERR_FILENO (cs "Fork error" ++ [NL]) r]).

(** Every exit of the shell in a trace has its cause. *)
Definition exits_ok (sh : Z) (tr : list event) : Prop :=
  ∀ t1 st t2, tr = t1 ++ EvExit sh st :: t2 → exit_cause sh t1 st.

(** What the trace ends with when the shell is on one of its two ways
    out of the loop. *)
Definition leaving (sh : Z) (tr : list event) (rs : run_state spc) : Prop :=
  match rs with
  | Run SExit0 => ∃ t0, tr = t0 ++ [EvRead sh None]
  | Run SForkErr => ∃ t0, tr = t0 ++ [EvFork sh None]
  | Run SForkExit =>
      ∃ t0 r, tr = t0 ++ [EvFork sh None;
                          EvWrite sh STDERR_FILENO (cs "Fork error" ++ [NL]) r]
  | _ => True
  end.

(** Process [p], as long as it has not exited, runs the program text
    with its descriptor 1 on the terminal. *)
Definition runs_on_terminal {PC} (s : sys PC) (p : Z) : Prop :=
  ∀ pr, procs s !! p = Some pr →
    match code pr with
    | Run _ => fds pr !! STDOUT_FILENO = Some (Some Tty)
    | Image _ _ => False
    | Zombie _ => True
    end.

(** A world in which [execvp] loads nothing. *)
Definition bare_world : world := World (λ _, false) 0x12 0.

(** * Proofs *)

(** ** Strings and the line buffer *)

Lemma strlen_le m : strlen m ≤ length m.
Proof. induction m as [|c m IH]; simpl; [lia|]. case_decide; lia. Qed.

Lemma strlen_app_NUL l m : strlen (l ++ NUL :: m) ≤ length l.
Proof.
  induction l as [|c l IH]; simpl; [lia|].
  case_decide; lia.
Qed.

Lemma lookup_before_strlen m i : i < strlen m → ∃ c, m !! i = Some c ∧ c ≠ NUL.
Proof.
  revert i. induction m as [|c m IH]; simpl; intros i Hi; [lia|].
  case_decide as Hc; [lia|].
  destruct i as [|i]; simpl; [eauto | apply IH; lia].
Qed.

Lemma strlen_insert_NUL m i : i < strlen m → strlen (<[i := NUL]> m) = i.
Proof.
  revert i. induction m as [|c m IH]; simpl; intros i Hi; [lia|].
  case_decide as Hc; [lia|].
  destruct i as [|i]; simpl; [done|].
  rewrite decide_False by done. rewrite IH; lia.
Qed.

Lemma c_str_insert_NUL m i : i < strlen m → c_str (<[i := NUL]> m) = take i m.
Proof.
  intros Hi. unfold c_str. rewrite strlen_insert_NUL by done.
  by rewrite take_insert_ge.
Qed.

Lemma last_c_str m : strlen m ≠ 0 → last (c_str m) = m !! pred (strlen m).
Proof.
  intros Hn. unfold c_str.
  rewrite last_lookup, length_take_le by apply strlen_le.
  apply lookup_take_lt. lia.
Qed.

Lemma strlen_no_NUL l m : NUL ∉ l → strlen (l ++ NUL :: m) = length l.
Proof.
  induction l as [|c l IH]; intros Hl; simpl.
  - done.
  - apply not_elem_of_cons in Hl as [Hc Hl].
    rewrite decide_False by done. by rewrite IH.
Qed.

(** What follows the terminator does not count. *)
Lemma strlen_terminated l m : strlen (l ++ NUL :: m) = strlen (l ++ [NUL]).
Proof.
  induction l as [|x l IH]; simpl; [done|].
  case_decide; [done | by rewrite IH].
Qed.

Lemma c_str_terminated l m : c_str (l ++ NUL :: m) = c_str (l ++ [NUL]).
Proof.
  unfold c_str. rewrite strlen_terminated.
  pose proof (strlen_app_NUL l []) as Hle.
  rewrite !take_app_le by done. done.
Qed.

Lemma size_wrap_small z : (0 ≤ z < 2 ^ size_bits)%Z → size_wrap z = z.
Proof. intros. unfold size_wrap. by apply Z.mod_small. Qed.

Lemma strip_index_pos m :
  strlen m ≠ 0 → length m ≤ MAXLINE →
  strip_index m = Z.of_nat (pred (strlen m)).
Proof.
  intros Hn Hlen. unfold strip_index. pose proof (strlen_le m).
  rewrite size_wrap_small; [lia|].
  assert (Z.of_nat MAXLINE < 2 ^ size_bits)%Z by (vm_compute; done).
  lia.
Qed.

Lemma strip_index_zero m : strlen m = 0 → strip_index m = (2 ^ size_bits - 1)%Z.
Proof. intros Hn. unfold strip_index. rewrite Hn. vm_compute. done. Qed.

(** The strip on an array that holds a non-empty string and its
    terminator: defined, and it removes the last byte when that is a
    newline. *)
Lemma strip_newline_defined m :
  strlen m ≠ 0 → strlen m < length m → length m ≤ MAXLINE →
  ∃ b, strip_newline m = Some b ∧ c_str b = chomp (c_str m)
       ∧ length b = length m.
Proof.
  intros Hn Hlt Hlen. unfold strip_newline, load, store, in_bounds.
  rewrite strip_index_pos by done.
  rewrite Nat2Z.id.
  replace ((0 <=? Z.of_nat (pred (strlen m)))%Z
           && (Z.of_nat (pred (strlen m)) <? Z.of_nat (length m))%Z)
    with true
    by (symmetry; apply andb_true_iff; split;
        [apply Z.leb_le | apply Z.ltb_lt]; lia).
  destruct (lookup_before_strlen m (pred (strlen m))) as (c & Hc & _); [lia|].
  rewrite Hc. unfold chomp. rewrite last_c_str, Hc by done.
  case_decide as Hnl.
  - eexists; split; [done|]. split; [|by rewrite length_insert].
    rewrite c_str_insert_NUL by lia. unfold c_str.
    replace (strlen m) with (S (pred (strlen m))) at 2 by lia.
    rewrite removelast_firstn; [done | lia].
  - eauto.
Qed.

Lemma read_line_spec n input l rest :
  read_line n input = (l, rest) → input = l ++ rest ∧ length l ≤ n.
Proof.
  revert input l rest. induction n as [|n IH]; intros input l rest; simpl.
  - destruct input; intros [= <- <-]; simpl; split; (done || lia).
  - destruct input as [|c input];
      [intros [= <- <-]; simpl; split; (done || lia)|].
    case_decide as Hc.
    + intros [= <- <-]. simpl. split; [done | lia].
    + destruct (read_line n input) as [l' r'] eqn:Hr. intros [= <- <-].
      destruct (IH _ _ _ Hr) as [-> ?]. simpl. split; [done | lia].
Qed.

Lemma fgets_Some buf size input b rest :
  fgets buf size input = Some (b, rest) →
  ∃ c l, input = c :: l ++ rest ∧ S (length l) ≤ size - 1
         ∧ b = c :: l ++ NUL :: drop (S (S (length l))) buf.
Proof.
  unfold fgets. destruct (read_line (size - 1) input) as [l r] eqn:Hr.
  destruct (read_line_spec _ _ _ _ Hr) as [-> Hlen].
  destruct l as [|c l]; [done|]. intros [= <- <-].
  exists c, l. split; [done|]. split; [simpl in Hlen; lia|].
  unfold write_at. simpl. rewrite <- app_assoc. simpl.
  do 3 f_equal. rewrite length_app. simpl. f_equal. lia.
Qed.

(** [fgets] keeps the array's size and leaves a terminated string. *)
Lemma fgets_length buf input b rest :
  length buf = MAXLINE → fgets buf MAXLINE input = Some (b, rest) →
  length b = MAXLINE ∧ strlen b < length b.
Proof.
  intros Hlen Hf. destruct (fgets_Some _ _ _ _ _ Hf) as (c & l & -> & Hl & ->).
  assert (Hb : length (c :: l ++ NUL :: drop (S (S (length l))) buf) = MAXLINE).
  { simpl. rewrite length_app. simpl. rewrite length_drop.
    unfold MAXLINE in *. simpl in Hl. lia. }
  split; [done|]. rewrite Hb.
  change (c :: l ++ NUL :: drop (S (S (length l))) buf)
    with ((c :: l) ++ NUL :: drop (S (S (length l))) buf).
  pose proof (strlen_app_NUL (c :: l) (drop (S (S (length l))) buf)).
  simpl in *. unfold MAXLINE in *. lia.
Qed.

Lemma fgets_head buf size input b rest :
  fgets buf size input = Some (b, rest) → head b = head input.
Proof.
  intros Hf. destruct (fgets_Some _ _ _ _ _ Hf) as (c & l & -> & _ & ->). done.
Qed.

(** C10. The strip reads [buf[strlen(buf) - 1]] without testing for an
    empty string.  After any successful [fgets] into the array: when
    the string read is not empty the subscript is inside the array and
    the strip removes one trailing newline at most; when the first byte
    read is NUL the string is empty, the subscript is [2^64 - 1] (that
    is, -1 as an offset), outside the array, and the shell's behaviour
    is undefined from there. *)
Theorem strip_newline_bounds
    (buf : buffer) (input : list ascii) (b : buffer) (rest : list ascii)
    (Hlen : length buf = MAXLINE)
    (Hread : fgets buf MAXLINE input = Some (b, rest)) :
  (strlen b ≠ 0 →
     in_bounds b (strip_index b) = true
     ∧ ∃ b', strip_newline b = Some b'
             ∧ after_fgets (Some b) = SFork b'
             ∧ c_str b' = chomp (c_str b))
  ∧ (head input = Some NUL →
     strlen b = 0
     ∧ strip_index b = (2 ^ 64 - 1)%Z
     ∧ size_signed (strip_index b) = (-1)%Z
     ∧ in_bounds b (strip_index b) = false
     ∧ strip_newline b = None
     ∧ after_fgets (Some b) = SUndefined).
Proof.
  destruct (fgets_length _ _ _ _ Hlen Hread) as [Hb Hlt]. split.
  - intros Hn. split.
    + unfold in_bounds. rewrite strip_index_pos by (done || lia).
      apply andb_true_iff; split; [apply Z.leb_le | apply Z.ltb_lt]; lia.
    + destruct (strip_newline_defined b) as (b' & Hs & ? & _);
        [done | done | lia |].
      exists b'. simpl. by rewrite Hs.
  - intros Hnul. pose proof (fgets_head _ _ _ _ _ Hread) as Hh.
    rewrite Hnul in Hh.
    assert (H0 : strlen b = 0).
    { destruct b as [|c b]; [done|]. simpl in Hh. by injection Hh as ->. }
    assert (Hi : strip_index b = (2 ^ 64 - 1)%Z) by (by rewrite strip_index_zero).
    assert (Ho : in_bounds b (strip_index b) = false).
    { unfold in_bounds. rewrite Hi, Hb. vm_compute. done. }
    assert (Hs : strip_newline b = None).
    { unfold strip_newline, load. by rewrite Ho. }
    repeat split; try done.
    + rewrite Hi. vm_compute. done.
    + simpl. by rewrite Hs.
Qed.

(** The theorem at a line that begins with a NUL byte, and at an
    ordinary line. *)
Lemma strip_newline_bounds_witness :
  (∃ b rest,
     fgets demo_buf MAXLINE (NUL :: cs "ls" ++ [NL]) = Some (b, rest)
     ∧ size_signed (strip_index b) = (-1)%Z
     ∧ after_fgets (Some b) = SUndefined)
  ∧ (∃ b rest b',
       fgets demo_buf MAXLINE (cs "ls" ++ [NL]) = Some (b, rest)
       ∧ after_fgets (Some b) = SFork b'
       ∧ c_str b' = cs "ls").
Proof.
  split.
  - eexists _, _. split; [vm_compute; reflexivity|].
    edestruct (strip_newline_bounds demo_buf (NUL :: cs "ls" ++ [NL]))
      as [_ H]; [reflexivity | vm_compute; reflexivity |].
    destruct (H eq_refl) as (_ & _ & H2 & _ & _ & H5). split; assumption.
  - eexists _, _. 
    edestruct (strip_newline_bounds demo_buf (cs "ls" ++ [NL]))
      as [H _]; [reflexivity | vm_compute; reflexivity |].
    destruct H as (_ & b' & _ & H2 & H3); [vm_compute; lia|].
    exists b'. split; [vm_compute; reflexivity|]. split; [exact H2|].
    rewrite H3. vm_compute. reflexivity.
Defined.

(** ** Runs *)

Section Runs.
Context {PC : Type} (prog : PC → action PC) (w : world).

Lemma run_app ds1 ds2 s :
  run prog w (ds1 ++ ds2) s =
    '(tr1, s1) ← run prog w ds1 s;
    '(tr2, s2) ← run prog w ds2 s1;
    Some (tr1 ++ tr2, s2).
Proof.
  revert s. induction ds1 as [|d ds1 IH]; intros s; simpl.
  - by destruct (run prog w ds2 s) as [[??]|].
  - destruct (step prog w d s) as [[e s1]|]; simpl; [|done].
    rewrite IH. destruct (run prog w ds1 s1) as [[tr1 s2]|]; simpl; [|done].
    by destruct (run prog w ds2 s2) as [[??]|].
Qed.

Lemma run_app_Some ds1 ds2 s tr1 s1 tr2 s2 tr :
  run prog w ds1 s = Some (tr1, s1) → run prog w ds2 s1 = Some (tr2, s2) →
  tr = tr1 ++ tr2 →
  run prog w (ds1 ++ ds2) s = Some (tr, s2).
Proof. intros H1 H2 ->. rewrite run_app, H1. simpl. rewrite H2. done. Qed.

Lemma run_cons d ds s e s1 tr s' :
  step prog w d s = Some (e, s1) → run prog w ds s1 = Some (tr, s') →
  run prog w (d :: ds) s = Some (e :: tr, s').
Proof. intros Hs Hr. simpl. rewrite Hs. simpl. rewrite Hr. done. Qed.

Lemma run_cons_inv d ds s tr s' :
  run prog w (d :: ds) s = Some (tr, s') →
  ∃ e s1 tr1, step prog w d s = Some (e, s1)
              ∧ run prog w ds s1 = Some (tr1, s') ∧ tr = e :: tr1.
Proof.
  simpl. destruct (step prog w d s) as [[e s1]|]; simpl; [|done].
  destruct (run prog w ds s1) as [[tr1 s2]|] eqn:Hr; simpl; [|done].
  intros [= <- <-]. by exists e, s1, tr1.
Qed.

Lemma run_snoc ds d s tr s' :
  run prog w (ds ++ [d]) s = Some (tr, s') →
  ∃ tr0 s0 e, run prog w ds s = Some (tr0, s0)
              ∧ step prog w d s0 = Some (e, s') ∧ tr = tr0 ++ [e].
Proof.
  rewrite run_app. destruct (run prog w ds s) as [[tr0 s0]|]; simpl; [|done].
  destruct (step prog w d s0) as [[e s1]|] eqn:Hs; simpl; [|done].
  intros [= <- <-]. by exists tr0, s0, e.
Qed.

(** What single steps preserve holds of everything reachable. *)
Lemma reachable_ind (I : list event → sys PC → Prop) s0 :
  I [] s0 →
  (∀ tr s d e s',
      I tr s → step prog w d s = Some (e, s') → I (tr ++ [e]) s') →
  ∀ tr s, reachable prog w s0 tr s → I tr s.
Proof.
  intros H0 Hstep tr s [ds Hrun]. revert tr s Hrun.
  induction ds as [|d ds IH] using rev_ind; intros tr s Hrun.
  - simpl in Hrun. by injection Hrun as <- <-.
  - apply run_snoc in Hrun as (tr0 & s1 & e & Hrun & Hs & ->). eauto.
Qed.

(** A forced schedule and any schedule that runs agree as far as both
    go. *)
Lemma forced_prefix canon ds s tr s' :
  forced prog w canon s → run prog w ds s = Some (tr, s') →
  ds `prefix_of` canon ∨ canon `prefix_of` ds.
Proof.
  revert ds s tr s'.
  induction canon as [|d0 canon IH]; intros ds s tr s' Hf Hrun.
  - right. apply prefix_nil.
  - destruct ds as [|d ds]; [left; apply prefix_nil|].
    apply run_cons_inv in Hrun as (e & s1 & tr1 & Hs & Hr & _).
    destruct (Hf _ _ _ Hs) as [-> Hf1].
    destruct (IH ds s1 tr1 s' Hf1 Hr) as [Hp | Hp]; [left | right];
      by apply prefix_cons.
Qed.
End Runs.

(** ** Prompts and iterations *)

Lemma snoc_split {A} (tr : list A) e t1 e' t3 :
  tr ++ [e] = t1 ++ e' :: t3 →
  (t3 = [] ∧ t1 = tr ∧ e' = e)
  ∨ (∃ t3', t3 = t3' ++ [e] ∧ tr = t1 ++ e' :: t3').
Proof.
  destruct t3 as [|x t3 _] using rev_ind.
  - intros H. apply app_inj_tail in H as [-> ->]. by left.
  - intros H. right. exists t3.
    change (tr ++ [e] = t1 ++ (e' :: t3) ++ [x]) in H. rewrite app_assoc in H.
    apply app_inj_tail in H as [-> ->]. done.
Qed.

Lemma prompts_ok_nil sh : prompts_ok sh [].
Proof. intros t1 e t3 H. by destruct t1. Qed.

Lemma prompts_ok_other sh tr e :
  prompts_ok sh tr → ¬ is_prompt sh e → prompts_ok sh (tr ++ [e]).
Proof.
  intros Hok Hne t1 e' t3 Heq Hp.
  apply snoc_split in Heq as [(_ & _ & ->) | (t3' & _ & ->)]; [done | eauto].
Qed.

Lemma prompts_ok_prompt sh tr e :
  prompts_ok sh tr → tr = [] ∨ iteration_done sh tr →
  prompts_ok sh (tr ++ [e]).
Proof.
  intros Hok Hit t1 e' t3 Heq Hp.
  apply snoc_split in Heq as [(_ & -> & _) | (t3' & _ & ->)]; [done | eauto].
Qed.

Lemma no_child_false {PC} (ps : gmap Z (process PC)) c q p :
  ps !! c = Some q → ppid q = p → no_child ps p = false.
Proof.
  intros Hc Hq. unfold no_child. apply bool_decide_eq_false.
  intros Hall. by apply (Hall c q Hc).
Qed.

Lemma after_fork_parent buf c : (0 < c)%Z → after_fork buf c = SWait buf.
Proof.
  intros Hc. unfold after_fork.
  destruct (Z.ltb_spec c 0); [lia|]. destruct (Z.eqb_spec c 0); [lia | done].
Qed.

(** An event that is not the shell's prompt. *)
Ltac not_prompt :=
  let H := fresh in
  intros [? H]; unfold STDOUT_FILENO, STDERR_FILENO in *; congruence.

(** Unfolds a step whose state has an explicit process table, and
    splits on which process the decision names. *)
Ltac unfold_step H :=
  unfold step in H; simpl in H;
  rewrite ?lookup_insert, ?lookup_singleton in H;
  repeat case_decide; subst; simpl in H; try done.

(** The wait of a process that has a child does not fail. *)
Ltac wait_blocked H :=
  try (erewrite no_child_false in H; [done | apply lookup_insert_eq | done]).

(** ** The phases of the shell system *)

(** Every step of the shell system leads from a phase to a phase. *)
Lemma shell_phase_step w sh par tr s d e s' :
  shell_phase sh par tr s → step shell w d s = Some (e, s') →
  shell_phase sh par (tr ++ [e]) s'.
Proof.
  intros Hph Hs. destruct s as [ps fs inp].
  destruct Hph as [buf t -> Hps | rs t Hrs Hps Hok
                  | c chs buf t tc t0 mid Hc Hchs Hps Hok -> Hmid
                  | c st buf t tc t0 mid Hc Hps Hok -> Hmid
                  | buf t Hps Hok Hit]; simpl in Hps; subst ps.
  - (* before the first prompt *)
    destruct d; unfold_step Hs.
    destruct (sys_write _ _ _ _) as [[r fs'] t']. injection Hs as <- <-.
    eapply ph_idle with (rs := Run (SRead buf)); [done| |].
    + simpl. apply insert_singleton_eq.
    + apply prompts_ok_prompt; [apply prompts_ok_nil | by left].
  - (* no child *)
    destruct d; unfold_step Hs.
    all: destruct rs as [[]| |]; simpl in Hs, Hrs; try done.
    + (* fgets *)
      destruct (sys_fgets _ _ _ _ _) as [[r inp'] t']. injection Hs as <- <-.
      eapply ph_idle with (rs := Run (after_fgets r));
        [| simpl; apply insert_singleton_eq
         | apply prompts_ok_other; [done | not_prompt]].
      destruct r as [b|]; simpl; [|done]. by destruct (strip_newline b).
    + (* fprintf(stderr, "Fork error\n") *)
      destruct (sys_write _ _ _ _) as [[r fs'] t']. injection Hs as <- <-.
      eapply ph_idle with (rs := Run SForkExit);
        [done | simpl; apply insert_singleton_eq
         | apply prompts_ok_other; [done | not_prompt]].
    + (* exit(1) *)
      injection Hs as <- <-.
      eapply ph_idle with (rs := Zombie _);
        [done | simpl; apply insert_singleton_eq
         | apply prompts_ok_other; [done | not_prompt]].
    + (* exit(0) *)
      injection Hs as <- <-.
      eapply ph_idle with (rs := Zombie _);
        [done | simpl; apply insert_singleton_eq
         | apply prompts_ok_other; [done | not_prompt]].
    + (* fork *)
      destruct child as [c|].
      * rewrite lookup_singleton in Hs.
        destruct (decide (p = c)) as [->|Hc]; simpl in Hs; [done|].
        destruct (Z.ltb_spec 0 c) as [Hpos|]; [|done]. injection Hs as <- <-.
        rewrite (after_fork_parent buf c) by done.
        eapply ph_live with (c := c) (chs := Run (SChildExec buf)) (mid := []);
          [congruence | done |
           | apply prompts_ok_other; [done | not_prompt] | done | done].
        simpl. by rewrite insert_singleton_eq.
      * injection Hs as <- <-.
        eapply ph_idle with (rs := Run SForkErr);
          [done | simpl; apply insert_singleton_eq
           | apply prompts_ok_other; [done | not_prompt]].
  - (* a live child *)
    destruct d; unfold_step Hs.
    all: destruct chs as [[]| |]; simpl in Hs, Hchs; try done.
    all: wait_blocked Hs.
    all: try (destruct (sys_write _ _ _ _) as [[r fs'] t']).
    all: try (destruct (tc !! 0) as [[[]|]|]; try done).
    all: injection Hs as <- <-.
    all: try (eapply ph_live with (c := p) (mid := mid ++ [_]);
      [ done | | simpl; try apply insert_insert_eq; done
      | apply prompts_ok_other; [done | not_prompt]
      | by rewrite <- app_assoc
      | apply Forall_app; split; [done | by constructor] ];
      first [ done | by destruct (exec_ok _ _) ]).
    all: eapply ph_zombie with (c := p) (mid := mid);
      [ done | simpl; apply insert_insert_eq
      | apply prompts_ok_other; [done | not_prompt]
      | by rewrite <- app_assoc
      | done ].
  - (* a terminated child, not yet waited for *)
    destruct d; unfold_step Hs.
    all: wait_blocked Hs.
    rewrite bool_decide_true in Hs by done. injection Hs as <- <-.
    eapply ph_reaped; simpl.
    + rewrite delete_insert_eq, delete_singleton_ne by done.
      apply insert_singleton_eq.
    + apply prompts_ok_other; [done | not_prompt].
    + eexists t0, _, mid, st. split; [|done].
      rewrite <- !app_assoc. simpl. by rewrite <- app_assoc.
  - (* after the wait *)
    destruct d; unfold_step Hs.
    destruct (sys_write _ _ _ _) as [[r fs'] t']. injection Hs as <- <-.
    eapply ph_idle with (rs := Run (SRead buf)); [done| |].
    + simpl. apply insert_singleton_eq.
    + apply prompts_ok_prompt; [done | by right].
Qed.

(** The phases hold of every state the shell system reaches. *)
Lemma shell_phase_reachable w sh par buf0 t fs inp tr s :
  reachable shell w (boot (SPrompt0 buf0) sh par t fs inp) tr s →
  shell_phase sh par tr s.
Proof.
  apply (reachable_ind shell w (shell_phase sh par)).
  - by eapply ph_start.
  - intros. by eapply shell_phase_step.
Qed.

(** Except while it waits, the shell is the only process. *)
Lemma shell_alone_at w sh par buf0 t0 fs0 inp0 tr s rs t :
  reachable shell w (boot (SPrompt0 buf0) sh par t0 fs0 inp0) tr s →
  procs s !! sh = Some (Process par rs t) →
  (∀ buf, rs ≠ Run (SWait buf)) →
  procs s = {[sh := Process par rs t]}.
Proof.
  intros Hr Hsh Hrs. apply shell_phase_reachable in Hr.
  destruct Hr as [buf t1 _ Hps | rs1 t1 _ Hps _
                 | c chs buf t1 tc t00 mid Hc _ Hps _ _ _
                 | c st buf t1 tc t00 mid Hc Hps _ _ _
                 | buf t1 Hps _ _]; rewrite Hps in Hsh |- *.
  1,2,5: rewrite lookup_singleton_eq in Hsh; by injection Hsh as <- <-.
  all: rewrite lookup_insert_ne, lookup_singleton_eq in Hsh by done;
    injection Hsh as <- <-; by destruct (Hrs buf).
Qed.

(** C1. In every run of the shell from its start, whatever the
    scheduler, the forks' outcomes and the programs run: a prompt is
    either the first event, or the events before it end with the fork
    of a child [c] by the shell, then events of [c] only, then the
    termination of [c], then the return of the shell's wait with [c].
    So between spawning a child and the next prompt the shell does
    nothing but return from the wait on that child, after the child
    has terminated. *)
Theorem prompt_only_after_child_terminated
    (w : world) (sh par : Z) (buf0 : buffer) (t0 : fdtable)
    (fs0 : gmap cstr file) (inp0 : list ascii)
    (tr : list event) (s : sys spc)
    (t1 : list event) (e : event) (t3 : list event)
    (Hreach : reachable shell w (boot (SPrompt0 buf0) sh par t0 fs0 inp0) tr s)
    (Hsplit : tr = t1 ++ e :: t3)
    (Hprompt : is_prompt sh e) :
  t1 = [] ∨ iteration_done sh t1.
Proof.
  apply shell_phase_reachable in Hreach.
  assert (Hok : prompts_ok sh tr).
  { destruct Hreach; subst; try done. apply prompts_ok_nil. }
  by eapply Hok.
Qed.

(** The theorem at the second prompt of a run on the line [ls]. *)
Lemma prompt_only_after_child_terminated_witness :
  ∃ tr s,
    run shell demo_world
      [Step 10; Step 10; StepFork 10 (Some 11%Z); Step 11;
       ImgWrite 11 STDOUT_FILENO (cs "a.txt"); ImgExit 11 (Exited 0);
       StepWait 10 11; Step 10]
      (demo_shell (cs "ls" ++ [NL])) = Some (tr, s)
    ∧ is_prompt 10 (EvWrite 10 STDOUT_FILENO prompt (Ok 2))
    ∧ tr = take 7 tr ++ [EvWrite 10 STDOUT_FILENO prompt (Ok 2)]
    ∧ (take 7 tr = [] ∨ iteration_done 10 (take 7 tr)).
Proof.
  eexists _, _. split; [vm_compute; reflexivity|].
  split; [eexists; reflexivity|]. split; [vm_compute; reflexivity|].
  eapply (prompt_only_after_child_terminated demo_world 10 1 demo_buf std_fds ∅
            (cs "ls" ++ [NL]) _ _ _ (EvWrite 10 STDOUT_FILENO prompt (Ok 2)) []).
  - exists [Step 10; Step 10; StepFork 10 (Some 11%Z); Step 11;
            ImgWrite 11 STDOUT_FILENO (cs "a.txt"); ImgExit 11 (Exited 0);
            StepWait 10 11; Step 10].
    vm_compute. reflexivity.
  - vm_compute. reflexivity.
  - eexists; reflexivity.
Defined.

(** ** What the loop does at a failed fork, at end of input, and when
    a program cannot be loaded *)

(** C3. Whenever the shell is about to fork and the kernel refuses:
    no process is created, the shell writes ["Fork error\n"] on
    descriptor 2 and exits with code 1, and no other schedule exists
    from there: the shell does not call [fork] again, and nothing runs
    after its exit. *)
Theorem fork_failure_terminates_shell
    (w : world) (sh par : Z) (buf0 : buffer) (t0 : fdtable)
    (fs0 : gmap cstr file) (inp0 : list ascii)
    (tr : list event) (s : sys spc) (buf : buffer) (t : fdtable)
    (Hreach : reachable shell w (boot (SPrompt0 buf0) sh par t0 fs0 inp0) tr s)
    (Hsh : procs s !! sh = Some (Process par (Run (SFork buf)) t)) :
  ∃ s1 r s3 t3,
    step shell w (StepFork sh None) s = Some (EvFork sh None, s1)
    ∧ procs s1 = {[sh := Process par (Run SForkErr) t]}
    ∧ run shell w (after_fork_failure sh) s1
      = Some ([EvWrite sh STDERR_FILENO (cs "Fork error" ++ [NL]) r;
               EvExit sh (Exited 1)], s3)
    ∧ procs s3 = {[sh := Process par (Zombie (Exited 1)) t3]}
    ∧ ∀ ds tr' s', run shell w ds s1 = Some (tr', s') →
        ds `prefix_of` after_fork_failure sh.
Proof.
  assert (Hps : procs s = {[sh := Process par (Run (SFork buf)) t]})
    by (eapply shell_alone_at; [exact Hreach | exact Hsh | intros b; discriminate]).
  destruct s as [ps fs inp]. simpl in Hps. subst ps. clear Hsh Hreach.
  destruct (sys_write fs t STDERR_FILENO (cs "Fork error" ++ [NL]))
    as [[r fs'] t'] eqn:Hw.
  eexists _, r, _, _. split; [|split; [|split; [|split]]].
  - unfold step. simpl. rewrite lookup_singleton_eq. simpl. done.
  - simpl. apply insert_singleton_eq.
  - unfold after_fork_failure, run, step. simpl.
    rewrite insert_singleton_eq, lookup_singleton_eq. simpl.
    change (sys_write fs t STDERR_FILENO _)
      with (sys_write fs t STDERR_FILENO (cs "Fork error" ++ [NL])).
    rewrite Hw. simpl.
    rewrite insert_singleton_eq, lookup_singleton_eq. simpl. done.
  - simpl. by rewrite insert_singleton_eq.
  - intros ds tr' s'. rewrite insert_singleton_eq. unfold after_fork_failure.
    destruct ds as [|d1 ds]; [intros _; apply prefix_nil|].
    intros (e & s1 & tr1 & Hs & Hrun & _)%run_cons_inv.
    destruct d1; unfold_step Hs.
    destruct (sys_write _ _ _ _) as [[r1 fs1] t1]. injection Hs as <- <-.
    apply prefix_cons.
    destruct ds as [|d2 ds]; [apply prefix_nil|].
    apply run_cons_inv in Hrun as (e & s1 & tr2 & Hs & Hrun & _).
    rewrite insert_singleton_eq in Hs.
    destruct d2; unfold_step Hs. injection Hs as <- <-.
    apply prefix_cons.
    destruct ds as [|d3 ds]; [apply prefix_nil|].
    apply run_cons_inv in Hrun as (e & s1 & tr3 & Hs & _).
    rewrite insert_singleton_eq in Hs.
    destruct d3; unfold_step Hs.
Qed.

(** The theorem after the shell has read the line [ls]. *)
Lemma fork_failure_terminates_shell_witness :
  ∃ tr s s1 r s3,
    run shell demo_world [Step 10; Step 10] (demo_shell (cs "ls" ++ [NL]))
      = Some (tr, s)
    ∧ step shell demo_world (StepFork 10 None) s = Some (EvFork 10 None, s1)
    ∧ run shell demo_world (after_fork_failure 10) s1
      = Some ([EvWrite 10 STDERR_FILENO (cs "Fork error" ++ [NL]) r;
               EvExit 10 (Exited 1)], s3).
Proof.
  edestruct (fork_failure_terminates_shell demo_world 10 1 demo_buf std_fds ∅
               (cs "ls" ++ [NL]))
    as (s1 & r & s3 & t3 & H1 & _ & H3 & _).
  - exists [Step 10; Step 10]. vm_compute. reflexivity.
  - vm_compute. reflexivity.
  - eexists _, _, s1, r, s3. split; [vm_compute; reflexivity|].
    split; [exact H1 | exact H3].
Defined.

(** C5. Whenever the shell is at the head of its loop and [fgets]
    returns NULL, the shell leaves the loop and exits with code 0, and
    nothing runs afterwards; this does not depend on how many commands
    were run before. *)
Theorem end_of_input_exits_zero
    (w : world) (sh par : Z) (buf0 : buffer) (t0 : fdtable)
    (fs0 : gmap cstr file) (inp0 : list ascii)
    (tr : list event) (s : sys spc) (buf : buffer) (t : fdtable)
    (inp' : list ascii) (t' : fdtable)
    (Hreach : reachable shell w (boot (SPrompt0 buf0) sh par t0 fs0 inp0) tr s)
    (Hsh : procs s !! sh = Some (Process par (Run (SRead buf)) t))
    (Heof : sys_fgets (files s) (tty_in s) t buf MAXLINE = (None, inp', t')) :
  ∃ s2 t2,
    run shell w [Step sh; Step sh] s
      = Some ([EvRead sh None; EvExit sh (Exited 0)], s2)
    ∧ procs s2 = {[sh := Process par (Zombie (Exited 0)) t2]}
    ∧ halted shell w s2.
Proof.
  assert (Hps : procs s = {[sh := Process par (Run (SRead buf)) t]})
    by (eapply shell_alone_at; [exact Hreach | exact Hsh | intros b; discriminate]).
  destruct s as [ps fs inp]. simpl in Hps, Heof. subst ps. clear Hsh Hreach.
  eexists _, _. split; [|split].
  - unfold run, step. simpl. rewrite lookup_singleton_eq. simpl.
    rewrite Heof. simpl.
    rewrite insert_singleton_eq, lookup_singleton_eq. simpl. done.
  - simpl. by rewrite insert_singleton_eq.
  - intros d. simpl. rewrite !insert_singleton_eq.
    destruct (step shell w d _) as [[e s1]|] eqn:Hs; [|done].
    destruct d; unfold_step Hs.
Qed.

(** The theorem on an empty input: the prompt, then the exit, and no
    command in between. *)
Lemma end_of_input_exits_zero_witness :
  ∃ s0 s2,
    run shell demo_world [Step 10] (demo_shell [])
      = Some ([EvWrite 10 STDOUT_FILENO prompt (Ok 2)], s0)
    ∧ run shell demo_world [Step 10; Step 10] s0
      = Some ([EvRead 10 None; EvExit 10 (Exited 0)], s2).
Proof.
  edestruct (end_of_input_exits_zero demo_world 10 1 demo_buf std_fds ∅ [])
    as (s2 & t2 & H1 & _).
  - exists [Step 10]. vm_compute. reflexivity.
  - vm_compute. reflexivity.
  - vm_compute. reflexivity.
  - eexists _, s2. split; [vm_compute; reflexivity | exact H1].
Defined.

Lemma empty_line_dispatched w (b : buffer) rest :
  ∃ b' b'', fgets b MAXLINE (NL :: rest) = Some (b', rest)
    ∧ after_fgets (Some b') = SFork b''
    ∧ c_str b'' = []
    ∧ exec_ok w (c_str b'') = false.
Proof.
  eexists _, _. split; [|split; [|split]]; [unfold fgets; simpl | simpl | ..];
    done.
Qed.

(** C4. Whenever the shell has forked a child for a command that
    [execvp] cannot load: the child writes ["exec error\n"] on
    descriptor 2 and exits with code 1, the shell's wait returns the
    child, the shell prints its prompt and is back at the head of its
    loop, alone; every schedule from the fork on follows this course,
    so the shell neither stops nor exits on the way.  The empty line
    is such a command: it is dispatched with an empty name, which
    [execvp] never loads. *)
Theorem exec_failure_keeps_shell_running
    (w : world) (sh par : Z) (buf0 : buffer) (t0 : fdtable)
    (fs0 : gmap cstr file) (inp0 : list ascii)
    (tr : list event) (s : sys spc) (buf : buffer) (t : fdtable)
    (c : Z) (e1 : event) (s1 : sys spc)
    (Hreach : reachable shell w (boot (SPrompt0 buf0) sh par t0 fs0 inp0) tr s)
    (Hsh : procs s !! sh = Some (Process par (Run (SFork buf)) t))
    (Hfail : exec_ok w (c_str buf) = false)
    (Hfork : step shell w (StepFork sh (Some c)) s = Some (e1, s1)) :
  (∃ r1 r2 s6 t6,
     run shell w (failed_command sh c) s1
       = Some ([EvExec c (c_str buf) [c_str buf] false;
                EvWrite c STDERR_FILENO (cs "exec error" ++ [NL]) r1;
                EvExit c (Exited 1);
                EvWait sh (Ok c);
                EvWrite sh STDOUT_FILENO prompt r2], s6)
     ∧ procs s6 = {[sh := Process par (Run (SRead buf)) t6]})
  ∧ (∀ ds tr' s', run shell w ds s1 = Some (tr', s') →
       ds `prefix_of` failed_command sh c ∨ failed_command sh c `prefix_of` ds)
  ∧ (∀ (b : buffer) rest, ∃ b' b'',
       fgets b MAXLINE (NL :: rest) = Some (b', rest)
       ∧ after_fgets (Some b') = SFork b''
       ∧ c_str b'' = []
       ∧ exec_ok w (c_str b'') = false).
Proof.
  assert (Hps : procs s = {[sh := Process par (Run (SFork buf)) t]})
    by (eapply shell_alone_at; [exact Hreach | exact Hsh | intros b; discriminate]).
  destruct s as [ps fs inp]. simpl in Hps. subst ps. clear Hsh Hreach.
  unfold_step Hfork.
  destruct (Z.ltb_spec 0 c) as [Hpos|]; [|done]. injection Hfork as <- <-.
  rewrite (after_fork_parent buf c), insert_singleton_eq by done.
  change (after_fork buf 0) with (SChildExec buf).
  destruct (sys_write fs t STDERR_FILENO (cs "exec error" ++ [NL]))
    as [[r1 fs1] t1] eqn:Hw1.
  destruct (sys_write fs1 t STDOUT_FILENO prompt) as [[r2 fs2] t2] eqn:Hw2.
  split; [|split].
  - exists r1, r2. eexists _, _. split.
    + eapply run_cons.
      { unfold step. simpl. rewrite lookup_insert_eq. simpl. rewrite Hfail. done. }
      eapply run_cons.
      { unfold step. simpl. rewrite lookup_insert_eq. simpl.
        change (sys_write fs t STDERR_FILENO _)
          with (sys_write fs t STDERR_FILENO (cs "exec error" ++ [NL])).
        rewrite Hw1. done. }
      eapply run_cons.
      { unfold step. simpl. rewrite lookup_insert_eq. simpl. done. }
      rewrite !insert_insert_eq.
      eapply run_cons.
      { unfold step. simpl.
        rewrite (lookup_insert_ne _ c sh), lookup_singleton_eq by done. simpl.
        rewrite lookup_insert_eq. simpl. rewrite bool_decide_true by done.
        rewrite delete_insert_eq, delete_singleton_ne, insert_singleton_eq by done.
        done. }
      eapply run_cons; [|done].
      unfold step. simpl. rewrite lookup_singleton_eq. simpl.
      rewrite Hw2, insert_singleton_eq. done.
    + done.
  - intros ds tr' s'. apply forced_prefix. clear tr' s'.
    intros d e s1 Hs. destruct d; unfold_step Hs; wait_blocked Hs.
    rewrite Hfail in Hs. injection Hs as <- <-. split; [done|].
    rewrite insert_insert_eq.
    intros d e s1 Hs. destruct d; unfold_step Hs; wait_blocked Hs.
    destruct (sys_write _ _ _ _) as [[r1' fs1'] t1'].
    injection Hs as <- <-. split; [done|].
    rewrite insert_insert_eq.
    intros d e s1 Hs. destruct d; unfold_step Hs; wait_blocked Hs.
    injection Hs as <- <-. split; [done|].
    rewrite insert_insert_eq.
    intros d e s1 Hs. destruct d; unfold_step Hs; wait_blocked Hs.
    rewrite bool_decide_true in Hs by done.
    injection Hs as <- <-. split; [done|].
    rewrite delete_insert_eq, delete_singleton_ne, insert_singleton_eq by done.
    intros d e s1 Hs. destruct d; unfold_step Hs.
  - intros b rest. apply empty_line_dispatched.
Qed.

(** The theorem at the empty line. *)
Lemma exec_failure_keeps_shell_running_witness :
  ∃ tr s s1 r1 r2 s6,
    run shell demo_world [Step 10; Step 10] (demo_shell [NL]) = Some (tr, s)
    ∧ step shell demo_world (StepFork 10 (Some 11%Z)) s
      = Some (EvFork 10 (Some 11%Z), s1)
    ∧ run shell demo_world (failed_command 10 11) s1
      = Some ([EvExec 11 [] [[]] false;
               EvWrite 11 STDERR_FILENO (cs "exec error" ++ [NL]) r1;
               EvExit 11 (Exited 1);
               EvWait 10 (Ok 11);
               EvWrite 10 STDOUT_FILENO prompt r2], s6).
Proof.
  edestruct (exec_failure_keeps_shell_running demo_world 10 1 demo_buf std_fds ∅
               [NL]) with (c := 11%Z)
    as ((r1 & r2 & s6 & t6 & H1 & _) & _).
  - exists [Step 10; Step 10]. vm_compute. reflexivity.
  - vm_compute. reflexivity.
  - vm_compute. reflexivity.
  - vm_compute. reflexivity.
  - eexists _, _, _, r1, r2, s6. split; [vm_compute; reflexivity|].
    split; [vm_compute; reflexivity|]. exact H1.
Defined.

(** ** What is passed to execvp *)

Lemma until_space_nospace u :
  Forall (λ x, is_space x = false) u → until_space u = u.
Proof. induction 1 as [|x u Hx _ IH]; simpl; [done|]. by rewrite Hx, IH. Qed.

Lemma until_space_nospace_NL u :
  Forall (λ x, is_space x = false) u → until_space (u ++ [NL]) = u.
Proof. induction 1 as [|x u Hx _ IH]; simpl; [done|]. by rewrite Hx, IH. Qed.

Lemma until_space_free l : Forall (λ x, is_space x = false) (until_space l).
Proof.
  induction l as [|x l IH]; simpl; [constructor|].
  destruct (is_space x) eqn:Hx; constructor; done.
Qed.

Lemma first_token_nospace u :
  Forall (λ x, is_space x = false) u →
  first_token u = u ∧ first_token (u ++ [NL]) = u.
Proof.
  intros Hu. unfold first_token. destruct Hu as [|x u Hx Hu]; [done|].
  simpl. rewrite Hx. simpl. rewrite Hx.
  by rewrite until_space_nospace, until_space_nospace_NL.
Qed.

Lemma chomp_cases l : chomp l = l ∨ l = chomp l ++ [NL].
Proof.
  unfold chomp. destruct (last l) as [c|] eqn:Hl; [|by left].
  case_decide as Hc; [|by left]. subst c.
  apply last_Some in Hl as [l' ->]. right. by rewrite removelast_last.
Qed.

(** The first token of a line is the line without its newline exactly
    when that has no whitespace in it. *)
Lemma first_token_line l :
  first_token l = chomp l ↔ Forall (λ x, is_space x = false) (chomp l).
Proof.
  split.
  - intros <-. apply until_space_free.
  - intros Hu. destruct (first_token_nospace _ Hu) as [H1 H2].
    destruct (chomp_cases l) as [Heq | Heq]; congruence.
Qed.

Lemma sys_fgets_Some fs inp t buf size b inp' t' :
  sys_fgets fs inp t buf size = (Some b, inp', t') →
  ∃ input rest, fgets buf size input = Some (b, rest).
Proof.
  unfold sys_fgets. intros H.
  repeat match type of H with
  | context [match ?x with _ => _ end] => destruct x eqn:?; try done
  end; simplify_eq; eauto.
Qed.

Lemma read_line_newline n line rest :
  NL ∉ line → length line < n →
  read_line n (line ++ NL :: rest) = (line ++ [NL], rest).
Proof.
  revert line. induction n as [|n IH]; intros line Hnl Hlen; [lia|].
  destruct line as [|x line]; simpl.
  - done.
  - apply not_elem_of_cons in Hnl as [Hx Hnl].
    rewrite decide_False by done.
    rewrite IH; [done | done | simpl in Hlen; lia].
Qed.

Lemma read_line_head n x more :
  head (read_line (S n) (x :: more)).1 = Some x.
Proof. simpl. case_decide; [done|]. by destruct (read_line n more). Qed.

(** [fgets] on descriptor 0 is [fgets] on what the descriptor has yet
    to deliver. *)
Lemma sys_fgets_pending fs inp t buf size b rest :
  fgets buf size (pending fs inp t) = Some (b, rest) →
  ∃ inp' t', sys_fgets fs inp t buf size = (Some b, inp', t').
Proof.
  assert (Hnil : fgets buf size [] ≠ Some (b, rest))
    by (unfold fgets; by destruct (size - 1)).
  unfold pending, sys_fgets.
  destruct (t !! 0) as [[[|path [] wr off]|]|]; try done.
  - intros ->. eauto.
  - destruct (fs !! path) as [f|]; [|done]. intros ->. eauto.
Qed.

(** The string in the array after [fgets] is the string of the bytes
    taken. *)
Lemma fgets_stored buf input b rest :
  fgets buf MAXLINE input = Some (b, rest) → c_str b = stored input.
Proof.
  unfold fgets, stored, taken.
  destruct (read_line (MAXLINE - 1) input) as [l r]. simpl.
  destruct l as [|x l]; [done|]. intros [= <- <-].
  unfold write_at. simpl. rewrite <- app_assoc.
  apply (c_str_terminated (x :: l)).
Qed.

(** On an input that is not at its end [fgets] returns a string. *)
Lemma fgets_not_at_end buf x more :
  ∃ b rest, fgets buf MAXLINE (x :: more) = Some (b, rest).
Proof.
  unfold fgets. pose proof (read_line_head 98 x more) as Hh.
  change (MAXLINE - 1) with 99.
  destruct (read_line 99 (x :: more)) as [l r].
  destruct l as [|y l]; [done | eauto].
Qed.

(** C2, as amended.  Whenever the shell is at [fgets] and the input on
    descriptor 0 is not at its end and does not begin with NUL: the
    child calls [execvp] with one string, both as the name to search
    for and as the only element of the argument vector, and nothing is
    parsed from it.  The string is what [fgets] left in the array,
    without one trailing newline: the bytes [fgets] takes (up to and
    including the first newline, [MAXLINE - 1] at most), cut at the
    first NUL among them.  For a line of at most [MAXLINE - 2] bytes
    before its newline that contains no NUL, it is the whole line
    without its newline.  It is the first whitespace-free token of the
    line exactly when it contains no whitespace. *)
Theorem whole_line_dispatched
    (w : world) (sh par : Z) (buf0 : buffer) (t0 : fdtable)
    (fs0 : gmap cstr file) (inp0 : list ascii)
    (tr : list event) (s : sys spc) (buf : buffer) (t : fdtable)
    (c : Z) (x : ascii) (more : list ascii)
    (Hreach : reachable shell w (boot (SPrompt0 buf0) sh par t0 fs0 inp0) tr s)
    (Hsh : procs s !! sh = Some (Process par (Run (SRead buf)) t))
    (Hbuf : length buf = MAXLINE)
    (Hinput : pending (files s) (tty_in s) t = x :: more)
    (Hx : x ≠ NUL)
    (Hc : (0 < c)%Z) (Hfresh : c ≠ sh) :
  dispatched w s sh c
    = Some (chomp (stored (x :: more)), [chomp (stored (x :: more))])
  ∧ (first_token (stored (x :: more)) = chomp (stored (x :: more))
     ↔ Forall (λ y, is_space y = false) (chomp (stored (x :: more))))
  ∧ ∀ line rest,
      x :: more = line ++ NL :: rest →
      NL ∉ line → NUL ∉ line → length line ≤ MAXLINE - 2 →
      stored (x :: more) = line ++ [NL] ∧ chomp (stored (x :: more)) = line.
Proof.
  split; [|split; [apply first_token_line|]].
  - assert (Hps : procs s = {[sh := Process par (Run (SRead buf)) t]})
      by (eapply shell_alone_at; [exact Hreach | exact Hsh | intros ?; discriminate]).
    destruct s as [ps fs inp]. simpl in Hps, Hinput. subst ps. clear Hsh Hreach.
    destruct (fgets_not_at_end buf x more) as (b & rest & Hf).
    pose proof (fgets_stored _ _ _ _ Hf) as Hstored.
    pose proof (fgets_head _ _ _ _ _ Hf) as Hhead. simpl in Hhead.
    rewrite <- Hinput in Hf.
    destruct (sys_fgets_pending _ _ _ _ _ _ _ Hf) as (inp' & t' & Hread).
    rewrite Hinput in Hf.
    destruct (fgets_length _ _ _ _ Hbuf Hf) as [Hb Hlt].
    assert (Hline : strlen b ≠ 0).
    { destruct b as [|y b]; [done|]. injection Hhead as ->. simpl.
      by rewrite decide_False. }
    destruct (strip_newline_defined b) as (b' & Hstrip & Hb' & _);
      [done | done | lia |].
    rewrite Hstored in Hb'.
    unfold dispatched, run, step. simpl.
    rewrite lookup_singleton_eq. simpl. rewrite Hread. simpl. rewrite Hstrip.
    rewrite insert_singleton_eq, lookup_singleton_eq. simpl.
    rewrite lookup_singleton_ne by done.
    destruct (Z.ltb_spec 0 c); [|lia]. simpl.
    rewrite lookup_insert_eq. simpl. by rewrite Hb'.
  - intros line rest Heq Hnl Hnul Hlen.
    assert (Hst : stored (x :: more) = line ++ [NL]).
    { unfold stored, taken. rewrite Heq.
      rewrite read_line_newline by (unfold MAXLINE in *; simpl in *; done || lia).
      simpl. unfold c_str.
      rewrite (strlen_no_NUL (line ++ [NL]) []).
      - by rewrite take_app_length.
      - intros [H|H]%elem_of_app; [done|].
        apply list_elem_of_singleton in H. done. }
    split; [done|]. rewrite Hst. unfold chomp.
    rewrite last_snoc. rewrite decide_True by done.
    apply removelast_last.
Qed.

(** The theorem at the line [ls -l]: the child is asked to run a
    program named [ls -l], which is not the line's first token. *)
Lemma whole_line_dispatched_witness :
  ∃ tr s,
    run shell demo_world [Step 10] (demo_shell (cs "ls -l" ++ [NL]))
      = Some (tr, s)
    ∧ dispatched demo_world s 10 11 = Some (cs "ls -l", [cs "ls -l"])
    ∧ first_token (cs "ls -l" ++ [NL]) = cs "ls".
Proof.
  edestruct (whole_line_dispatched demo_world 10 1 demo_buf std_fds ∅
               (cs "ls -l" ++ [NL]))
    with (buf := demo_buf) (t := std_fds) (c := 11%Z) (x := "l"%char)
         (more := cs "s -l" ++ [NL])
    as (H1 & _ & H3).
  - exists [Step 10]. vm_compute. reflexivity.
  - vm_compute. reflexivity.
  - reflexivity.
  - vm_compute. reflexivity.
  - discriminate.
  - lia.
  - lia.
  - destruct (H3 (cs "ls -l") []) as [_ H4].
    + reflexivity.
    + intros H. vm_compute in H.
      by repeat (apply elem_of_cons in H as [H|H]; [done|]); apply elem_of_nil in H.
    + intros H. vm_compute in H.
      by repeat (apply elem_of_cons in H as [H|H]; [done|]); apply elem_of_nil in H.
    + vm_compute. lia.
    + eexists _, _. split; [vm_compute; reflexivity|].
      split; [|vm_compute; reflexivity].
      rewrite H1, H4. reflexivity.
Defined.

(** C2, as stated, fails: on the line [ls -l] the child is not given
    the first token [ls]. *)
Lemma first_token_not_dispatched :
  ∃ tr s,
    run shell demo_world [Step 10] (demo_shell (cs "ls -l" ++ [NL]))
      = Some (tr, s)
    ∧ first_token (cs "ls -l" ++ [NL]) = cs "ls"
    ∧ dispatched demo_world s 10 11 = Some (cs "ls -l", [cs "ls -l"])
    ∧ ¬ dispatches_first_token demo_world s 10 11 (cs "ls -l" ++ [NL]).
Proof.
  eexists _, _. split; [vm_compute; reflexivity|].
  split; [vm_compute; reflexivity|]. split; [vm_compute; reflexivity|].
  unfold dispatches_first_token. vm_compute. discriminate.
Qed.

(** ** The redirection demo *)

Lemma lowest_free_close_stdout t f0 :
  t !! 0 = Some (Some f0) → 1 < length t →
  lowest_free (<[STDOUT_FILENO := None]> t) = Some STDOUT_FILENO.
Proof.
  destruct t as [|x [|y t]]; simpl; intros H0 Hlen; try lia.
  by injection H0 as ->.
Qed.

Lemma write_file_empty data : write_file [] 0 data = data.
Proof. unfold write_file. simpl. by rewrite drop_nil, app_nil_r. Qed.

(** The child's [close] and [open], on a table whose descriptors 0 and
    1 are in use. *)
Lemma close_then_open w fs t f0 f1 :
  t !! 0 = Some (Some f0) → t !! STDOUT_FILENO = Some (Some f1) →
  sys_close t STDOUT_FILENO = (Ok 0, <[STDOUT_FILENO := None]> t)
  ∧ sys_open w fs (<[STDOUT_FILENO := None]> t) redirect_path redirect_flags None
    = match fs !! redirect_path with
      | Some _ => (Err EEXIST, fs, <[STDOUT_FILENO := None]> t)
      | None =>
          (Ok 1, <[redirect_path := File [] (creation_perm w None)]> fs,
           <[STDOUT_FILENO := Some (OFile redirect_path true true 0)]> t)
      end.
Proof.
  intros H0 H1. split.
  - unfold sys_close. by rewrite H1.
  - unfold sys_open. erewrite lowest_free_close_stdout; [|done|].
    + destruct (fs !! redirect_path); [done|]. simpl.
      by rewrite list_insert_insert_eq.
    + apply lookup_lt_Some in H1. unfold STDOUT_FILENO in H1. lia.
Qed.

(** The child's path through the redirection demo when [wc] can be
    loaded, writes [out] to descriptor 1 and exits. *)
Lemma redirect_child_path w ps fs inp c pp t f0 f1 out :
  ps !! c = Some (Process pp (Run RChildClose) t) →
  t !! 0 = Some (Some f0) → t !! STDOUT_FILENO = Some (Some f1) →
  exec_ok w (cs "wc") = true →
  run redirect w
    [Step c; Step c; Step c; ImgWrite c STDOUT_FILENO out; ImgExit c (Exited 0)]
    (Sys ps fs inp)
  = Some ([EvClose c STDOUT_FILENO (Ok 0);
           EvOpen c redirect_path redirect_flags None
             (match fs !! redirect_path with Some _ => Err EEXIST | None => Ok 1 end);
           EvExec c (cs "wc") wc_argv true;
           EvWrite c STDOUT_FILENO out
             (match fs !! redirect_path with
              | Some _ => Err EBADF
              | None => Ok (Z.of_nat (length out))
              end);
           EvExit c (Exited 0)],
          Sys (<[c := Process pp (Zombie (Exited 0)) []]> ps)
              (match fs !! redirect_path with
               | Some _ => fs
               | None => <[redirect_path := File out (creation_perm w None)]> fs
               end)
              inp).
Proof.
  intros Hc H0 H1 Hwc.
  destruct (close_then_open w fs t f0 f1 H0 H1) as [Hclose Hopen].
  assert (Hlen : 1 < length t) by (apply lookup_lt_Some in H1; done).
  simpl in Hwc.
  destruct (fs !! redirect_path) as [f|] eqn:Hf.
  - eapply run_cons.
    { unfold step. simpl. rewrite Hc. simpl. rewrite Hclose. done. }
    eapply run_cons.
    { unfold step. simpl. rewrite lookup_insert_eq. simpl. rewrite Hopen. done. }
    eapply run_cons.
    { unfold step. simpl. rewrite lookup_insert_eq. simpl.
      rewrite Hwc. done. }
    eapply run_cons.
    { unfold step. simpl. rewrite lookup_insert_eq. simpl.
      unfold sys_write. rewrite list_lookup_insert_eq by done. done. }
    eapply run_cons.
    { unfold step. simpl. rewrite lookup_insert_eq. simpl. done. }
    simpl. by rewrite !insert_insert_eq.
  - eapply run_cons.
    { unfold step. simpl. rewrite Hc. simpl. rewrite Hclose. done. }
    eapply run_cons.
    { unfold step. simpl. rewrite lookup_insert_eq. simpl. rewrite Hopen. done. }
    eapply run_cons.
    { unfold step. simpl. rewrite lookup_insert_eq. simpl.
      rewrite Hwc. done. }
    eapply run_cons.
    { unfold step. simpl. rewrite lookup_insert_eq. simpl.
      unfold sys_write. rewrite list_lookup_insert_eq by done.
      rewrite lookup_insert_eq. simpl. rewrite write_file_empty. done. }
    eapply run_cons.
    { unfold step. simpl. rewrite lookup_insert_eq. simpl. done. }
    simpl. by rewrite !insert_insert_eq.
Qed.

Lemma redirect_after_fork_parent c : (0 < c)%Z → redirect_after_fork c = RWait c.
Proof.
  intros Hc. unfold redirect_after_fork.
  destruct (Z.ltb_spec c 0); [lia|]. destruct (Z.eqb_spec c 0); [lia | done].
Qed.

(** A whole run of the demo on a terminal: what it leaves in the file
    system depends on whether the destination already existed. *)
Lemma redirect_full_run w p par c t fs inp f0 out :
  t !! 0 = Some (Some f0) → t !! STDOUT_FILENO = Some (Some Tty) →
  c ≠ p → (0 < c)%Z → exec_ok w (cs "wc") = true →
  run redirect w (redirect_once p c out) (boot RHelloPid p par t fs inp)
  = Some ([EvGetpid p;
           EvWrite p STDOUT_FILENO (hello_line p) (Ok (Z.of_nat (length (hello_line p))));
           EvFork p (Some c);
           EvClose c STDOUT_FILENO (Ok 0);
           EvOpen c redirect_path redirect_flags None
             (match fs !! redirect_path with Some _ => Err EEXIST | None => Ok 1 end);
           EvExec c (cs "wc") wc_argv true;
           EvWrite c STDOUT_FILENO out
             (match fs !! redirect_path with
              | Some _ => Err EBADF
              | None => Ok (Z.of_nat (length out))
              end);
           EvExit c (Exited 0);
           EvWait p (Ok c);
           EvGetpid p;
           EvWrite p STDOUT_FILENO (parent_line c c p)
             (Ok (Z.of_nat (length (parent_line c c p))));
           EvExit p (Exited 0)],
          Sys {[p := Process par (Zombie (Exited 0)) []]}
              (match fs !! redirect_path with
               | Some _ => fs
               | None => <[redirect_path := File out (creation_perm w None)]> fs
               end)
              inp).
Proof.
  intros H0 H1 Hcp Hc Hwc. unfold redirect_once, boot.
  eapply run_cons.
  { unfold step. simpl. rewrite lookup_singleton_eq. simpl.
    rewrite insert_singleton_eq. done. }
  eapply run_cons.
  { unfold step. simpl. rewrite lookup_singleton_eq. simpl.
    unfold sys_write. rewrite H1. rewrite insert_singleton_eq. done. }
  eapply run_cons.
  { unfold step. simpl. rewrite lookup_singleton_eq. simpl.
    rewrite lookup_singleton_ne by done.
    destruct (Z.ltb_spec 0 c); [|lia].
    rewrite (redirect_after_fork_parent c), insert_singleton_eq by done. done. }
  change [Step c; Step c; Step c; ImgWrite c STDOUT_FILENO out; ImgExit c (Exited 0);
          StepWait p c; Step p; Step p; Step p]
    with ([Step c; Step c; Step c; ImgWrite c STDOUT_FILENO out; ImgExit c (Exited 0)]
          ++ [StepWait p c; Step p; Step p; Step p]).
  eapply (run_app_Some redirect w).
  { eapply redirect_child_path; [apply lookup_insert_eq | done..]. }
  rewrite insert_insert_eq.
  set (fs' := match fs !! redirect_path with Some _ => fs | None => _ end).
  eapply run_cons.
  { unfold step. simpl. rewrite (lookup_insert_ne _ c p), lookup_singleton_eq by done.
    simpl. rewrite lookup_insert_eq. simpl. rewrite bool_decide_true by done.
    rewrite delete_insert_eq, delete_singleton_ne, insert_singleton_eq by done. done. }
  eapply run_cons.
  { unfold step. simpl. rewrite lookup_singleton_eq. simpl.
    rewrite insert_singleton_eq. done. }
  eapply run_cons.
  { unfold step. simpl. rewrite lookup_singleton_eq. simpl.
    unfold sys_write. rewrite H1. rewrite insert_singleton_eq. done. }
  eapply run_cons.
  { unfold step. simpl. rewrite lookup_singleton_eq. simpl.
    rewrite insert_singleton_eq. done. }
  done.
  done.
Qed.

(** The redirection where it works.  In the child of the redirection
    demo, with descriptors 0 and 1 in use: after [close(STDOUT_FILENO)],
    descriptor 1 is the lowest free one, so an [open] of the
    destination that succeeds returns 1; the binding survives [execvp],
    and what [wc] then writes on descriptor 1 is the content of the
    destination file. *)
Lemma redirect_open_reuses_stdout
    (w : world) (s : sys rpc) (c pp : Z) (t : fdtable) (f0 f1 : ofile)
    (e1 : event) (fd : Z) (s2 : sys rpc) (data : cstr)
    (Hc : procs s !! c = Some (Process pp (Run RChildClose) t))
    (Hin : t !! 0 = Some (Some f0))
    (Hout : t !! STDOUT_FILENO = Some (Some f1))
    (Hrun : run redirect w [Step c; Step c] s
            = Some ([e1; EvOpen c redirect_path redirect_flags None (Ok fd)], s2))
    (Hwc : exec_ok w (cs "wc") = true) :
  e1 = EvClose c STDOUT_FILENO (Ok 0)
  ∧ lowest_free (<[STDOUT_FILENO := None]> t) = Some STDOUT_FILENO
  ∧ fd = Z.of_nat STDOUT_FILENO
  ∧ procs s2 !! c
    = Some (Process pp (Run RChildExec)
              (<[STDOUT_FILENO := Some (OFile redirect_path true true 0)]> t))
  ∧ ∃ s4 perm,
      run redirect w [Step c; ImgWrite c STDOUT_FILENO data] s2
        = Some ([EvExec c (cs "wc") wc_argv true;
                 EvWrite c STDOUT_FILENO data (Ok (Z.of_nat (length data)))], s4)
      ∧ files s4 !! redirect_path = Some (File data perm).
Proof.
  destruct s as [ps fs inp]. simpl in Hc.
  destruct (close_then_open w fs t f0 f1 Hin Hout) as [Hclose Hopen].
  assert (Hlen : 1 < length t) by (apply lookup_lt_Some in Hout; done).
  unfold run, step in Hrun. simpl in Hrun. rewrite Hc in Hrun. simpl in Hrun.
  rewrite Hclose in Hrun. simpl in Hrun.
  rewrite lookup_insert_eq in Hrun. simpl in Hrun. rewrite Hopen in Hrun.
  destruct (fs !! redirect_path) as [f|] eqn:Hf; simpl in Hrun; [done|].
  injection Hrun as <- <- <-.
  split; [done|]. split; [by eapply lowest_free_close_stdout|]. split; [done|].
  split; [simpl; by rewrite lookup_insert_eq|].
  simpl in Hwc. eexists _, _. split.
  - eapply run_cons.
    { unfold step. simpl. rewrite lookup_insert_eq. simpl. rewrite Hwc. done. }
    eapply run_cons; [|done].
    unfold step. simpl. rewrite lookup_insert_eq. simpl.
    unfold sys_write. rewrite list_lookup_insert_eq by done.
    rewrite lookup_insert_eq. simpl. rewrite write_file_empty. done.
  - simpl. by rewrite lookup_insert_eq.
Qed.

(** The lemma in the child of a run on a terminal, in a directory
    without the destination file. *)
Lemma redirect_open_reuses_stdout_witness :
  ∃ tr s tr2 s2 s4 perm,
    run redirect demo_world [Step 10; Step 10; StepFork 10 (Some 11%Z)]
      (demo_redirect ∅) = Some (tr, s)
    ∧ run redirect demo_world [Step 11; Step 11] s = Some (tr2, s2)
    ∧ run redirect demo_world [Step 11; ImgWrite 11 STDOUT_FILENO (cs "7 wc")] s2
      = Some ([EvExec 11 (cs "wc") wc_argv true;
               EvWrite 11 STDOUT_FILENO (cs "7 wc") (Ok 4)], s4)
    ∧ files s4 !! redirect_path = Some (File (cs "7 wc") perm).
Proof.
  edestruct (redirect_open_reuses_stdout demo_world) with (c := 11%Z) (data := cs "7 wc")
    as (_ & _ & _ & _ & s4 & perm & H1 & H2).
  - instantiate (3 := snd (default ([], demo_redirect ∅)
        (run redirect demo_world [Step 10; Step 10; StepFork 10 (Some 11%Z)]
           (demo_redirect ∅)))).
    vm_compute. reflexivity.
  - vm_compute. reflexivity.
  - vm_compute. reflexivity.
  - vm_compute. reflexivity.
  - vm_compute. reflexivity.
  - eexists _, _, _, _, s4, perm.
    split; [vm_compute; reflexivity|]. split; [vm_compute; reflexivity|].
    split; [exact H1 | exact H2].
Defined.

Lemma lowest_free_slot t i : t !! i = Some None → lowest_free t ≠ None.
Proof.
  revert i. induction t as [|x t IH]; intros i Hi; [done|].
  destruct x as [o|]; simpl; [|done].
  destruct i as [|i]; [done|]. simpl in Hi.
  specialize (IH i Hi). by destruct (lowest_free t).
Qed.

(** The child's [open] of a destination that exists. *)
Lemma open_existing w fs t f f1 :
  t !! STDOUT_FILENO = Some (Some f1) → fs !! redirect_path = Some f →
  sys_open w fs (<[STDOUT_FILENO := None]> t) redirect_path redirect_flags None
  = (Err EEXIST, fs, <[STDOUT_FILENO := None]> t).
Proof.
  intros H1 Hf. unfold sys_open.
  assert (Hfree : lowest_free (<[STDOUT_FILENO := None]> t) ≠ None).
  { apply (lowest_free_slot _ STDOUT_FILENO).
    apply list_lookup_insert_eq. by apply lookup_lt_Some in H1. }
  destruct (lowest_free _) as [fd|]; [|done]. by rewrite Hf.
Qed.

(** With descriptor 0 closed, the lowest free descriptor after
    [close(STDOUT_FILENO)] is 0, not 1. *)
Lemma lowest_free_stdin_closed t :
  t !! 0 = Some None → lowest_free (<[STDOUT_FILENO := None]> t) = Some 0.
Proof. destruct t as [|[o|] t]; [done..|]. by destruct t. Qed.

(** C6, on the code.  In the child of the redirection demo, with
    descriptor 1 open and [wc_output.txt] present:
    [close(STDOUT_FILENO)] succeeds, the [open] fails with [EEXIST]
    (its flags contain [O_EXCL]) and binds no descriptor, descriptor 1
    is still closed when [wc] runs, what [wc] writes on descriptor 1
    is refused with [EBADF], and the files are as they were.  The
    freed descriptor is not assigned to the destination, and the
    output of [wc] does not land in it. *)
Theorem redirect_open_fails_on_existing_file
    (w : world) (s : sys rpc) (c pp : Z) (t : fdtable) (f1 : ofile)
    (f : file) (data : cstr)
    (Hc : procs s !! c = Some (Process pp (Run RChildClose) t))
    (Hout : t !! STDOUT_FILENO = Some (Some f1))
    (Hfile : files s !! redirect_path = Some f)
    (Hwc : exec_ok w (cs "wc") = true) :
  ∃ s4,
    run redirect w [Step c; Step c; Step c; ImgWrite c STDOUT_FILENO data] s
      = Some ([EvClose c STDOUT_FILENO (Ok 0);
               EvOpen c redirect_path redirect_flags None (Err EEXIST);
               EvExec c (cs "wc") wc_argv true;
               EvWrite c STDOUT_FILENO data (Err EBADF)], s4)
    ∧ procs s4 !! c
      = Some (Process pp (Image (cs "wc") wc_argv) (<[STDOUT_FILENO := None]> t))
    ∧ (<[STDOUT_FILENO := None]> t) !! STDOUT_FILENO = Some None
    ∧ files s4 = files s.
Proof.
  destruct s as [ps fs inp]. simpl in Hc, Hfile.
  assert (Hlen : 1 < length t) by (apply lookup_lt_Some in Hout; done).
  assert (Hclose : sys_close t STDOUT_FILENO = (Ok 0, <[STDOUT_FILENO := None]> t))
    by (unfold sys_close; by rewrite Hout).
  pose proof (open_existing w fs t f f1 Hout Hfile) as Hopen.
  simpl in Hwc. eexists. split; [|split; [|split]].
  - eapply run_cons.
    { unfold step. simpl. rewrite Hc. simpl. rewrite Hclose. done. }
    eapply run_cons.
    { unfold step. simpl. rewrite lookup_insert_eq. simpl. rewrite Hopen. done. }
    eapply run_cons.
    { unfold step. simpl. rewrite lookup_insert_eq. simpl. rewrite Hwc. done. }
    eapply run_cons; [|done].
    unfold step. simpl. rewrite lookup_insert_eq. simpl.
    unfold sys_write. rewrite list_lookup_insert_eq by done. done.
  - simpl. by rewrite lookup_insert_eq.
  - by apply list_lookup_insert_eq.
  - done.
Qed.

(** The theorem in the child of a run on a terminal, in a directory
    that holds the destination file. *)
Lemma redirect_open_fails_on_existing_file_witness :
  ∃ tr s s4,
    run redirect demo_world [Step 10; Step 10; StepFork 10 (Some 11%Z)]
      (demo_redirect {[redirect_path := File (cs "old") 0x1C0]}) = Some (tr, s)
    ∧ run redirect demo_world
        [Step 11; Step 11; Step 11; ImgWrite 11 STDOUT_FILENO (cs "7 wc")] s
      = Some ([EvClose 11 STDOUT_FILENO (Ok 0);
               EvOpen 11 redirect_path redirect_flags None (Err EEXIST);
               EvExec 11 (cs "wc") wc_argv true;
               EvWrite 11 STDOUT_FILENO (cs "7 wc") (Err EBADF)], s4)
    ∧ files s4 !! redirect_path = Some (File (cs "old") 0x1C0).
Proof.
  edestruct (redirect_open_fails_on_existing_file demo_world)
    with (c := 11%Z) (pp := 10%Z) (t := std_fds) (f1 := Tty)
         (f := File (cs "old") 0x1C0) (data := cs "7 wc")
    as (s4 & H1 & _ & _ & H4).
  - instantiate (1 := snd (default ([], demo_redirect ∅)
        (run redirect demo_world [Step 10; Step 10; StepFork 10 (Some 11%Z)]
           (demo_redirect {[redirect_path := File (cs "old") 0x1C0]})))).
    vm_compute. reflexivity.
  - reflexivity.
  - vm_compute. reflexivity.
  - vm_compute. reflexivity.
  - eexists _, _, s4. split; [vm_compute; reflexivity|].
    split; [exact H1|]. rewrite H4. vm_compute. reflexivity.
Defined.

(** C8. In the child of the redirection demo, whatever its descriptor
    table and the files: the result of [open] is dropped, and the call
    after [open] is [execvp("wc", argv)], with no write and no exit in
    between; this includes the runs in which the destination exists and
    [open] fails. *)
Theorem redirect_open_result_unchecked
    (w : world) (s : sys rpc) (c pp : Z) (t : fdtable)
    (Hc : procs s !! c = Some (Process pp (Run RChildClose) t)) :
  redirect RChildOpen = AOpen redirect_path redirect_flags None (λ _, RChildExec)
  ∧ ∃ r1 r2 s2 s3 t2,
      run redirect w [Step c; Step c] s
        = Some ([EvClose c STDOUT_FILENO r1;
                 EvOpen c redirect_path redirect_flags None r2], s2)
      ∧ procs s2 !! c = Some (Process pp (Run RChildExec) t2)
      ∧ step redirect w (Step c) s2
        = Some (EvExec c (cs "wc") wc_argv (exec_ok w (cs "wc")), s3)
      ∧ (∀ f, files s !! redirect_path = Some f → ∃ err, r2 = Err err).
Proof.
  split; [done|]. destruct s as [ps fs inp]. simpl in Hc.
  destruct (sys_close t STDOUT_FILENO) as [r1 t1] eqn:Hclose.
  destruct (sys_open w fs t1 redirect_path redirect_flags None) as [[r2 fs2] t2] eqn:Hopen.
  exists r1, r2. eexists _, _, t2. split; [|split; [|split]].
  - eapply run_cons.
    { unfold step. simpl. rewrite Hc. simpl. rewrite Hclose. done. }
    eapply run_cons; [|done].
    unfold step. simpl. rewrite lookup_insert_eq. simpl. rewrite Hopen. done.
  - simpl. by rewrite lookup_insert_eq.
  - unfold step. simpl. rewrite lookup_insert_eq. simpl. done.
  - simpl. intros f Hf. unfold sys_open in Hopen.
    destruct (lowest_free t1); [|injection Hopen as <- _ _; eauto].
    rewrite Hf in Hopen. simpl in Hopen. injection Hopen as <- _ _. eauto.
Qed.

(** The theorem in the child of a run in a directory where the
    destination file already exists. *)
Lemma redirect_open_result_unchecked_witness :
  ∃ tr s s2,
    run redirect demo_world [Step 10; Step 10; StepFork 10 (Some 11%Z)]
      (demo_redirect {[redirect_path := File (cs "old") 0x1C0]}) = Some (tr, s)
    ∧ run redirect demo_world [Step 11; Step 11] s
      = Some ([EvClose 11 STDOUT_FILENO (Ok 0);
               EvOpen 11 redirect_path redirect_flags None (Err EEXIST)], s2)
    ∧ ∃ s3, step redirect demo_world (Step 11) s2
            = Some (EvExec 11 (cs "wc") wc_argv true, s3).
Proof.
  edestruct (redirect_open_result_unchecked demo_world) with (c := 11%Z)
    as (_ & r1 & r2 & s2 & s3 & t2 & H1 & _ & H3 & _).
  - instantiate (3 := snd (default ([], demo_redirect ∅)
        (run redirect demo_world [Step 10; Step 10; StepFork 10 (Some 11%Z)]
           (demo_redirect {[redirect_path := File (cs "old") 0x1C0]})))).
    vm_compute. reflexivity.
  - vm_compute in H1. injection H1 as <- <- <-.
    eexists _, _, _. split; [vm_compute; reflexivity|].
    split; [vm_compute; reflexivity|].
    exists s3. exact H3.
Defined.

(** C7, on the code.  The mode [S_IRWXU] is or-ed into the flags and no
    third argument is passed: the flags are [0x3C2], which contain
    [O_EXCL]; when the destination exists the [open] fails with
    [EEXIST] and truncates nothing; when it does not exist the file is
    created with the permission bits found in place of the missing
    argument, and with 0 there the owner has no permission at all. *)
Theorem redirect_open_mode_in_flags :
  redirect RChildOpen = AOpen redirect_path 0x3C2%Z None (λ _, RChildExec)
  ∧ has_flag redirect_flags O_EXCL = true
  ∧ (∀ l u g f,
       sys_open (World l u g) {[redirect_path := f]}
         (<[STDOUT_FILENO := None]> std_fds) redirect_path redirect_flags None
       = (Err EEXIST, {[redirect_path := f]}, <[STDOUT_FILENO := None]> std_fds))
  ∧ (∀ l u g,
       sys_open (World l u g) ∅
         (<[STDOUT_FILENO := None]> std_fds) redirect_path redirect_flags None
       = (Ok 1,
          {[redirect_path := File [] (Z.land (Z.land g (Z.lnot u)) 0xFFF)]},
          <[STDOUT_FILENO := Some (OFile redirect_path true true 0)]> std_fds))
  ∧ (∀ l u, has_flag (creation_perm (World l u 0) None) S_IRWXU = false).
Proof.
  split; [done|]. split; [done|]. split; [|split].
  - intros l u g f. unfold sys_open. simpl. by rewrite lookup_singleton_eq.
  - intros l u g. unfold sys_open. simpl. rewrite lookup_empty. simpl.
    by rewrite insert_empty.
  - done.
Qed.

(** C9, on the code.  Two runs of the demo in a directory without the
    destination file, in which [wc] prints [out1] and then [out2]: the
    first run creates the file with [out1]; in the second run the
    [open] fails with [EEXIST], the write of [out2] on descriptor 1
    fails with [EBADF], and the file still holds [out1]. *)
Theorem second_run_keeps_first_output (u g : Z) (out1 out2 : cstr) :
  let w := World (λ f, bool_decide (f = cs "wc")) u g in
  ∃ tr1 s1 tr2 s2,
    run redirect w (redirect_once 10 11 out1) (boot RHelloPid 10 1 std_fds ∅ [])
      = Some (tr1, s1)
    ∧ files s1 !! redirect_path = Some (File out1 (creation_perm w None))
    ∧ run redirect w (redirect_once 10 12 out2)
        (boot RHelloPid 10 1 std_fds (files s1) [])
      = Some (tr2, s2)
    ∧ EvOpen 12 redirect_path redirect_flags None (Err EEXIST) ∈ tr2
    ∧ EvWrite 12 STDOUT_FILENO out2 (Err EBADF) ∈ tr2
    ∧ files s2 !! redirect_path = Some (File out1 (creation_perm w None)).
Proof.
  intros w.
  pose proof (redirect_full_run w 10 1 11 std_fds ∅ [] Tty out1
                eq_refl eq_refl ltac:(done) ltac:(done) eq_refl) as H1.
  rewrite lookup_empty in H1.
  set (fs1 := <[redirect_path := File out1 (creation_perm w None)]> ∅) in *.
  pose proof (redirect_full_run w 10 1 12 std_fds fs1 [] Tty out2
                eq_refl eq_refl ltac:(done) ltac:(done) eq_refl) as H2.
  assert (Hf : fs1 !! redirect_path = Some (File out1 (creation_perm w None)))
    by apply lookup_insert_eq.
  rewrite Hf in H2.
  eexists _, _, _, _. split; [exact H1|]. split; [exact Hf|].
  split; [exact H2|]. simpl.
  split; [|split; [|done]].
  - do 4 apply list_elem_of_further. apply list_elem_of_here.
  - do 6 apply list_elem_of_further. apply list_elem_of_here.
Qed.

(** * The other demos, and more of the shell and the redirection *)

(** ** Invariants of control points *)

Lemma stable_step {PC} (prog : PC → action PC) w good d s e s' :
  stable prog w good → all_at good s →
  step prog w d s = Some (e, s') → all_at good s'.
Proof.
  intros Hst Hall Hs. unfold all_at in *.
  assert (Hat : ∀ q pr pc, procs s !! q = Some pr → code pr = Run pc → good pc)
    by (intros q pr pc Hq; exact (Hall q pr Hq pc)).
  destruct d; unfold step in Hs; simpl in Hs.
  all: destruct (procs s !! p) as [pr|] eqn:Hp; simpl in Hs; [|done].
  - destruct (code pr) as [pc| |] eqn:Hc; [|done..].
    pose proof (Hst pc (Hat _ _ _ Hp Hc)) as Hk.
    destruct (prog pc) eqn:Hprog; simpl in Hs; try done.
    all: repeat match type of Hs with
         | context [sys_write ?a ?b ?c ?d] =>
             destruct (sys_write a b c d) as [[? ?] ?]
         | context [sys_fgets ?a ?b ?c ?d ?e] =>
             pose proof (Hk a b c) as Hk'; clear Hk;
             destruct (sys_fgets a b c d e) as [[? ?] ?]
         | context [sys_close ?a ?b] => destruct (sys_close a b) as [? ?]
         | context [sys_open ?a ?b ?c ?d ?e ?f] =>
             destruct (sys_open a b c d e f) as [[? ?] ?]
         | context [no_child ?a ?b] => destruct (no_child a b); [|done]
         end.
    all: injection Hs as <- <-; simpl.
    all: apply map_Forall_insert_2; [|done].
    all: simpl; intros pc' Hpc'; try done.
    all: try (injection Hpc' as <-; done).
    destruct (exec_ok w _) eqn:Hok; [done|]. injection Hpc' as <-. auto.
  - destruct (code pr) as [pc| |] eqn:Hc; [|done..].
    pose proof (Hst pc (Hat _ _ _ Hp Hc)) as Hk.
    destruct (prog pc) eqn:Hprog; try (by destruct child).
    destruct child as [c|].
    + destruct (procs s !! c); [done|]. destruct (0 <? c)%Z; [|done].
      injection Hs as <- <-; simpl.
      do 2 (apply map_Forall_insert_2; [intros pc' [= <-]; done|]). done.
    + injection Hs as <- <-; simpl.
      apply map_Forall_insert_2; [intros pc' [= <-]; done | done].
  - destruct (procs s !! c) as [ch|] eqn:Hch; simpl in Hs; [|done].
    destruct (code pr) as [pc| |] eqn:Hc; [|done..].
    destruct (code ch); [done..|].
    pose proof (Hst pc (Hat _ _ _ Hp Hc)) as Hk.
    destruct (prog pc) eqn:Hprog; try done.
    case_bool_decide; [|done]. injection Hs as <- <-; simpl.
    apply map_Forall_insert_2; [intros pc' [= <-]; done|].
    by apply map_Forall_delete.
  - destruct (code pr) as [pc|f a|] eqn:Hc; [done| |done].
    destruct (sys_write _ _ _ _) as [[? ?] ?]. injection Hs as <- <-; simpl.
    apply map_Forall_insert_2; [done | done].
  - destruct (code pr) as [pc|f a|] eqn:Hc; [done| |done].
    destruct (fds pr !! 0) as [[[]|]|]; try done. by injection Hs as <- <-.
  - destruct (code pr) as [pc|f a|] eqn:Hc; [done| |done].
    injection Hs as <- <-; simpl. apply map_Forall_insert_2; [done | done].
Qed.

(** A stable property of the start holds of every process of every
    state a program reaches. *)
Lemma stable_reachable {PC} (prog : PC → action PC) w good s0 tr s :
  stable prog w good → all_at good s0 →
  reachable prog w s0 tr s → all_at good s.
Proof.
  intros Hst H0. revert tr s.
  apply (reachable_ind prog w (λ _ s, all_at good s) s0); [done|].
  intros tr' s1 d e s2 Hall Hs. by eapply stable_step.
Qed.

Lemma all_at_boot {PC} (good : PC → Prop) start p par t fs inp :
  good start → all_at good (boot start p par t fs inp).
Proof.
  intros Hg. unfold all_at, boot. simpl.
  apply map_Forall_singleton. by intros pc [= <-].
Qed.

(** ** The shell's array *)

Lemma strip_newline_length buf b :
  strip_newline buf = Some b → length b = length buf.
Proof.
  unfold strip_newline, store.
  destruct (load buf (strip_index buf)) as [c|]; [|done].
  case_decide; [|by intros [= <-]].
  destruct (in_bounds buf (strip_index buf)); [|done].
  intros [= <-]. apply length_insert.
Qed.

Lemma sys_fgets_length fs inp t buf :
  length buf = MAXLINE →
  ∀ b, (sys_fgets fs inp t buf MAXLINE).1.1 = Some b → length b = MAXLINE.
Proof.
  intros Hlen b Hb.
  destruct (sys_fgets fs inp t buf MAXLINE) as [[r inp'] t'] eqn:Hf.
  simpl in Hb. subst r.
  destruct (sys_fgets_Some _ _ _ _ _ _ _ _ Hf) as (input & rest & Hg).
  by destruct (fgets_length _ _ _ _ Hlen Hg).
Qed.

Lemma shell_buf_sized_stable w : stable shell w buf_sized.
Proof.
  intros pc Hpc. unfold buf_sized in *.
  destruct pc; simpl in *; try done.
  - intros fs inp t b.
    destruct ((sys_fgets fs inp t buf MAXLINE).1.1) as [b1|] eqn:Hr;
      simpl; [|done].
    destruct (strip_newline b1) as [b2|] eqn:Hstrip; simpl; [|done].
    intros [= <-]. rewrite (strip_newline_length _ _ Hstrip).
    eapply sys_fgets_length; [|exact Hr]. by apply Hpc.
  - intros z b. unfold after_fork.
    destruct (z <? 0)%Z; [done|]. destruct (z =? 0)%Z; simpl; auto.
Qed.

(** X1.  [buf] keeps the size of its declaration, [MAXLINE] bytes: in
    every state the shell reaches, in the shell and in each of its
    children, whatever lines were typed.  Neither [fgets] nor the
    stripping of the newline stores past the end of the array. *)
Theorem shell_buffer_keeps_size
    (w : world) (sh par : Z) (buf0 : buffer) (t0 : fdtable)
    (fs0 : gmap cstr file) (inp0 : list ascii)
    (tr : list event) (s : sys spc)
    (Hlen : length buf0 = MAXLINE)
    (Hreach : reachable shell w (boot (SPrompt0 buf0) sh par t0 fs0 inp0) tr s) :
  ∀ q pr pc buf,
    procs s !! q = Some pr → code pr = Run pc → pc_buf pc = Some buf →
    length buf = MAXLINE.
Proof.
  intros q pr pc buf Hq Hc Hb.
  assert (Hall : all_at buf_sized s).
  { eapply stable_reachable; [apply shell_buf_sized_stable | | exact Hreach].
    apply all_at_boot. by intros b [= <-]. }
  exact (Hall q pr Hq pc Hc buf Hb).
Qed.

(** The theorem after a line of 150 bytes was read in two parts. *)
Lemma shell_buffer_keeps_size_witness :
  ∃ tr s buf,
    run shell demo_world [Step 10; Step 10]
        (demo_shell (replicate 150 "a"%char ++ [NL]))
      = Some (tr, s)
    ∧ procs s !! 10%Z = Some (Process 1 (Run (SFork buf)) std_fds)
    ∧ length buf = MAXLINE.
Proof.
  eexists _, _, _. split; [vm_compute; reflexivity|].
  split; [vm_compute; reflexivity|].
  eapply (shell_buffer_keeps_size demo_world 10 1 demo_buf std_fds ∅
            (replicate 150 "a"%char ++ [NL])) with (q := 10%Z).
  - reflexivity.
  - exists [Step 10; Step 10]. vm_compute. reflexivity.
  - vm_compute. reflexivity.
  - reflexivity.
  - reflexivity.
Defined.

(** ** The code after [execvp] *)

Lemma exec_wait_after_exec_stable w :
  exec_ok w (cs "wc") = true →
  stable exec_wait_main w (λ pc, pc ≠ EChildErr ∧ pc ≠ EChildExit).
Proof.
  intros Hok pc [H1 H2]. destruct pc; simpl; try done.
  - intros z. unfold exec_wait_after_fork.
    destruct (z <? 0)%Z; [done|]. by destruct (z =? 0)%Z.
  - intros Hno. simpl in Hok. congruence.
Qed.

Lemma redirect_after_exec_stable w :
  exec_ok w (cs "wc") = true →
  stable redirect w (λ pc, pc ≠ RChildErr ∧ pc ≠ RChildExit).
Proof.
  intros Hok pc [H1 H2]. destruct pc; simpl; try done.
  - intros z. unfold redirect_after_fork.
    destruct (z <? 0)%Z; [done|]. by destruct (z =? 0)%Z.
  - intros Hno. simpl in Hok. congruence.
Qed.

(** X2.  In the demo that forks, execs [wc] and waits: when [wc] can
    be loaded, the two lines after [execvp] (the message [exec failed]
    and [exit(1)]) are never reached, by any process, in any state. *)
Theorem exec_wait_no_return_from_exec
    (w : world) (p par : Z) (t : fdtable) (fs : gmap cstr file)
    (inp : list ascii) (tr : list event) (s : sys epc)
    (Hload : exec_ok w (cs "wc") = true)
    (Hreach : reachable exec_wait_main w (boot EHelloPid p par t fs inp) tr s) :
  ∀ q pr, procs s !! q = Some pr →
    code pr ≠ Run EChildErr ∧ code pr ≠ Run EChildExit.
Proof.
  intros q pr Hq.
  assert (Hall : all_at (λ pc, pc ≠ EChildErr ∧ pc ≠ EChildExit) s).
  { eapply stable_reachable;
      [by apply exec_wait_after_exec_stable | | exact Hreach].
    by apply all_at_boot. }
  destruct (code pr) as [pc| |] eqn:Hc; [|done..].
  destruct (Hall q pr Hq pc Hc). split; congruence.
Qed.

(** The theorem where [wc] is loaded: after its [execvp] the child runs
    the image of [wc]. *)
Lemma exec_wait_no_return_from_exec_witness :
  ∃ tr s,
    run exec_wait_main demo_world
        [Step 10; Step 10; StepFork 10 (Some 11%Z); Step 11; Step 11; Step 11]
        (boot EHelloPid 10 1 std_fds ∅ [])
      = Some (tr, s)
    ∧ procs s !! 11%Z
      = Some (Process 10 (Image (cs "wc") exec_wait_argv) std_fds)
    ∧ Image (cs "wc") exec_wait_argv ≠ Run EChildErr
    ∧ Image (cs "wc") exec_wait_argv ≠ Run EChildExit.
Proof.
  eexists _, _. split; [vm_compute; reflexivity|].
  split; [vm_compute; reflexivity|].
  eapply (exec_wait_no_return_from_exec demo_world 10 1 std_fds ∅ [] _ _ eq_refl)
    with (q := 11%Z)
         (pr := Process 10 (Image (cs "wc") exec_wait_argv) std_fds).
  - exists [Step 10; Step 10; StepFork 10 (Some 11%Z); Step 11; Step 11; Step 11].
    vm_compute. reflexivity.
  - vm_compute. reflexivity.
Defined.

(** X3.  The same in the redirection demo: when [wc] can be loaded, no
    process ever reaches the lines after [execvp]. *)
Theorem redirect_no_return_from_exec
    (w : world) (p par : Z) (t : fdtable) (fs : gmap cstr file)
    (inp : list ascii) (tr : list event) (s : sys rpc)
    (Hload : exec_ok w (cs "wc") = true)
    (Hreach : reachable redirect w (boot RHelloPid p par t fs inp) tr s) :
  ∀ q pr, procs s !! q = Some pr →
    code pr ≠ Run RChildErr ∧ code pr ≠ Run RChildExit.
Proof.
  intros q pr Hq.
  assert (Hall : all_at (λ pc, pc ≠ RChildErr ∧ pc ≠ RChildExit) s).
  { eapply stable_reachable;
      [by apply redirect_after_exec_stable | | exact Hreach].
    by apply all_at_boot. }
  destruct (code pr) as [pc| |] eqn:Hc; [|done..].
  destruct (Hall q pr Hq pc Hc). split; congruence.
Qed.

(** The theorem where [wc] is loaded after the redirection. *)
Lemma redirect_no_return_from_exec_witness :
  ∃ tr s t,
    run redirect demo_world
        [Step 10; Step 10; StepFork 10 (Some 11%Z); Step 11; Step 11; Step 11]
        (demo_redirect ∅)
      = Some (tr, s)
    ∧ procs s !! 11%Z = Some (Process 10 (Image (cs "wc") wc_argv) t)
    ∧ Image (cs "wc") wc_argv ≠ Run RChildErr
    ∧ Image (cs "wc") wc_argv ≠ Run RChildExit.
Proof.
  eexists _, _, _. split; [vm_compute; reflexivity|].
  split; [vm_compute; reflexivity|].
  eapply (redirect_no_return_from_exec demo_world 10 1 std_fds ∅ [] _ _ eq_refl)
    with (q := 11%Z) (pr := Process 10 (Image (cs "wc") wc_argv) _).
  - exists [Step 10; Step 10; StepFork 10 (Some 11%Z); Step 11; Step 11; Step 11].
    vm_compute. reflexivity.
  - vm_compute. reflexivity.
Defined.

(** ** A parent that waits *)

Section WaitingParent.
Context {PC : Type} (prog : PC → action PC) (w : world).
Context (p par c : Z) (pc : PC) (k : Z → PC) (t : fdtable).
Context (live : run_state PC → Prop).
Hypothesis Hwait : prog pc = AWait k.
Hypothesis Hcp : c ≠ p.
Hypothesis Hclosed : child_closed prog live.

Lemma live_child_step chs tc fs inp d e s' :
  live chs →
  step prog w d
    (Sys (<[c := Process p chs tc]> {[p := Process par (Run pc) t]}) fs inp)
    = Some (e, s') →
  actor e = c
  ∧ ∃ chs' tc' fs' inp',
      s' = Sys (<[c := Process p chs' tc']> {[p := Process par (Run pc) t]})
             fs' inp'
      ∧ (live chs' ∨ ∃ st, chs' = Zombie st ∧ e = EvExit c st).
Proof.
  intros Hl Hs. destruct Hclosed as [Hnz Hrun].
  destruct d; unfold_step Hs.
  all: try (rewrite Hwait in Hs; simpl in Hs; wait_blocked Hs).
  all: destruct chs as [cpc|f a|zst]; try done; try (by destruct (Hnz zst)).
  all: try (specialize (Hrun cpc Hl); destruct (prog cpc) eqn:Hprog;
            simpl in Hs; try done).
  all: repeat match type of Hs with
       | context [sys_write ?a ?b ?c ?d] => destruct (sys_write a b c d) as [[? ?] ?]
       | context [sys_fgets ?a ?b ?c ?d ?e] => destruct (sys_fgets a b c d e) as [[? ?] ?]
       | context [sys_close ?a ?b] => destruct (sys_close a b) as [? ?]
       | context [sys_open ?a ?b ?c ?d ?e ?f] => destruct (sys_open a b c d e f) as [[? ?] ?]
       end.
  all: try (destruct (tc !! 0) as [[[]|]|]; try done).
  all: try (injection Hs as <- <-; split; [done|]; simpl;
            rewrite ?insert_insert_eq; eexists _, _, _, _; split; [done|];
            first [ left; first [done | by destruct (exec_ok _ _) | by apply Hrun | by destruct Hrun ]
                  | right; by eexists ]).
  all: injection Hs as <- <-; split; [done|]; simpl.
  all: rewrite ?insert_insert_eq; eexists _, _, _, _; split; [done|].
  all: left; destruct Hrun; by destruct (exec_ok _ _).
Qed.

Lemma zombie_child_step st tc fs inp d e s' :
  step prog w d
    (Sys (<[c := Process p (Zombie st) tc]> {[p := Process par (Run pc) t]})
       fs inp)
    = Some (e, s') →
  d = StepWait p c ∧ e = EvWait p (Ok c)
  ∧ s' = Sys {[p := Process par (Run (k c)) t]} fs inp.
Proof.
  intros Hs. destruct d; unfold_step Hs.
  all: try (rewrite Hwait in Hs; simpl in Hs; wait_blocked Hs).
  all: try by destruct child.
  rewrite bool_decide_true in Hs by done. injection Hs as <- <-.
  rewrite delete_insert_eq, delete_singleton_ne, insert_singleton_eq by done.
  done.
Qed.

(** While the child lives, only the child acts; the parent's first
    event is the return of its wait, right after the child's
    termination. *)
Lemma parent_blocked_until_exit ds chs tc fs inp tr s' :
  live chs →
  run prog w ds
    (Sys (<[c := Process p chs tc]> {[p := Process par (Run pc) t]}) fs inp)
    = Some (tr, s') →
  Forall (λ e, actor e = c) tr
  ∨ ∃ mid st rest ds' fs' inp',
      tr = mid ++ EvExit c st :: EvWait p (Ok c) :: rest
      ∧ Forall (λ e, actor e = c) mid
      ∧ run prog w ds' (Sys {[p := Process par (Run (k c)) t]} fs' inp')
        = Some (rest, s').
Proof.
  revert chs tc fs inp tr. induction ds as [|d ds IH]; intros chs tc fs inp tr Hl.
  - intros [= <- <-]. by left.
  - intros (e & s1 & tr1 & Hs & Hrun & ->)%run_cons_inv.
    destruct (live_child_step _ _ _ _ _ _ _ Hl Hs)
      as (He & chs' & tc' & fs' & inp' & -> & [Hl' | (st & -> & ->)]).
    + destruct (IH _ _ _ _ _ Hl' Hrun)
        as [Hall | (mid & st & rest & ds' & fs2 & inp2 & -> & Hmid & Hrest)].
      * left. by constructor.
      * right. exists (e :: mid), st, rest, ds', fs2, inp2.
        split; [done|]. split; [by constructor | done].
    + destruct ds as [|d2 ds].
      * injection Hrun as <- <-. left. by constructor.
      * apply run_cons_inv in Hrun as (e2 & s2 & tr2 & Hs2 & Hrun & ->).
        apply zombie_child_step in Hs2 as (-> & -> & ->).
        right. exists [], st, tr2, ds, fs', inp'. done.
Qed.

(** While the child is there the parent stays at its wait, with its
    descriptor table as it was. *)
Lemma parent_blocked_state ds chs tc fs inp tr s' :
  live chs →
  run prog w ds
    (Sys (<[c := Process p chs tc]> {[p := Process par (Run pc) t]}) fs inp)
    = Some (tr, s') →
  procs s' !! p = Some (Process par (Run pc) t)
  ∨ ∃ ds' rest fs' inp',
      run prog w ds' (Sys {[p := Process par (Run (k c)) t]} fs' inp')
      = Some (rest, s').
Proof.
  revert chs tc fs inp tr. induction ds as [|d ds IH]; intros chs tc fs inp tr Hl.
  - intros [= <- <-]. left. simpl.
    by rewrite lookup_insert_ne, lookup_singleton_eq.
  - intros (e & s1 & tr1 & Hs & Hrun & ->)%run_cons_inv.
    destruct (live_child_step _ _ _ _ _ _ _ Hl Hs)
      as (He & chs' & tc' & fs' & inp' & -> & [Hl' | (st & -> & ->)]).
    + by eapply IH.
    + destruct ds as [|d2 ds].
      * injection Hrun as <- <-. left. simpl.
        by rewrite lookup_insert_ne, lookup_singleton_eq.
      * apply run_cons_inv in Hrun as (e2 & s2 & tr2 & Hs2 & Hrun & ->).
        apply zombie_child_step in Hs2 as (-> & -> & ->).
        right. by exists ds, tr2, fs', inp'.
Qed.
End WaitingParent.

(** As [unfold_step], keeping the names of the state's processes. *)
Ltac step_cases H :=
  unfold step in H; simpl in H;
  rewrite ?lookup_insert, ?lookup_singleton in H;
  repeat case_decide;
  repeat match goal with He : ?a = ?b |- _ => is_var b; subst b end;
  simpl in H; try done.

(** The schedule ends here: the trace so far is a prefix of the
    course. *)
Ltac stop Hrun :=
  injection Hrun as <- <-;
  unfold fork_refused, fork_granted, report;
  repeat eexists;
  first [ assumption | repeat apply prefix_cons; apply prefix_nil ].

(** One more decision of the schedule, if there is one. *)
Ltac advance Hrun Hs :=
  match type of Hrun with
  | run _ _ ?ds _ = _ =>
      let d := fresh "d" in
      let ds' := fresh "ds" in
      let e := fresh "e" in
      let s1 := fresh "s" in
      let tr' := fresh "tr" in
      destruct ds as [|d ds'];
      [ | apply run_cons_inv in Hrun as (e & s1 & tr' & Hs & Hrun & ->);
          destruct d; step_cases Hs; wait_blocked Hs ]
  end.

(** Name the results of the kernel call of a step and move on. *)
Ltac settle Hs Hrun :=
  repeat match type of Hs with
  | context [sys_write ?a ?b ?c ?d] =>
      let r := fresh "r" in destruct (sys_write a b c d) as [[r ?] ?]
  | context [sys_close ?a ?b] =>
      let r := fresh "r" in destruct (sys_close a b) as [r ?]
  | context [sys_open ?a ?b ?c ?d ?e ?f] =>
      let r := fresh "r" in destruct (sys_open a b c d e f) as [[r ?] ?]
  end;
  injection Hs as <- <-;
  rewrite ?insert_insert_eq, ?insert_singleton_eq in Hrun.

(** The fork of a schedule: granted with a new pid, or refused. *)
Ltac fork_cases Hs p child c Hcp :=
  destruct child as [c|];
  [ rewrite lookup_singleton in Hs;
    destruct (decide (p = c)) as [->|Hcp]; simpl in Hs; [done|];
    destruct (Z.ltb_spec 0 c); [|done];
    apply not_eq_sym in Hcp
  | ].

Lemma redirect_child_closed : child_closed redirect redirect_live.
Proof.
  split; [intros st []|].
  intros []; simpl; intros H; try done; by destruct H.
Qed.

Lemma exec_wait_child_closed : child_closed exec_wait_main exec_wait_live.
Proof.
  split; [intros st []|].
  intros []; simpl; intros H; try done; by destruct H.
Qed.

Lemma exec_wait_after_fork_parent c :
  (0 < c)%Z → exec_wait_after_fork c = EWait c.
Proof.
  intros Hc. unfold exec_wait_after_fork.
  destruct (Z.ltb_spec c 0); [lia|]. destruct (Z.eqb_spec c 0); [lia | done].
Qed.

Lemma fork_wait_after_fork_parent c :
  (0 < c)%Z → fork_wait_after_fork c = WWait c.
Proof.
  intros Hc. unfold fork_wait_after_fork.
  destruct (Z.ltb_spec c 0); [lia|]. destruct (Z.eqb_spec c 0); [lia | done].
Qed.

Lemma fork_after_fork_parent c :
  (0 < c)%Z → fork_after_fork c = FParentPid c.
Proof.
  intros Hc. unfold fork_after_fork.
  destruct (Z.ltb_spec c 0); [lia|]. destruct (Z.eqb_spec c 0); [lia | done].
Qed.

(** X4.  The redirection demo's parent does nothing between its fork
    and the termination of its child: every trace is the start of the
    refused-fork course; or the parent's three events up to the fork
    followed by events of the child alone; or those, the child's exit,
    the return of the parent's wait with the child's pid, and the start
    of the parent's report, which carries that pid as [rc] and as
    [rc_wait], and [exit(0)].  This holds whatever the image of [wc]
    does and whether or not it could be loaded. *)
Theorem redirect_waits_for_child
    (w : world) (p par : Z) (t : fdtable) (fs : gmap cstr file)
    (inp : list ascii) (tr : list event) (s : sys rpc)
    (Hreach : reachable redirect w (boot RHelloPid p par t fs inp) tr s) :
  waits_for_child p tr.
Proof.
  destruct Hreach as [ds Hrun]. unfold boot, waits_for_child in *.
  advance Hrun Hs; [left; stop Hrun|]. settle Hs Hrun.
  advance Hrun Hs; [left; stop Hrun|]. settle Hs Hrun.
  advance Hrun Hs; [left; stop Hrun|].
  fork_cases Hs p child c Hcp.
  - settle Hs Hrun.
    rewrite (redirect_after_fork_parent c) in Hrun by done.
    change (redirect_after_fork 0) with RChildClose in Hrun.
    eapply (parent_blocked_until_exit redirect w p par c (RWait c)
              (λ rc_wait, RReportPid c rc_wait) _ redirect_live)
      in Hrun as [Hall | (mid & st & rest & ds' & fs' & inp' & -> & Hmid & Hrun)];
      [ | | done | done | apply redirect_child_closed | done ].
    + right. left. by eexists _, c, _.
    + right. right.
      assert (∃ r2, rest `prefix_of` report p c r2) as [r2 Hpre].
      { clear Hmid.
        advance Hrun Hs; [stop Hrun|]. settle Hs Hrun.
        advance Hrun Hs; [stop Hrun|]. settle Hs Hrun.
        advance Hrun Hs; [stop Hrun|]. settle Hs Hrun.
        advance Hrun Hs; stop Hrun. }
      by eexists _, c, mid, st, rest, r2.
  - settle Hs Hrun. change (redirect_after_fork (-1)) with RForkErr in Hrun.
    left.
    advance Hrun Hs; [stop Hrun|]. settle Hs Hrun.
    advance Hrun Hs; [stop Hrun|]. settle Hs Hrun.
    advance Hrun Hs; stop Hrun.
  Unshelve. all: exact (Ok 0).
Qed.

(** The theorem on a complete run in which [wc] writes one line. *)
Lemma redirect_waits_for_child_witness :
  ∃ tr s,
    run redirect demo_world (redirect_once 10 11 (cs "3 5 20")) (demo_redirect ∅)
      = Some (tr, s)
    ∧ waits_for_child 10 tr.
Proof.
  eexists _, _. split; [vm_compute; reflexivity|].
  eapply (redirect_waits_for_child demo_world 10 1 std_fds ∅ []).
  exists (redirect_once 10 11 (cs "3 5 20")). vm_compute. reflexivity.
Defined.

(** X5.  The demo that forks, execs [wc] and waits has the same shape:
    between the fork and the child's termination only the child acts,
    the parent's wait returns the child's pid right after the child's
    exit, and the parent's report follows. *)
Theorem exec_wait_waits_for_child
    (w : world) (p par : Z) (t : fdtable) (fs : gmap cstr file)
    (inp : list ascii) (tr : list event) (s : sys epc)
    (Hreach : reachable exec_wait_main w (boot EHelloPid p par t fs inp) tr s) :
  waits_for_child p tr.
Proof.
  destruct Hreach as [ds Hrun]. unfold boot, waits_for_child in *.
  advance Hrun Hs; [left; stop Hrun|]. settle Hs Hrun.
  advance Hrun Hs; [left; stop Hrun|]. settle Hs Hrun.
  advance Hrun Hs; [left; stop Hrun|].
  fork_cases Hs p child c Hcp.
  - settle Hs Hrun.
    rewrite (exec_wait_after_fork_parent c) in Hrun by done.
    change (exec_wait_after_fork 0) with EChildPid in Hrun.
    eapply (parent_blocked_until_exit exec_wait_main w p par c (EWait c)
              (λ rc_wait, EReportPid c rc_wait) _ exec_wait_live)
      in Hrun as [Hall | (mid & st & rest & ds' & fs' & inp' & -> & Hmid & Hrun)];
      [ | | done | done | apply exec_wait_child_closed | done ].
    + right. left. by eexists _, c, _.
    + right. right.
      assert (∃ r2, rest `prefix_of` report p c r2) as [r2 Hpre].
      { clear Hmid.
        advance Hrun Hs; [stop Hrun|]. settle Hs Hrun.
        advance Hrun Hs; [stop Hrun|]. settle Hs Hrun.
        advance Hrun Hs; [stop Hrun|]. settle Hs Hrun.
        advance Hrun Hs; stop Hrun. }
      by eexists _, c, mid, st, rest, r2.
  - settle Hs Hrun. change (exec_wait_after_fork (-1)) with EForkErr in Hrun.
    left.
    advance Hrun Hs; [stop Hrun|]. settle Hs Hrun.
    advance Hrun Hs; [stop Hrun|]. settle Hs Hrun.
    advance Hrun Hs; stop Hrun.
  Unshelve. all: exact (Ok 0).
Qed.

(** The theorem on a run in which [wc] prints its counts and exits. *)
Lemma exec_wait_waits_for_child_witness :
  ∃ tr s,
    run exec_wait_main demo_world
        [Step 10; Step 10; StepFork 10 (Some 11%Z); Step 11; Step 11; Step 11;
         ImgWrite 11 STDOUT_FILENO (cs "3 5 20"); ImgExit 11 (Exited 0);
         StepWait 10 11; Step 10; Step 10; Step 10]
        (boot EHelloPid 10 1 std_fds ∅ [])
      = Some (tr, s)
    ∧ waits_for_child 10 tr.
Proof.
  eexists _, _. split; [vm_compute; reflexivity|].
  eapply (exec_wait_waits_for_child demo_world 10 1 std_fds ∅ []).
  exists [Step 10; Step 10; StepFork 10 (Some 11%Z); Step 11; Step 11; Step 11;
          ImgWrite 11 STDOUT_FILENO (cs "3 5 20"); ImgExit 11 (Exited 0);
          StepWait 10 11; Step 10; Step 10; Step 10].
  vm_compute. reflexivity.
Defined.

(** X6.  [fork_wait.c] leaves the scheduler no choice: every trace is
    the start of one fixed course.  When the fork succeeds the child's
    line comes before the parent's, the child exits with 0, the wait
    returns the child's pid, and the parent's line names that pid
    twice. *)
Theorem fork_wait_order_is_fixed
    (w : world) (p par : Z) (t : fdtable) (fs : gmap cstr file)
    (inp : list ascii) (tr : list event) (s : sys wpc)
    (Hreach : reachable fork_wait_main w (boot WHelloPid p par t fs inp) tr s) :
  (∃ r0 r1, tr `prefix_of` fork_refused p r0 r1)
  ∨ (∃ c r0 r1 r2, c ≠ p ∧ tr `prefix_of` fork_wait_course p c r0 r1 r2).
Proof.
  destruct Hreach as [ds Hrun]. unfold boot, fork_wait_course in *.
  advance Hrun Hs; [left; stop Hrun|]. settle Hs Hrun.
  advance Hrun Hs; [left; stop Hrun|]. settle Hs Hrun.
  advance Hrun Hs; [left; stop Hrun|].
  fork_cases Hs p child c Hcp.
  - settle Hs Hrun.
    rewrite (fork_wait_after_fork_parent c) in Hrun by done.
    change (fork_wait_after_fork 0) with WChildPid in Hrun.
    right. exists c.
    advance Hrun Hs; [stop Hrun|]. settle Hs Hrun.
    advance Hrun Hs; [stop Hrun|]. settle Hs Hrun.
    advance Hrun Hs; [stop Hrun|]. settle Hs Hrun.
    advance Hrun Hs; [stop Hrun|].
    rewrite bool_decide_true in Hs by done. settle Hs Hrun.
    rewrite delete_insert_eq, delete_singleton_ne, insert_singleton_eq in Hrun by done.
    advance Hrun Hs; [stop Hrun|]. settle Hs Hrun.
    advance Hrun Hs; [stop Hrun|]. settle Hs Hrun.
    advance Hrun Hs; [stop Hrun|]. settle Hs Hrun.
    advance Hrun Hs; stop Hrun.
  - settle Hs Hrun. change (fork_wait_after_fork (-1)) with WForkErr in Hrun.
    left.
    advance Hrun Hs; [stop Hrun|]. settle Hs Hrun.
    advance Hrun Hs; [stop Hrun|]. settle Hs Hrun.
    advance Hrun Hs; stop Hrun.
  Unshelve. all: exact (Ok 0).
Qed.

(** The theorem on the complete run with child 11. *)
Lemma fork_wait_order_is_fixed_witness :
  ∃ tr s,
    run fork_wait_main demo_world
        [Step 10; Step 10; StepFork 10 (Some 11%Z); Step 11; Step 11; Step 11;
         StepWait 10 11; Step 10; Step 10; Step 10]
        (boot WHelloPid 10 1 std_fds ∅ [])
      = Some (tr, s)
    ∧ ((∃ r0 r1, tr `prefix_of` fork_refused 10 r0 r1)
       ∨ (∃ c r0 r1 r2,
            c ≠ 10%Z ∧ tr `prefix_of` fork_wait_course 10 c r0 r1 r2)).
Proof.
  eexists _, _. split; [vm_compute; reflexivity|].
  eapply (fork_wait_order_is_fixed demo_world 10 1 std_fds ∅ []).
  exists [Step 10; Step 10; StepFork 10 (Some 11%Z); Step 11; Step 11; Step 11;
          StepWait 10 11; Step 10; Step 10; Step 10].
  vm_compute. reflexivity.
Defined.

(** X7.  When [wc] cannot be loaded, the fork, exec and wait demo has
    one course only: the child prints its line, its [execvp] returns,
    it writes [exec failed] on the error channel and exits with 1; the
    parent, which does not look at the status it waited for, reports as
    usual and exits with 0. *)
Theorem exec_wait_exec_failure
    (w : world) (p par : Z) (t : fdtable) (fs : gmap cstr file)
    (inp : list ascii) (tr : list event) (s : sys epc)
    (Hno : exec_ok w (cs "wc") = false)
    (Hreach : reachable exec_wait_main w (boot EHelloPid p par t fs inp) tr s) :
  (∃ r0 r1, tr `prefix_of` fork_refused p r0 r1)
  ∨ (∃ c r0 r1 r2 r3,
       c ≠ p ∧ tr `prefix_of` exec_wait_failure_course p c r0 r1 r2 r3).
Proof.
  destruct Hreach as [ds Hrun]. unfold boot, exec_wait_failure_course in *.
  simpl in Hno.
  advance Hrun Hs; [left; stop Hrun|]. settle Hs Hrun.
  advance Hrun Hs; [left; stop Hrun|]. settle Hs Hrun.
  advance Hrun Hs; [left; stop Hrun|].
  fork_cases Hs p child c Hcp.
  - settle Hs Hrun.
    rewrite (exec_wait_after_fork_parent c) in Hrun by done.
    change (exec_wait_after_fork 0) with EChildPid in Hrun.
    right. exists c.
    advance Hrun Hs; [stop Hrun|]. settle Hs Hrun.
    advance Hrun Hs; [stop Hrun|]. settle Hs Hrun.
    advance Hrun Hs; [stop Hrun|]. rewrite Hno in Hs. settle Hs Hrun.
    advance Hrun Hs; [stop Hrun|]. settle Hs Hrun.
    advance Hrun Hs; [stop Hrun|]. settle Hs Hrun.
    advance Hrun Hs; [stop Hrun|].
    rewrite bool_decide_true in Hs by done. settle Hs Hrun.
    rewrite delete_insert_eq, delete_singleton_ne, insert_singleton_eq in Hrun by done.
    advance Hrun Hs; [stop Hrun|]. settle Hs Hrun.
    advance Hrun Hs; [stop Hrun|]. settle Hs Hrun.
    advance Hrun Hs; [stop Hrun|]. settle Hs Hrun.
    advance Hrun Hs; stop Hrun.
  - settle Hs Hrun. change (exec_wait_after_fork (-1)) with EForkErr in Hrun.
    left.
    advance Hrun Hs; [stop Hrun|]. settle Hs Hrun.
    advance Hrun Hs; [stop Hrun|]. settle Hs Hrun.
    advance Hrun Hs; stop Hrun.
  Unshelve. all: exact (Ok 0).
Qed.

(** The theorem in a world without [wc]: the complete course. *)
Lemma exec_wait_exec_failure_witness :
  ∃ tr s,
    run exec_wait_main bare_world
        [Step 10; Step 10; StepFork 10 (Some 11%Z); Step 11; Step 11; Step 11;
         Step 11; Step 11; StepWait 10 11; Step 10; Step 10; Step 10]
        (boot EHelloPid 10 1 std_fds ∅ [])
      = Some (tr, s)
    ∧ ((∃ r0 r1, tr `prefix_of` fork_refused 10 r0 r1)
       ∨ (∃ c r0 r1 r2 r3,
            c ≠ 10%Z
            ∧ tr `prefix_of` exec_wait_failure_course 10 c r0 r1 r2 r3)).
Proof.
  eexists _, _. split; [vm_compute; reflexivity|].
  eapply (exec_wait_exec_failure bare_world 10 1 std_fds ∅ [] _ _ eq_refl).
  exists [Step 10; Step 10; StepFork 10 (Some 11%Z); Step 11; Step 11; Step 11;
          Step 11; Step 11; StepWait 10 11; Step 10; Step 10; Step 10].
  vm_compute. reflexivity.
Defined.

(** X8.  When [wc] cannot be loaded, the redirection demo has one
    course only: the child closes descriptor 1, opens the file, its
    [execvp] returns, it writes [exec failed] on the error channel and
    exits with 1; the parent reports and exits with 0. *)
Theorem redirect_exec_failure
    (w : world) (p par : Z) (t : fdtable) (fs : gmap cstr file)
    (inp : list ascii) (tr : list event) (s : sys rpc)
    (Hno : exec_ok w (cs "wc") = false)
    (Hreach : reachable redirect w (boot RHelloPid p par t fs inp) tr s) :
  (∃ r0 r1, tr `prefix_of` fork_refused p r0 r1)
  ∨ (∃ c r0 r1 r2 r3 r4,
       c ≠ p ∧ tr `prefix_of` redirect_failure_course p c r0 r1 r2 r3 r4).
Proof.
  destruct Hreach as [ds Hrun]. unfold boot, redirect_failure_course in *.
  simpl in Hno.
  advance Hrun Hs; [left; stop Hrun|]. settle Hs Hrun.
  advance Hrun Hs; [left; stop Hrun|]. settle Hs Hrun.
  advance Hrun Hs; [left; stop Hrun|].
  fork_cases Hs p child c Hcp.
  - settle Hs Hrun.
    rewrite (redirect_after_fork_parent c) in Hrun by done.
    change (redirect_after_fork 0) with RChildClose in Hrun.
    right. exists c.
    advance Hrun Hs; [stop Hrun|]. settle Hs Hrun.
    advance Hrun Hs; [stop Hrun|]. settle Hs Hrun.
    advance Hrun Hs; [stop Hrun|]. rewrite Hno in Hs. settle Hs Hrun.
    advance Hrun Hs; [stop Hrun|]. settle Hs Hrun.
    advance Hrun Hs; [stop Hrun|]. settle Hs Hrun.
    advance Hrun Hs; [stop Hrun|].
    rewrite bool_decide_true in Hs by done. settle Hs Hrun.
    rewrite delete_insert_eq, delete_singleton_ne, insert_singleton_eq in Hrun by done.
    advance Hrun Hs; [stop Hrun|]. settle Hs Hrun.
    advance Hrun Hs; [stop Hrun|]. settle Hs Hrun.
    advance Hrun Hs; [stop Hrun|]. settle Hs Hrun.
    advance Hrun Hs; stop Hrun.
  - settle Hs Hrun. change (redirect_after_fork (-1)) with RForkErr in Hrun.
    left.
    advance Hrun Hs; [stop Hrun|]. settle Hs Hrun.
    advance Hrun Hs; [stop Hrun|]. settle Hs Hrun.
    advance Hrun Hs; stop Hrun.
  Unshelve. all: exact (Ok 0).
Qed.

(** The theorem in a world without [wc]: the complete course. *)
Lemma redirect_exec_failure_witness :
  ∃ tr s,
    run redirect bare_world
        [Step 10; Step 10; StepFork 10 (Some 11%Z); Step 11; Step 11; Step 11;
         Step 11; Step 11; StepWait 10 11; Step 10; Step 10; Step 10]
        (demo_redirect ∅)
      = Some (tr, s)
    ∧ ((∃ r0 r1, tr `prefix_of` fork_refused 10 r0 r1)
       ∨ (∃ c r0 r1 r2 r3 r4,
            c ≠ 10%Z
            ∧ tr `prefix_of` redirect_failure_course 10 c r0 r1 r2 r3 r4)).
Proof.
  eexists _, _. split; [vm_compute; reflexivity|].
  eapply (redirect_exec_failure bare_world 10 1 std_fds ∅ [] _ _ eq_refl).
  exists [Step 10; Step 10; StepFork 10 (Some 11%Z); Step 11; Step 11; Step 11;
          Step 11; Step 11; StepWait 10 11; Step 10; Step 10; Step 10].
  vm_compute. reflexivity.
Defined.

(** ** What the redirection changes, and for whom *)

Lemma sys_write_tty fs t fd data :
  t !! fd = Some (Some Tty) →
  sys_write fs t fd data = (Ok (Z.of_nat (length data)), fs, t).
Proof. intros H. unfold sys_write. by rewrite H. Qed.

(** A run that passes an event, cut at that event. *)
Lemma run_split {PC} (prog : PC → action PC) w ds s0 t1 e t2 s :
  run prog w ds s0 = Some (t1 ++ e :: t2, s) →
  ∃ ds1 d ds2 s1 s2,
    ds = ds1 ++ d :: ds2
    ∧ run prog w ds1 s0 = Some (t1, s1)
    ∧ step prog w d s1 = Some (e, s2)
    ∧ run prog w ds2 s2 = Some (t2, s).
Proof.
  revert ds s0. induction t1 as [|e1 t1 IH]; intros ds s0 Hrun.
  - destruct ds as [|d ds]; [done|].
    apply run_cons_inv in Hrun as (e' & s1 & tr1 & Hs & Hrun & Heq).
    injection Heq as <- <-. by exists [], d, ds, s0, s1.
  - destruct ds as [|d ds]; [done|].
    apply run_cons_inv in Hrun as (e' & s1 & tr1 & Hs & Hrun & Heq).
    injection Heq as <- <-.
    destruct (IH _ _ Hrun) as (ds1 & d' & ds2 & s1' & s2 & -> & H1 & H2 & H3).
    exists (d :: ds1), d', ds2, s1', s2. split; [done|].
    split; [by eapply run_cons | done].
Qed.

(** A write leaves the bindings of the other descriptors as they
    are. *)
Lemma sys_write_keeps fs t fd data i :
  i ≠ fd → (sys_write fs t fd data).2 !! i = t !! i.
Proof.
  intros Hi. unfold sys_write.
  destruct (t !! fd) as [[[|path rd [] off]|]|]; simpl; try done.
  destruct (fs !! path); simpl; [|done].
  by rewrite list_lookup_insert_ne.
Qed.

(** The schedule ends in a state that holds one process, not at a
    call that could change its descriptor 1. *)
Ltac alone Hrun :=
  injection Hrun as <- <-;
  let pr := fresh "pr" in
  let Hpr := fresh "Hpr" in
  intros pr Hpr; simpl in Hpr; rewrite lookup_singleton_eq in Hpr;
  injection Hpr as <-; simpl; done.

(** The parent of the redirection demo keeps its descriptor 1: the
    child's [close] and [open] work on the child's own table. *)
Lemma redirect_parent_on_terminal w p par t fs inp tr s :
  t !! STDOUT_FILENO = Some (Some Tty) →
  reachable redirect w (boot RHelloPid p par t fs inp) tr s →
  runs_on_terminal s p.
Proof.
  intros Hout [ds Hrun]. unfold boot, runs_on_terminal in *.
  advance Hrun Hs; [alone Hrun|]. settle Hs Hrun.
  advance Hrun Hs; [alone Hrun|].
  rewrite sys_write_tty in Hs by done. settle Hs Hrun.
  advance Hrun Hs; [alone Hrun|].
  fork_cases Hs p child c Hcp.
  - settle Hs Hrun.
    rewrite (redirect_after_fork_parent c) in Hrun by done.
    change (redirect_after_fork 0) with RChildClose in Hrun.
    eapply (parent_blocked_state redirect w p par c (RWait c)
              (λ rc_wait, RReportPid c rc_wait) _ redirect_live)
      in Hrun as [Hp | (ds' & rest & fs' & inp' & Hrun)];
      [ | | done | done | apply redirect_child_closed | done ].
    + intros pr Hpr. rewrite Hp in Hpr. by injection Hpr as <-.
    + advance Hrun Hs; [alone Hrun|]. settle Hs Hrun.
      advance Hrun Hs; [alone Hrun|].
      rewrite sys_write_tty in Hs by done. settle Hs Hrun.
      advance Hrun Hs; [alone Hrun|]. settle Hs Hrun.
      advance Hrun Hs. alone Hrun.
  - settle Hs Hrun. change (redirect_after_fork (-1)) with RForkErr in Hrun.
    advance Hrun Hs; [alone Hrun|].
    match type of Hs with
    | context [sys_write ?a ?b ?c ?d] =>
        pose proof (sys_write_keeps a b c d STDOUT_FILENO) as Hkeep;
        destruct (sys_write a b c d) as [[r1 fs1] t1]
    end.
    simpl in Hkeep. rewrite Hout in Hkeep.
    injection Hs as <- <-. rewrite ?insert_singleton_eq in Hrun.
    advance Hrun Hs.
    { injection Hrun as <- <-. intros pr Hpr. simpl in Hpr.
      rewrite lookup_singleton_eq in Hpr. injection Hpr as <-. simpl.
      by apply Hkeep. }
    settle Hs Hrun.
    advance Hrun Hs. alone Hrun.
Qed.

(** X9.  The redirection is the child's alone.  When the demo is
    started with the terminal as its standard output: in every state
    it reaches, the parent, as long as it has not exited, runs the
    program text with its descriptor 1 still bound to the terminal,
    whatever the child does to its own descriptor 1; and each [printf]
    of the parent (the greeting and the report) is a call made in such
    a state, on the terminal: it writes the whole line and changes no
    file, so that nothing the parent prints goes to
    [wc_output.txt]. *)
Theorem redirect_parent_keeps_stdout
    (w : world) (p par : Z) (t : fdtable) (fs : gmap cstr file)
    (inp : list ascii) (tr : list event) (s : sys rpc)
    (Hout : t !! STDOUT_FILENO = Some (Some Tty))
    (Hreach : reachable redirect w (boot RHelloPid p par t fs inp) tr s) :
  runs_on_terminal s p
  ∧ ∀ t1 data r t2, tr = t1 ++ EvWrite p STDOUT_FILENO data r :: t2 →
      ∃ s1 s2 pr,
        reachable redirect w (boot RHelloPid p par t fs inp) t1 s1
        ∧ procs s1 !! p = Some pr
        ∧ fds pr !! STDOUT_FILENO = Some (Some Tty)
        ∧ step redirect w (Step p) s1 = Some (EvWrite p STDOUT_FILENO data r, s2)
        ∧ r = Ok (Z.of_nat (length data))
        ∧ files s2 = files s1
        ∧ reachable redirect w s2 t2 s.
Proof.
  split; [by eapply redirect_parent_on_terminal|].
  intros t1 data r t2 ->. destruct Hreach as [ds Hrun].
  apply run_split in Hrun as (ds1 & d & ds2 & s1 & s2 & -> & H1 & Hs & H2).
  assert (Hr1 : reachable redirect w (boot RHelloPid p par t fs inp) t1 s1)
    by by exists ds1.
  assert (Hr2 : reachable redirect w s2 t2 s) by by exists ds2.
  clear H2.
  pose proof (redirect_parent_on_terminal _ _ _ _ _ _ _ _ Hout Hr1) as Hterm.
  unfold runs_on_terminal in Hterm.
  destruct s1 as [ps fs1 inp1]. simpl in Hterm.
  destruct d; unfold step in Hs; simpl in Hs.
  all: destruct (ps !! p0) as [pr|] eqn:Hp; simpl in Hs; [|done].
  - destruct (code pr) as [pc| |] eqn:Hc; [|done..].
    destruct (redirect pc) eqn:Hprog; simpl in Hs; try done.
    all: repeat match type of Hs with
         | context [sys_write ?a ?b ?c ?d] =>
             destruct (sys_write a b c d) as [[? ?] ?] eqn:Hw
         | context [sys_fgets ?a ?b ?c ?d ?e] =>
             destruct (sys_fgets a b c d e) as [[? ?] ?]
         | context [sys_close ?a ?b] => destruct (sys_close a b) as [? ?]
         | context [sys_open ?a ?b ?c ?d ?e ?f] =>
             destruct (sys_open a b c d e f) as [[? ?] ?]
         | context [no_child ?a ?b] => destruct (no_child a b); [|done]
         end.
    all: unfold STDOUT_FILENO, STDERR_FILENO in *; simplify_eq.
    specialize (Hterm pr Hp). rewrite Hc in Hterm.
    rewrite sys_write_tty in Hw by done. simplify_eq.
    eexists _, _, pr. split; [exact Hr1|]. split; [done|].
    split; [done|]. split.
    { unfold step. simpl. rewrite Hp. simpl. rewrite Hc, Hprog. simpl.
      rewrite sys_write_tty by done. reflexivity. }
    done.
  - destruct (code pr) as [pc| |] eqn:Hc; [|done..].
    destruct (redirect pc) eqn:Hprog; try (by destruct child).
    destruct child as [c|]; [|done].
    destruct (ps !! c); [done|]. by destruct (0 <? c)%Z.
  - destruct (ps !! c) as [ch|] eqn:Hch; simpl in Hs; [|done].
    destruct (code pr) as [pc| |] eqn:Hc; [|done..].
    destruct (code ch); [done..|].
    destruct (redirect pc) eqn:Hprog; try done.
    by case_bool_decide.
  - destruct (code pr) as [pc|f a|] eqn:Hc; [done| |done].
    destruct (sys_write _ _ _ _) as [[? ?] ?]. simplify_eq.
    specialize (Hterm pr Hp). by rewrite Hc in Hterm.
  - destruct (code pr) as [pc|f a|] eqn:Hc; [done| |done].
    by destruct (fds pr !! 0) as [[[]|]|].
  - by destruct (code pr).
Qed.

(** The theorem on a complete run in which [wc] writes one line. *)
Lemma redirect_parent_keeps_stdout_witness :
  ∃ tr s,
    run redirect demo_world (redirect_once 10 11 (cs "3 5 20")) (demo_redirect ∅)
      = Some (tr, s)
    ∧ runs_on_terminal s 10
    ∧ ∀ t1 data r t2, tr = t1 ++ EvWrite 10 STDOUT_FILENO data r :: t2 →
        ∃ s1 s2 pr,
          reachable redirect demo_world (boot RHelloPid 10 1 std_fds ∅ []) t1 s1
          ∧ procs s1 !! 10%Z = Some pr
          ∧ fds pr !! STDOUT_FILENO = Some (Some Tty)
          ∧ step redirect demo_world (Step 10) s1
            = Some (EvWrite 10 STDOUT_FILENO data r, s2)
          ∧ r = Ok (Z.of_nat (length data))
          ∧ files s2 = files s1
          ∧ reachable redirect demo_world s2 t2 s.
Proof.
  eexists _, _. split; [vm_compute; reflexivity|].
  eapply (redirect_parent_keeps_stdout demo_world 10 1 std_fds ∅ [] _ _ eq_refl).
  exists (redirect_once 10 11 (cs "3 5 20")). vm_compute. reflexivity.
Defined.

(** X10.  When [wc] cannot be loaded the child has already opened the
    file: started on a terminal in a directory without
    [wc_output.txt], the demo changes nothing in the file system but
    that one file, which it creates and leaves empty, with the
    permission bits found in place of the missing mode.  The child's
    message [exec failed] goes to the error channel, not into the
    file.  A file that exists is left as it is. *)
Theorem redirect_failure_leaves_empty_file
    (w : world) (p par : Z) (t : fdtable) (fs : gmap cstr file)
    (inp : list ascii) (tr : list event) (s : sys rpc) (f0 : ofile)
    (Hno : exec_ok w (cs "wc") = false)
    (Hin : t !! 0 = Some (Some f0))
    (Hout : t !! STDOUT_FILENO = Some (Some Tty))
    (Herr : t !! STDERR_FILENO = Some (Some Tty))
    (Hreach : reachable redirect w (boot RHelloPid p par t fs inp) tr s) :
  files s = fs
  ∨ (fs !! redirect_path = None
     ∧ files s = <[redirect_path := File [] (creation_perm w None)]> fs).
Proof.
  destruct Hreach as [ds Hrun]. unfold boot in *. simpl in Hno.
  destruct (close_then_open w fs t f0 Tty Hin Hout) as [Hclose Hopen].
  assert (Hend : ∀ ds fs1 tr s,
    (fs1 = fs ∨ fs !! redirect_path = None
                ∧ fs1 = <[redirect_path := File [] (creation_perm w None)]> fs) →
    run redirect w ds (Sys {[p := Process par (Run RForkErr) t]} fs1 inp)
      = Some (tr, s)
    ∨ (∃ c, run redirect w ds
              (Sys {[p := Process par (Run (RReportPid c c)) t]} fs1 inp)
            = Some (tr, s)) →
    files s = fs ∨ fs !! redirect_path = None
      ∧ files s = <[redirect_path := File [] (creation_perm w None)]> fs).
  { clear ds tr s Hrun. intros ds fs1 tr s Hfs [Hrun | [c Hrun]].
    - advance Hrun Hs; [by injection Hrun as <- <-|].
      rewrite sys_write_tty in Hs by done. settle Hs Hrun.
      advance Hrun Hs; [by injection Hrun as <- <-|]. settle Hs Hrun.
      advance Hrun Hs. by injection Hrun as <- <-.
    - advance Hrun Hs; [by injection Hrun as <- <-|]. settle Hs Hrun.
      advance Hrun Hs; [by injection Hrun as <- <-|].
      rewrite sys_write_tty in Hs by done. settle Hs Hrun.
      advance Hrun Hs; [by injection Hrun as <- <-|]. settle Hs Hrun.
      advance Hrun Hs. by injection Hrun as <- <-. }
  advance Hrun Hs; [injection Hrun as <- <-; by left|]. settle Hs Hrun.
  advance Hrun Hs; [injection Hrun as <- <-; by left|].
  rewrite sys_write_tty in Hs by done. settle Hs Hrun.
  advance Hrun Hs; [injection Hrun as <- <-; by left|].
  fork_cases Hs p child c Hcp.
  - settle Hs Hrun.
    rewrite (redirect_after_fork_parent c) in Hrun by done.
    change (redirect_after_fork 0) with RChildClose in Hrun.
    advance Hrun Hs; [injection Hrun as <- <-; by left|].
    rewrite Hclose in Hs. settle Hs Hrun.
    advance Hrun Hs; [injection Hrun as <- <-; by left|].
    rewrite Hopen in Hs.
    assert (Hchild : ∀ ds fs1 t1 tr s,
      (fs1 = fs ∨ fs !! redirect_path = None
                  ∧ fs1 = <[redirect_path := File [] (creation_perm w None)]> fs) →
      t1 !! STDERR_FILENO = Some (Some Tty) →
      run redirect w ds
          (Sys (<[c := Process p (Run RChildExec) t1]>
                  {[p := Process par (Run (RWait c)) t]}) fs1 inp)
        = Some (tr, s) →
      files s = fs ∨ fs !! redirect_path = None
        ∧ files s = <[redirect_path := File [] (creation_perm w None)]> fs).
    { clear -Hend Hno Hcp Herr. intros ds fs1 t1 tr s Hfs Ht1 Hrun.
      advance Hrun Hs; [by injection Hrun as <- <-|].
      rewrite Hno in Hs. settle Hs Hrun.
      advance Hrun Hs; [by injection Hrun as <- <-|].
      rewrite sys_write_tty in Hs by done. settle Hs Hrun.
      advance Hrun Hs; [by injection Hrun as <- <-|]. settle Hs Hrun.
      advance Hrun Hs; [by injection Hrun as <- <-|].
      rewrite bool_decide_true in Hs by done. settle Hs Hrun.
      rewrite delete_insert_eq, delete_singleton_ne, insert_singleton_eq
        in Hrun by done.
      eapply Hend; [exact Hfs | right; by exists c]. }
    destruct (fs !! redirect_path) eqn:Hpath; settle Hs Hrun.
    + eapply Hchild; [by left | | exact Hrun]. by rewrite list_lookup_insert_ne.
    + eapply Hchild; [by right | | exact Hrun]. by rewrite list_lookup_insert_ne.
  - settle Hs Hrun. change (redirect_after_fork (-1)) with RForkErr in Hrun.
    eapply Hend; [by left | by left].
Qed.

(** The theorem in a world without [wc], on a terminal: the file is
    there and empty when the demo has ended. *)
Lemma redirect_failure_leaves_empty_file_witness :
  ∃ tr s,
    run redirect bare_world
        [Step 10; Step 10; StepFork 10 (Some 11%Z); Step 11; Step 11; Step 11;
         Step 11; Step 11; StepWait 10 11; Step 10; Step 10; Step 10]
        (demo_redirect ∅)
      = Some (tr, s)
    ∧ files s !! redirect_path = Some (File [] 0)
    ∧ (files s = ∅
       ∨ ((∅ : gmap cstr file) !! redirect_path = None
          ∧ files s
            = <[redirect_path := File [] (creation_perm bare_world None)]> ∅)).
Proof.
  eexists _, _. split; [vm_compute; reflexivity|].
  split; [vm_compute; reflexivity|].
  eapply (redirect_failure_leaves_empty_file bare_world 10 1 std_fds ∅ [] _ _ Tty
            eq_refl eq_refl eq_refl eq_refl).
  exists [Step 10; Step 10; StepFork 10 (Some 11%Z); Step 11; Step 11; Step 11;
          Step 11; Step 11; StepWait 10 11; Step 10; Step 10; Step 10].
  vm_compute. reflexivity.
Defined.

(** ** [fork.c]: two processes and no wait *)

(** After the fork, parent and child each follow their own text; the
    scheduler interleaves them as it likes. *)
Lemma fork_two_processes w p par c (Hcp : c ≠ p) ds :
  ∀ ps tp cs tc fs inp tr s' rp0 rc0 lp lc,
    fork_parent_rest p c ps rp0 = Some lp →
    fork_child_rest c cs rc0 = Some lc →
    run fork_main w ds
      (Sys (<[c := Process p cs tc]> {[p := Process par ps tp]}) fs inp)
      = Some (tr, s') →
    (∃ rp lp', fork_parent_rest p c ps rp = Some lp'
               ∧ filter (λ e, actor e = p) tr `prefix_of` lp')
    ∧ (∃ rc lc', fork_child_rest c cs rc = Some lc'
                 ∧ filter (λ e, actor e = c) tr `prefix_of` lc')
    ∧ Forall (λ e, actor e = p ∨ actor e = c) tr.
Proof.
  unfold fork_parent_course, fork_child_course.
  induction ds as [|d ds IH]; intros ps tp cs tc fs inp tr s' rp0 rc0 lp lc Hp Hc Hrun.
  - injection Hrun as <- <-. split; [|split; [|done]].
    + exists rp0, lp. split; [done | apply prefix_nil].
    + exists rc0, lc. split; [done | apply prefix_nil].
  - apply run_cons_inv in Hrun as (e & s1 & tr1 & Hs & Hrun & ->).
    destruct d; step_cases Hs.
    all: try (destruct cs as [[]| |]; simpl in Hc, Hs; try done).
    all: try (destruct ps as [[]| |]; simpl in Hp, Hs; try done).
    all: repeat case_decide; try done.
    all: repeat match goal with H : _ ∧ _ |- _ => destruct H end; subst.
    all: settle Hs Hrun.
    all: try (rewrite (insert_insert_ne _ p c), insert_singleton_eq in Hrun by done).
    all: (eapply IH in Hrun as ((rp & lp' & Hp' & Hpre) & (rc' & lc' & Hc' & Hcre) & Hall);
          [ | simpl; rewrite ?decide_True by done; reflexivity
            | simpl; rewrite ?decide_True by done; reflexivity ]).
    all: simpl in Hp', Hc'; repeat (case_decide; [|exfalso; intuition congruence]).
    all: simplify_eq.
    all: rewrite !filter_cons; simpl.
    all: repeat first [rewrite decide_True by done | rewrite decide_False by done].
    all: (split; [|split]);
      [ eexists _, _; split;
          [ simpl; rewrite ?decide_True by done; reflexivity
          | first [ exact Hpre | apply prefix_cons; exact Hpre ] ]
      | eexists _, _; split;
          [ simpl; rewrite ?decide_True by done; reflexivity
          | first [ exact Hcre | apply prefix_cons; exact Hcre ] ]
      | constructor; [simpl; auto | exact Hall] ].
  Unshelve. all: exact (Ok 0).
Qed.

(** X11.  In [fork.c] nobody waits.  After a fork that returned [c],
    the events of the parent are the start of its three (its pid, the
    line [parent of c], exit with 0), the events of the child are the
    start of its three (its pid, the line [child], exit with 0), no
    third process acts and no [wait] occurs; how the two sequences
    are interleaved is not determined. *)
Theorem fork_each_process_own_course
    (w : world) (p par : Z) (t : fdtable) (fs : gmap cstr file)
    (inp : list ascii) (tr : list event) (s : sys fpc)
    (Hreach : reachable fork_main w (boot FHelloPid p par t fs inp) tr s) :
  (∃ r0 r1, tr `prefix_of` fork_refused p r0 r1)
  ∨ (∃ c r0 rp rc rest,
       c ≠ p ∧ tr = fork_granted p c r0 ++ rest
       ∧ filter (λ e, actor e = p) rest `prefix_of` fork_parent_course p c rp
       ∧ filter (λ e, actor e = c) rest `prefix_of` fork_child_course c rc
       ∧ Forall (λ e, actor e = p ∨ actor e = c) rest).
Proof.
  destruct Hreach as [ds Hrun]. unfold boot in *.
  advance Hrun Hs; [left; stop Hrun|]. settle Hs Hrun.
  advance Hrun Hs; [left; stop Hrun|]. settle Hs Hrun.
  advance Hrun Hs; [left; stop Hrun|].
  fork_cases Hs p child c Hcp.
  - settle Hs Hrun.
    rewrite (fork_after_fork_parent c) in Hrun by done.
    change (fork_after_fork 0) with FChildPid in Hrun.
    eapply (fork_two_processes w p par c Hcp) with (rp0 := Ok 0) (rc0 := Ok 0)
      in Hrun as ((rp & lp & Hp & Hpre) & (rc & lc & Hc & Hcre) & Hall);
      [ | simpl; rewrite decide_True by done; reflexivity | reflexivity ].
    simpl in Hp, Hc. rewrite decide_True in Hp by done.
    injection Hp as <-. injection Hc as <-.
    right. by eexists c, _, rp, rc, _.
  - settle Hs Hrun. change (fork_after_fork (-1)) with FForkErr in Hrun.
    left.
    advance Hrun Hs; [stop Hrun|]. settle Hs Hrun.
    advance Hrun Hs; [stop Hrun|]. settle Hs Hrun.
    advance Hrun Hs; stop Hrun.
  Unshelve. all: exact (Ok 0).
Qed.

(** The theorem on a run in which the two processes alternate. *)
Lemma fork_each_process_own_course_witness :
  ∃ tr s,
    run fork_main demo_world
        [Step 10; Step 10; StepFork 10 (Some 11%Z);
         Step 11; Step 10; Step 11; Step 10; Step 11; Step 10]
        (boot FHelloPid 10 1 std_fds ∅ [])
      = Some (tr, s)
    ∧ ((∃ r0 r1, tr `prefix_of` fork_refused 10 r0 r1)
       ∨ (∃ c r0 rp rc rest,
            c ≠ 10%Z ∧ tr = fork_granted 10 c r0 ++ rest
            ∧ filter (λ e, actor e = 10%Z) rest
                `prefix_of` fork_parent_course 10 c rp
            ∧ filter (λ e, actor e = c) rest `prefix_of` fork_child_course c rc
            ∧ Forall (λ e, actor e = 10%Z ∨ actor e = c) rest)).
Proof.
  eexists _, _. split; [vm_compute; reflexivity|].
  eapply (fork_each_process_own_course demo_world 10 1 std_fds ∅ []).
  exists [Step 10; Step 10; StepFork 10 (Some 11%Z);
          Step 11; Step 10; Step 11; Step 10; Step 11; Step 10].
  vm_compute. reflexivity.
Defined.

Lemma fork_step_getpid w q pq k t ps fs inp :
  ps !! q = Some (Process pq (Run k) t) →
  ∀ k', fork_main k = AGetpid k' →
  step fork_main w (Step q) (Sys ps fs inp)
  = Some (EvGetpid q, Sys (<[q := Process pq (Run (k' q)) t]> ps) fs inp).
Proof. intros Hq k' Hk. unfold step. simpl. rewrite Hq. simpl. by rewrite Hk. Qed.

Lemma fork_step_printf w q pq k t ps fs inp :
  ps !! q = Some (Process pq (Run k) t) →
  t !! STDOUT_FILENO = Some (Some Tty) →
  ∀ data k', fork_main k = APrintf data k' →
  step fork_main w (Step q) (Sys ps fs inp)
  = Some (EvWrite q STDOUT_FILENO data (Ok (Z.of_nat (length data))),
          Sys (<[q := Process pq (Run k') t]> ps) fs inp).
Proof.
  intros Hq Ht data k' Hk. unfold step. simpl. rewrite Hq. simpl.
  rewrite Hk. simpl. by rewrite sys_write_tty.
Qed.

Lemma fork_step_exit w q pq t ps fs inp :
  ps !! q = Some (Process pq (Run FExit0) t) →
  step fork_main w (Step q) (Sys ps fs inp)
  = Some (EvExit q (Exited 0),
          Sys (<[q := Process pq (Zombie (Exited 0)) []]> ps) fs inp).
Proof. intros Hq. unfold step. simpl. by rewrite Hq. Qed.

(** X12.  [fork.c] fixes no order between the two lines.  Started on a
    terminal, with the fork returning [c]: there is a run in which the
    parent prints its line and exits before the child has made its
    first call, and a run in which the child prints and exits before
    the parent goes on. *)
Theorem fork_output_order_is_open
    (w : world) (p par c : Z) (t : fdtable) (fs : gmap cstr file)
    (inp : list ascii)
    (Hout : t !! STDOUT_FILENO = Some (Some Tty))
    (Hc : (0 < c)%Z) (Hcp : c ≠ p) :
  ∃ r0 rp rc s1 s2,
    reachable fork_main w (boot FHelloPid p par t fs inp)
      (fork_granted p c r0 ++ fork_parent_course p c rp ++ fork_child_course c rc)
      s1
    ∧ reachable fork_main w (boot FHelloPid p par t fs inp)
        (fork_granted p c r0 ++ fork_child_course c rc ++ fork_parent_course p c rp)
        s2.
Proof.
  assert (Hstart :
    run fork_main w [Step p; Step p; StepFork p (Some c)]
      (boot FHelloPid p par t fs inp)
    = Some (fork_granted p c (Ok (Z.of_nat (length (hello_line p)))),
            Sys (<[c := Process p (Run FChildPid) t]>
                   {[p := Process par (Run (FParentPid c)) t]}) fs inp)).
  { unfold boot, fork_granted.
    eapply run_cons.
    { eapply fork_step_getpid; [apply lookup_singleton_eq | reflexivity]. }
    rewrite insert_singleton_eq.
    eapply run_cons.
    { eapply fork_step_printf; [apply lookup_singleton_eq | done | reflexivity]. }
    rewrite insert_singleton_eq.
    eapply run_cons; [|reflexivity].
    unfold step. simpl. rewrite lookup_singleton_eq. simpl.
    rewrite lookup_singleton_ne by done.
    destruct (Z.ltb_spec 0 c); [|lia].
    by rewrite (fork_after_fork_parent c), insert_singleton_eq by done. }
  eexists _, (Ok (Z.of_nat (length (parent_of_line c p)))),
    (Ok (Z.of_nat (length (child_line c)))), _, _.
  split.
  - exists ([Step p; Step p; StepFork p (Some c)]
            ++ [Step p; Step p; Step p; Step c; Step c; Step c]).
    eapply run_app_Some; [exact Hstart | | reflexivity].
    unfold fork_parent_course, fork_child_course. cbn [app].
    eapply run_cons.
    { eapply fork_step_getpid;
        [rewrite lookup_insert_ne by done; apply lookup_singleton_eq | reflexivity]. }
    rewrite (insert_insert_ne _ p c), insert_singleton_eq by done.
    eapply run_cons.
    { eapply fork_step_printf;
        [rewrite lookup_insert_ne by done; apply lookup_singleton_eq | done | reflexivity]. }
    rewrite (insert_insert_ne _ p c), insert_singleton_eq by done.
    eapply run_cons.
    { eapply fork_step_exit.
      rewrite lookup_insert_ne by done. apply lookup_singleton_eq. }
    rewrite (insert_insert_ne _ p c), insert_singleton_eq by done.
    eapply run_cons.
    { eapply fork_step_getpid; [apply lookup_insert_eq | reflexivity]. }
    rewrite insert_insert_eq.
    eapply run_cons.
    { eapply fork_step_printf; [apply lookup_insert_eq | done | reflexivity]. }
    rewrite insert_insert_eq.
    eapply run_cons; [|reflexivity].
    eapply fork_step_exit. apply lookup_insert_eq.
  - exists ([Step p; Step p; StepFork p (Some c)]
            ++ [Step c; Step c; Step c; Step p; Step p; Step p]).
    eapply run_app_Some; [exact Hstart | | reflexivity].
    unfold fork_parent_course, fork_child_course. cbn [app].
    eapply run_cons.
    { eapply fork_step_getpid; [apply lookup_insert_eq | reflexivity]. }
    rewrite insert_insert_eq.
    eapply run_cons.
    { eapply fork_step_printf; [apply lookup_insert_eq | done | reflexivity]. }
    rewrite insert_insert_eq.
    eapply run_cons.
    { eapply fork_step_exit. apply lookup_insert_eq. }
    rewrite insert_insert_eq.
    eapply run_cons.
    { eapply fork_step_getpid;
        [rewrite lookup_insert_ne by done; apply lookup_singleton_eq | reflexivity]. }
    rewrite (insert_insert_ne _ p c), insert_singleton_eq by done.
    eapply run_cons.
    { eapply fork_step_printf;
        [rewrite lookup_insert_ne by done; apply lookup_singleton_eq | done | reflexivity]. }
    rewrite (insert_insert_ne _ p c), insert_singleton_eq by done.
    eapply run_cons; [|reflexivity].
    eapply fork_step_exit.
    rewrite lookup_insert_ne by done. apply lookup_singleton_eq.
Qed.

(** The theorem with the terminal as standard output and child 11. *)
Lemma fork_output_order_is_open_witness :
  ∃ r0 rp rc s1 s2,
    reachable fork_main demo_world (boot FHelloPid 10 1 std_fds ∅ [])
      (fork_granted 10 11 r0 ++ fork_parent_course 10 11 rp
         ++ fork_child_course 11 rc)
      s1
    ∧ reachable fork_main demo_world (boot FHelloPid 10 1 std_fds ∅ [])
        (fork_granted 10 11 r0 ++ fork_child_course 11 rc
           ++ fork_parent_course 10 11 rp)
        s2.
Proof.
  apply (fork_output_order_is_open demo_world 10 1 11 std_fds ∅ []);
    [reflexivity | lia | lia].
Defined.

(** ** Lines longer than the array *)


Lemma strip_newline_no_NL b :
  strlen b ≠ 0 → strlen b < length b → length b ≤ MAXLINE → NL ∉ c_str b →
  strip_newline b = Some b.
Proof.
  intros Hn Hlt Hlen Hnl.
  destruct (strip_newline_defined b Hn Hlt Hlen) as (b' & Hb & _ & _).
  unfold strip_newline in *.
  destruct (load b (strip_index b)) as [x|] eqn:Hx; [|done].
  rewrite decide_False; [done|]. intros ->. apply Hnl.
  unfold load in Hx. destruct (in_bounds _ _); [|done].
  rewrite strip_index_pos, Nat2Z.id in Hx by done.
  rewrite <- last_c_str in Hx by done.
  apply last_Some in Hx as [l' ->]. apply elem_of_app. right.
  apply list_elem_of_here.
Qed.




(** ** The shell and its children *)

(** X14.  The shell has one child at a time.  In every state it
    reaches, the process table holds the shell alone, or the shell at
    its [wait] and one other process: a child of the shell that is in
    the child's branch of the text (at [execvp], at the message
    [exec error] or at [exit(1)]), runs the image it loaded, or has
    terminated.  A child never goes back to the loop, also when its
    [execvp] fails; and each child is waited for before the next
    line is read. *)
Theorem shell_one_child_at_a_time
    (w : world) (sh par : Z) (buf0 : buffer) (t0 : fdtable)
    (fs0 : gmap cstr file) (inp0 : list ascii)
    (tr : list event) (s : sys spc)
    (Hreach : reachable shell w (boot (SPrompt0 buf0) sh par t0 fs0 inp0) tr s) :
  (∃ rs t, procs s = {[sh := Process par rs t]}
           ∧ ∀ buf, rs ≠ Run (SWait buf))
  ∨ (∃ c chs tc buf t,
       c ≠ sh
       ∧ procs s = <[c := Process sh chs tc]>
                     {[sh := Process par (Run (SWait buf)) t]}
       ∧ (child_state chs ∨ ∃ st, chs = Zombie st)).
Proof.
  apply shell_phase_reachable in Hreach.
  destruct Hreach as [buf t _ Hps | rs t Hrs Hps _
                     | c chs buf t tc t00 mid Hc Hchs Hps _ _ _
                     | c st buf t tc t00 mid Hc Hps _ _ _
                     | buf t Hps _ _].
  - left. eexists _, _. split; [exact Hps | done].
  - left. eexists _, _. split; [exact Hps|].
    intros buf ->. done.
  - right. eexists c, chs, tc, buf, t. split; [done|]. split; [done | by left].
  - right. eexists c, _, tc, buf, t. split; [done|]. split; [done|].
    right. by eexists.
  - left. eexists _, _. split; [exact Hps | done].
Qed.

(** The theorem while [ls] runs. *)
Lemma shell_one_child_at_a_time_witness :
  ∃ tr s,
    run shell demo_world [Step 10; Step 10; StepFork 10 (Some 11%Z); Step 11]
        (demo_shell (cs "ls" ++ [NL]))
      = Some (tr, s)
    ∧ ((∃ rs t, procs s = {[10%Z := Process 1 rs t]}
                ∧ ∀ buf, rs ≠ Run (SWait buf))
       ∨ (∃ c chs tc buf t,
            c ≠ 10%Z
            ∧ procs s = <[c := Process 10 chs tc]>
                          {[10%Z := Process 1 (Run (SWait buf)) t]}
            ∧ (child_state chs ∨ ∃ st, chs = Zombie st))).
Proof.
  eexists _, _. split; [vm_compute; reflexivity|].
  eapply (shell_one_child_at_a_time demo_world 10 1 demo_buf std_fds ∅
            (cs "ls" ++ [NL])).
  exists [Step 10; Step 10; StepFork 10 (Some 11%Z); Step 11].
  vm_compute. reflexivity.
Defined.

(** X15.  The shell does not look at how a command ended.  Whenever a
    child has terminated, with whatever status (an exit code of the
    command, or a signal), the shell's [wait] returns that child, the
    shell prints its prompt and is back at [fgets] with the same
    array, alone. *)
Theorem shell_ignores_child_status
    (w : world) (sh par : Z) (buf0 : buffer) (t0 : fdtable)
    (fs0 : gmap cstr file) (inp0 : list ascii)
    (tr : list event) (s : sys spc) (c pp : Z) (st : status) (tc : fdtable)
    (Hreach : reachable shell w (boot (SPrompt0 buf0) sh par t0 fs0 inp0) tr s)
    (Hc : procs s !! c = Some (Process pp (Zombie st) tc))
    (Hcsh : c ≠ sh) :
  ∃ buf t r s2 t2,
    procs s !! sh = Some (Process par (Run (SWait buf)) t)
    ∧ run shell w [StepWait sh c; Step sh] s
      = Some ([EvWait sh (Ok c); EvWrite sh STDOUT_FILENO prompt r], s2)
    ∧ procs s2 = {[sh := Process par (Run (SRead buf)) t2]}.
Proof.
  apply shell_phase_reachable in Hreach. destruct s as [ps fs inp].
  assert (∃ buf t,
    ps = <[c := Process sh (Zombie st) tc]>
           {[sh := Process par (Run (SWait buf)) t]}) as (buf & t & ->).
  { simpl in Hc.
    destruct Hreach as [buf t _ Hps | rs t Hrs Hps _
                       | c' chs buf t tc' t00 mid Hc' Hchs Hps _ _ _
                       | c' st' buf t tc' t00 mid Hc' Hps _ _ _
                       | buf t Hps _ _]; simpl in Hps; subst ps.
    1,2,5: by rewrite lookup_singleton_ne in Hc.
    - destruct (decide (c = c')) as [->|Hne].
      + rewrite lookup_insert_eq in Hc. injection Hc as <- -> <-. done.
      + by rewrite lookup_insert_ne, lookup_singleton_ne in Hc.
    - destruct (decide (c = c')) as [->|Hne].
      + rewrite lookup_insert_eq in Hc. injection Hc as <- <- <-. by eexists _, _.
      + by rewrite lookup_insert_ne, lookup_singleton_ne in Hc. }
  clear Hreach Hc.
  destruct (sys_write fs t STDOUT_FILENO prompt) as [[r fs'] t'] eqn:Hw.
  exists buf, t, r. eexists _, t'. split; [|split].
  - simpl. by rewrite lookup_insert_ne, lookup_singleton_eq.
  - unfold run, step. simpl.
    rewrite (lookup_insert_ne _ c sh), lookup_singleton_eq by done. simpl.
    rewrite lookup_insert_eq. simpl. rewrite bool_decide_true by done. simpl.
    rewrite delete_insert_eq, delete_singleton_ne, insert_singleton_eq by done.
    rewrite lookup_singleton_eq. simpl. rewrite Hw. simpl. reflexivity.
  - simpl. by rewrite insert_singleton_eq.
Qed.

(** The theorem after [ls] was killed by signal 9. *)
Lemma shell_ignores_child_status_witness :
  ∃ tr s buf t r s2 t2,
    run shell demo_world
        [Step 10; Step 10; StepFork 10 (Some 11%Z); Step 11;
         ImgExit 11 (Signaled 9)]
        (demo_shell (cs "ls" ++ [NL]))
      = Some (tr, s)
    ∧ procs s !! 10%Z = Some (Process 1 (Run (SWait buf)) t)
    ∧ run shell demo_world [StepWait 10 11; Step 10] s
      = Some ([EvWait 10 (Ok 11); EvWrite 10 STDOUT_FILENO prompt r], s2)
    ∧ procs s2 = {[10%Z := Process 1 (Run (SRead buf)) t2]}.
Proof.
  edestruct (shell_ignores_child_status demo_world 10 1 demo_buf std_fds ∅
               (cs "ls" ++ [NL]))
    with (c := 11%Z) (pp := 10%Z) (st := Signaled 9) (tc := @nil (option ofile))
    as (buf & t & r & s2 & t2 & H1 & H2 & H3).
  - exists [Step 10; Step 10; StepFork 10 (Some 11%Z); Step 11;
            ImgExit 11 (Signaled 9)].
    vm_compute. reflexivity.
  - vm_compute. reflexivity.
  - lia.
  - eexists _, _, buf, t, r, s2, t2. split; [vm_compute; reflexivity|].
    split; [exact H1|]. split; [exact H2 | exact H3].
Defined.

(** ** How the shell ends *)

Lemma exits_ok_other sh tr e :
  exits_ok sh tr → (∀ st, e ≠ EvExit sh st) → exits_ok sh (tr ++ [e]).
Proof.
  intros Hok Hne t1 st t2 Heq.
  apply snoc_split in Heq as [(_ & _ & Heq) | (t2' & _ & ->)]; [|eauto].
  by destruct (Hne st).
Qed.

Lemma exits_ok_exit sh tr st :
  exits_ok sh tr → exit_cause sh tr st → exits_ok sh (tr ++ [EvExit sh st]).
Proof.
  intros Hok Hc t1 st' t2 Heq.
  apply snoc_split in Heq as [(_ & -> & Heq) | (t2' & _ & ->)]; [|eauto].
  by injection Heq as ->.
Qed.

(** The shell's lookup in the process table after a step. *)
Ltac shell_lookup H sh :=
  simpl in H;
  rewrite ?insert_insert_eq, ?insert_singleton_eq in H;
  repeat first
    [ rewrite lookup_singleton_eq in H
    | rewrite lookup_insert_eq in H
    | rewrite (lookup_insert_ne _ _ sh) in H by done ];
  injection H as <-; simpl.

(** A step whose event is not an exit of the shell and that does not
    put the shell on a way out. *)
Ltac plain_step Hok sh :=
  split;
  [ apply exits_ok_other; [exact Hok | intros ? ?; simplify_eq]
  | let pr := fresh "pr" in
    let Hpr := fresh "Hpr" in
    intros pr Hpr; shell_lookup Hpr sh; try done ].

Lemma shell_exits_step w sh par tr s d e s' :
  shell_phase sh par tr s → exits_ok sh tr →
  (∀ pr, procs s !! sh = Some pr → leaving sh tr (code pr)) →
  step shell w d s = Some (e, s') →
  exits_ok sh (tr ++ [e])
  ∧ (∀ pr, procs s' !! sh = Some pr → leaving sh (tr ++ [e]) (code pr)).
Proof.
  intros Hph Hok Hlv Hs. destruct s as [ps fs inp].
  destruct Hph as [buf t -> Hps | rs t Hrs Hps _
                  | c chs buf t tc t0 mid Hc Hchs Hps _ -> Hmid
                  | c st buf t tc t0 mid Hc Hps _ -> Hmid
                  | buf t Hps _ Hit]; simpl in Hps; subst ps.
  - destruct d; unfold_step Hs.
    destruct (sys_write _ _ _ _) as [[r fs'] t']. injection Hs as <- <-.
    plain_step Hok sh.
  - specialize (Hlv _ (lookup_singleton_eq _ _)). simpl in Hlv.
    destruct d; unfold_step Hs.
    all: destruct rs as [[]| |]; simpl in Hs, Hrs; try done.
    + destruct (sys_fgets _ _ _ _ _) as [[r inp'] t']. injection Hs as <- <-.
      split; [apply exits_ok_other; [exact Hok | intros ? ?; simplify_eq]|].
      intros pr Hpr. shell_lookup Hpr sh.
      destruct r as [b|]; simpl; [by destruct (strip_newline b) | by eexists].
    + destruct (sys_write _ _ _ _) as [[r fs'] t']. injection Hs as <- <-.
      split; [apply exits_ok_other; [exact Hok | intros ? ?; simplify_eq]|].
      intros pr Hpr. shell_lookup Hpr sh.
      destruct Hlv as [t0 ->]. exists t0, r. by rewrite <- app_assoc.
    + injection Hs as <- <-. split.
      * apply exits_ok_exit; [exact Hok | by right].
      * intros pr Hpr. by shell_lookup Hpr sh.
    + injection Hs as <- <-. split.
      * apply exits_ok_exit; [exact Hok | by left].
      * intros pr Hpr. by shell_lookup Hpr sh.
    + destruct child as [c|].
      * rewrite lookup_singleton in Hs.
        destruct (decide (p = c)) as [->|Hc]; simpl in Hs; [done|].
        destruct (Z.ltb_spec 0 c) as [Hpos|]; [|done]. injection Hs as <- <-.
        rewrite (after_fork_parent buf c) by done.
        split; [apply exits_ok_other; [exact Hok | intros ? ?; simplify_eq]|].
        intros pr Hpr. simpl in Hpr.
        rewrite lookup_insert_ne, lookup_insert_eq in Hpr by done.
        by injection Hpr as <-.
      * injection Hs as <- <-.
        split; [apply exits_ok_other; [exact Hok | intros ? ?; simplify_eq]|].
        intros pr Hpr. shell_lookup Hpr sh. by eexists.
  - destruct d; unfold_step Hs.
    all: destruct chs as [[]| |]; simpl in Hs, Hchs; try done.
    all: wait_blocked Hs.
    all: try (destruct (sys_write _ _ _ _) as [[r fs'] t']).
    all: try (destruct (tc !! 0) as [[[]|]|]; try done).
    all: injection Hs as <- <-.
    all: plain_step Hok sh.
  - destruct d; unfold_step Hs.
    all: wait_blocked Hs.
    rewrite bool_decide_true in Hs by done. injection Hs as <- <-.
    plain_step Hok sh.
  - destruct d; unfold_step Hs.
    destruct (sys_write _ _ _ _) as [[r fs'] t']. injection Hs as <- <-.
    plain_step Hok sh.
Qed.

(** X16.  The shell ends in two ways only.  In every run, an exit of
    the shell with status 0 comes right after an [fgets] that returned
    NULL, and an exit with any other status is an exit with status 1
    that comes right after a refused fork and the message
    [Fork error] on the error channel.  No failure of a command, and
    no status of a child, ends the shell. *)
Theorem shell_exit_has_cause
    (w : world) (sh par : Z) (buf0 : buffer) (t0 : fdtable)
    (fs0 : gmap cstr file) (inp0 : list ascii)
    (tr : list event) (s : sys spc)
    (Hreach : reachable shell w (boot (SPrompt0 buf0) sh par t0 fs0 inp0) tr s) :
  ∀ t1 st t2, tr = t1 ++ EvExit sh st :: t2 → exit_cause sh t1 st.
Proof.
  change (exits_ok sh tr).
  cut (shell_phase sh par tr s ∧ exits_ok sh tr
       ∧ ∀ pr, procs s !! sh = Some pr → leaving sh tr (code pr)).
  { by intros (_ & H & _). }
  revert tr s Hreach.
  apply (reachable_ind shell w
    (λ tr s, shell_phase sh par tr s ∧ exits_ok sh tr
             ∧ ∀ pr, procs s !! sh = Some pr → leaving sh tr (code pr))).
  - split; [by eapply ph_start|]. split.
    + intros t1 st t2 H. by destruct t1.
    + intros pr Hpr. simpl in Hpr. rewrite lookup_singleton_eq in Hpr.
      by injection Hpr as <-.
  - intros tr s d e s' (Hph & Hok & Hlv) Hs. split.
    + by eapply shell_phase_step.
    + by eapply shell_exits_step.
Qed.

(** The theorem on an empty input: the exit with 0 follows the read
    that returned NULL. *)
Lemma shell_exit_has_cause_witness :
  ∃ r, exit_cause 10
         [EvWrite 10 STDOUT_FILENO prompt r; EvRead 10 None] (Exited 0).
Proof.
  eexists.
  eapply (shell_exit_has_cause demo_world 10 1 demo_buf std_fds ∅ [])
    with (t2 := @nil event).
  - exists [Step 10; Step 10; Step 10]. vm_compute. reflexivity.
  - reflexivity.
Defined.

(** ** A last line without a newline *)

Lemma read_line_all n l :
  length l ≤ n → NL ∉ l → read_line n l = (l, []).
Proof.
  revert l. induction n as [|n IH]; intros l Hlen Hnl.
  - destruct l; [done | simpl in Hlen; lia].
  - destruct l as [|c l]; [done|]. simpl.
    apply not_elem_of_cons in Hnl as [Hc Hnl].
    rewrite decide_False by done.
    rewrite IH; [done | simpl in Hlen; lia | done].
Qed.

(** X17.  The last line of the input is run also when it does not end
    in a newline.  When the input ends after some bytes that fit in
    the array, [fgets] returns them, nothing is stripped, the child is
    asked to run the program they name, and the input is used up, so
    that the next [fgets] returns NULL. *)
Theorem shell_unterminated_last_line
    (w : world) (sh par : Z) (buf0 : buffer) (t0 : fdtable)
    (fs0 : gmap cstr file) (inp0 : list ascii)
    (tr : list event) (s : sys spc) (buf : buffer) (t : fdtable)
    (l : list ascii) (c : Z)
    (Hlen : length buf0 = MAXLINE)
    (Hreach : reachable shell w (boot (SPrompt0 buf0) sh par t0 fs0 inp0) tr s)
    (Hsh : procs s !! sh = Some (Process par (Run (SRead buf)) t))
    (Htty : t !! 0 = Some (Some Tty))
    (Hinp : tty_in s = l)
    (Hl : 0 < length l < MAXLINE) (Hnl : NL ∉ l) (Hnul : NUL ∉ l)
    (Hc : (0 < c)%Z) (Hfresh : c ≠ sh) :
  ∃ b s1,
    step shell w (Step sh) s = Some (EvRead sh (Some b), s1)
    ∧ c_str b = l
    ∧ procs s1 = {[sh := Process par (Run (SFork b)) t]}
    ∧ tty_in s1 = []
    ∧ dispatched w s sh c = Some (l, [l]).
Proof.
  assert (Hbuf : length buf = MAXLINE).
  { assert (Hall : all_at buf_sized s).
    { eapply stable_reachable; [apply shell_buf_sized_stable | | exact Hreach].
      apply all_at_boot. by intros b [= <-]. }
    by apply (Hall sh _ Hsh (SRead buf)). }
  assert (Hps : procs s = {[sh := Process par (Run (SRead buf)) t]})
    by (eapply shell_alone_at; [exact Hreach | exact Hsh | intros ?; discriminate]).
  destruct s as [ps fs inp]. simpl in Hps, Hinp. subst ps inp. clear Hsh Hreach.
  set (b := l ++ NUL :: drop (S (length l)) buf).
  assert (Hf : fgets buf MAXLINE l = Some (b, [])).
  { unfold fgets. rewrite read_line_all; [|unfold MAXLINE in *; simpl; lia | done].
    destruct l as [|x l]; [simpl in Hl; lia|]. f_equal. f_equal.
    unfold write_at, b. rewrite <- app_assoc. simpl. do 3 f_equal.
    rewrite length_app. simpl. f_equal. lia. }
  assert (Hstr : strlen b = length l) by by apply strlen_no_NUL.
  assert (Hcstr : c_str b = l).
  { unfold c_str. rewrite Hstr. unfold b. by rewrite take_app_length. }
  destruct (fgets_length _ _ _ _ Hbuf Hf) as [Hb Hlt].
  assert (Hstrip : strip_newline b = Some b)
    by (apply strip_newline_no_NL; [lia | lia | lia | by rewrite Hcstr]).
  assert (Hread : sys_fgets fs l t buf MAXLINE = (Some b, [], t)).
  { unfold sys_fgets. by rewrite Htty, Hf. }
  exists b. eexists. split; [|split; [exact Hcstr|]].
  - unfold step. simpl. rewrite lookup_singleton_eq. simpl.
    rewrite Hread. simpl. rewrite Hstrip. reflexivity.
  - simpl. split; [by rewrite insert_singleton_eq|]. split; [done|].
    unfold dispatched, run, step. simpl.
    rewrite lookup_singleton_eq. simpl. rewrite Hread. simpl. rewrite Hstrip.
    rewrite insert_singleton_eq, lookup_singleton_eq. simpl.
    rewrite lookup_singleton_ne by done.
    destruct (Z.ltb_spec 0 c); [|lia]. simpl.
    rewrite lookup_insert_eq. simpl. by rewrite Hcstr.
Qed.

(** The theorem on the input [ls] without a newline. *)
Lemma shell_unterminated_last_line_witness :
  ∃ tr s,
    run shell demo_world [Step 10] (demo_shell (cs "ls")) = Some (tr, s)
    ∧ dispatched demo_world s 10 11 = Some (cs "ls", [cs "ls"]).
Proof.
  edestruct (shell_unterminated_last_line demo_world 10 1 demo_buf std_fds ∅
               (cs "ls"))
    with (buf := demo_buf) (t := std_fds) (l := cs "ls") (c := 11%Z)
    as (b & s1 & _ & _ & _ & _ & H).
  - reflexivity.
  - exists [Step 10]. vm_compute. reflexivity.
  - vm_compute. reflexivity.
  - reflexivity.
  - vm_compute. reflexivity.
  - vm_compute. lia.
  - intros H. vm_compute in H. by repeat (apply elem_of_cons in H as [H|H]; [done|]);
      apply elem_of_nil in H.
  - intros H. vm_compute in H. by repeat (apply elem_of_cons in H as [H|H]; [done|]);
      apply elem_of_nil in H.
  - lia.
  - lia.
  - eexists _, _. split; [vm_compute; reflexivity | exact H].
Defined.

(** ** The child of the fork, exec and wait demo *)

(** X18.  The child of the fork, exec and wait demo prints its line
    before it calls [execvp], and calls it with the file [wc] and the
    argument vector [wc fork_wait_exec.c]: after the fork, the events
    are the start of the child's three calls, or these three followed
    by what happens then. *)
Theorem exec_wait_child_start
    (w : world) (p par : Z) (t : fdtable) (fs : gmap cstr file)
    (inp : list ascii) (tr : list event) (s : sys epc)
    (Hreach : reachable exec_wait_main w (boot EHelloPid p par t fs inp) tr s) :
  ∀ c r0 rest, tr = fork_granted p c r0 ++ rest →
    ∃ r, rest `prefix_of`
           [EvGetpid c; EvWrite c STDOUT_FILENO (child_line c) r;
            EvExec c (cs "wc") exec_wait_argv (exec_ok w (cs "wc"))]
         ∨ ∃ rest',
             rest = [EvGetpid c; EvWrite c STDOUT_FILENO (child_line c) r;
                     EvExec c (cs "wc") exec_wait_argv (exec_ok w (cs "wc"))]
                    ++ rest'.
Proof.
  intros c0 r00 rest Htr.
  destruct Hreach as [ds Hrun]. unfold boot, fork_granted in *.
  advance Hrun Hs; [by injection Hrun as <- <-|]. settle Hs Hrun.
  advance Hrun Hs; [by injection Hrun as <- <-|]. settle Hs Hrun.
  advance Hrun Hs; [by injection Hrun as <- <-|].
  fork_cases Hs p child c Hcp; [|settle Hs Hrun; done].
  settle Hs Hrun. injection Htr as <- <- <-.
  rewrite (exec_wait_after_fork_parent c) in Hrun by done.
  change (exec_wait_after_fork 0) with EChildPid in Hrun.
  advance Hrun Hs.
  { injection Hrun as <- <-. exists (Ok 0). left. apply prefix_nil. }
  settle Hs Hrun.
  advance Hrun Hs.
  { injection Hrun as <- <-. exists (Ok 0). left. apply prefix_cons, prefix_nil. }
  settle Hs Hrun. exists r0.
  advance Hrun Hs.
  { injection Hrun as <- <-. left. do 2 apply prefix_cons. apply prefix_nil. }
  settle Hs Hrun. right. by eexists.
Qed.

(** The theorem where [wc] is loaded and has run. *)
Lemma exec_wait_child_start_witness :
  ∃ tr s r rest',
    run exec_wait_main demo_world
        [Step 10; Step 10; StepFork 10 (Some 11%Z); Step 11; Step 11; Step 11;
         ImgExit 11 (Exited 0)]
        (boot EHelloPid 10 1 std_fds ∅ [])
      = Some (tr, s)
    ∧ tr = fork_granted 10 11 (Ok 15)
           ++ [EvGetpid 11; EvWrite 11 STDOUT_FILENO (child_line 11) r;
               EvExec 11 (cs "wc") exec_wait_argv true]
           ++ rest'.
Proof.
  edestruct (exec_wait_child_start demo_world 10 1 std_fds ∅ [])
    with (c := 11%Z) (r0 := Ok 15)
         (rest := [EvGetpid 11;
                   EvWrite 11 STDOUT_FILENO (child_line 11) (Ok 15);
                   EvExec 11 (cs "wc") exec_wait_argv true;
                   EvExit 11 (Exited 0)])
    as [r [Hpre | [rest' Hrest]]].
  - exists [Step 10; Step 10; StepFork 10 (Some 11%Z); Step 11; Step 11; Step 11;
            ImgExit 11 (Exited 0)].
    vm_compute. reflexivity.
  - vm_compute. reflexivity.
  - apply prefix_length in Hpre. simpl in Hpre. lia.
  - eexists _, _, r, rest'. split; [vm_compute; reflexivity|].
    refine (eq_trans _ (f_equal (app (fork_granted 10 11 (Ok 15))) Hrest)).
    vm_compute. reflexivity.
Defined.
